(** * Version resolution, reconciliation and pipeline of the legal-document
      processor: a shallow embedding and its properties.

    The development follows the Python sources:
    - [src/agents/versioning_agent.py]       (module [Versioning])
    - [src/agents/version_comparer_agent.py] (module [Comparer])
    - [src/agents/report_generator_agent.py] (modules [Report], [Textos])
    - [src/core/graph/state_graph.py]        (module [Graph])
    - [src/core/orchestrator/orchestrator.py] (module [Orquestador])
    - [src/agents/legalization_agent.py]     (module [Legalization])
    - [src/agents/document_classifier_agent.py] (module [Classifier])

    Python values are modelled as follows.  A [str] is a [string]; the
    order on [str] is the code-point order, which on UTF-8 encoded text is
    the byte-wise lexicographic order [String.compare].  Digits, white
    space and slices are those of ASCII text: [\d], [str.strip] and
    [s[:n]] are not modelled on characters outside ASCII.  A [dict] is an
    association list in insertion order with unique keys.  [list.sort] and
    [sorted] are stable sorts: their result is the unique stable
    arrangement, computed here by a stable insertion sort.  Calls to the
    language model, the OCR service and the file system are arguments of
    the functions that use them; a call that raises is an argument that
    returns [None].  The values of an extracted record are strings, as
    the prompts of the report generator ask. *)

From Stdlib Require Import List String Ascii Bool Arith NArith ZArith Lia.
From Stdlib Require Import Permutation Sorted.
Import ListNotations.

Local Open Scope string_scope.
Local Open Scope list_scope.

Set Implicit Arguments.

(* ================================================================== *)
(** ** Three-way comparisons, as used by Python's rich comparisons     *)
(* ================================================================== *)

Module Cmp.

Definition leb_of {A} (cmp : A -> A -> comparison) (x y : A) : bool :=
  match cmp x y with Gt => false | _ => true end.

(** What makes a three-way comparison a total order. *)
Record Order {A} (cmp : A -> A -> comparison) : Prop := mkOrder {
  antisym : forall x y, cmp x y = CompOpp (cmp y x);
  eq_iff : forall x y, cmp x y = Eq -> x = y;
  lt_trans : forall x y z, cmp x y = Lt -> cmp y z = Lt -> cmp x z = Lt
}.

(** Tuples compare lexicographically. *)
Definition pair_cmp {A B} (ca : A -> A -> comparison)
    (cb : B -> B -> comparison) (p q : A * B) : comparison :=
  match ca (fst p) (fst q) with
  | Eq => cb (snd p) (snd q)
  | r => r
  end.

(** [None] is never compared with a value in the code modelled here
    (Python would raise); it is put first to keep the function total. *)
Definition option_cmp {A} (c : A -> A -> comparison) (a b : option A)
    : comparison :=
  match a, b with
  | None, None => Eq
  | None, Some _ => Lt
  | Some _, None => Gt
  | Some x, Some y => c x y
  end.

Fixpoint list_cmp {A} (c : A -> A -> comparison) (l1 l2 : list A)
    : comparison :=
  match l1, l2 with
  | [], [] => Eq
  | [], _ :: _ => Lt
  | _ :: _, [] => Gt
  | x :: l1', y :: l2' =>
      match c x y with
      | Eq => list_cmp c l1' l2'
      | r => r
      end
  end.

End Cmp.

(* ================================================================== *)
(** ** Python lists, dicts and strings                                 *)
(* ================================================================== *)

Module Py.

(** Truthiness of a [str]: the empty string is falsy. *)
Definition truthy (s : string) : bool :=
  match s with EmptyString => false | String _ _ => true end.

(** [a or b] on strings. *)
Definition str_or (a b : string) : string := if truthy a then a else b.

(** [str.isspace] on the ASCII range: TAB..CR, FS..US and SPACE. *)
Definition isspace (c : ascii) : bool :=
  let n := nat_of_ascii c in
  (((9 <=? n) && (n <=? 13)) || ((28 <=? n) && (n <=? 32)))%nat.

Fixpoint all_space (s : string) : bool :=
  match s with
  | EmptyString => true
  | String c s' => isspace c && all_space s'
  end.

(** [bool(s.strip())]: [s] has a character that is not white space. *)
Definition strip_truthy (s : string) : bool := negb (all_space s).

(** [s[:n]]. *)
Definition take (n : N) (s : string) : string :=
  substring 0 (N.to_nat n) s.

Section Sort.
Variable A : Type.
Variable le : A -> A -> bool.

(** [x] came before every element of [l] in the input: it is placed in
    front of the first element it does not exceed, so equal elements
    keep their input order. *)
Fixpoint insert (x : A) (l : list A) : list A :=
  match l with
  | [] => [x]
  | y :: l' => if le x y then x :: y :: l' else y :: insert x l'
  end.

Fixpoint sort (l : list A) : list A :=
  match l with
  | [] => []
  | x :: l' => insert x (sort l')
  end.
End Sort.

(** [sorted(l, key=key)] and [l.sort(key=key)]. *)
Definition sorted_by {A K} (cmp : K -> K -> comparison) (key : A -> K)
    (l : list A) : list A :=
  sort (fun x y => Cmp.leb_of cmp (key x) (key y)) l.

(** [sorted(l, key=key, reverse=True)]: descending, still stable. *)
Definition sorted_by_rev {A K} (cmp : K -> K -> comparison) (key : A -> K)
    (l : list A) : list A :=
  sort (fun x y => Cmp.leb_of cmp (key y) (key x)) l.

(** [enumerate(l, start=i)]. *)
Fixpoint enumerate {A} (i : nat) (l : list A) : list (nat * A) :=
  match l with
  | [] => []
  | x :: l' => (i, x) :: enumerate (S i) l'
  end.

(** *** Dictionaries *)

Definition dict (V : Type) := list (string * V).

Fixpoint get {V} (d : dict V) (k : string) : option V :=
  match d with
  | [] => None
  | (k', v) :: d' => if String.eqb k k' then Some v else get d' k
  end.

(** [d.get(k, dflt)]. *)
Definition get_default {V} (d : dict V) (k : string) (dflt : V) : V :=
  match get d k with Some v => v | None => dflt end.

(** [d[k] = v]: an existing key keeps its position. *)
Fixpoint set {V} (d : dict V) (k : string) (v : V) : dict V :=
  match d with
  | [] => [(k, v)]
  | (k', v') :: d' =>
      if String.eqb k k' then (k', v) :: d' else (k', v') :: set d' k v
  end.

(** [d.setdefault(k, []).append(x)]. *)
Fixpoint setdefault_append {V} (d : dict (list V)) (k : string) (x : V)
    : dict (list V) :=
  match d with
  | [] => [(k, [x])]
  | (k', l) :: d' =>
      if String.eqb k k' then (k', l ++ [x]) :: d'
      else (k', l) :: setdefault_append d' k x
  end.

Definition keys {V} (d : dict V) : list string := map fst d.
Definition values {V} (d : dict V) : list V := map snd d.

(** [{key(x): val(x) for x in l}]: a later item replaces an earlier one
    with the same key. *)
Definition comprehension {A V} (key : A -> string) (val : A -> V)
    (l : list A) : dict V :=
  fold_left (fun d x => set d (key x) (val x)) l [].

(** [l.remove(x)] for an [x] that is in [l]. *)
Fixpoint remove (x : string) (l : list string) : list string :=
  match l with
  | [] => []
  | y :: l' => if String.eqb x y then l' else y :: remove x l'
  end.

End Py.

(* ================================================================== *)
(** ** [datetime] and [datetime.strptime(s, "%d-%m-%Y")]               *)
(* ================================================================== *)

Module Datetime.

Record datetime := mk {
  year : N; month : N; day : N;
  hour : N; minute : N; second : N; microsecond : N
}.

(** Datetimes compare as the tuple of their fields. *)
Definition state (d : datetime) : list N :=
  [year d; month d; day d; hour d; minute d; second d; microsecond d].

Definition compare (a b : datetime) : comparison :=
  Cmp.list_cmp N.compare (state a) (state b).

(** [datetime.min] and [datetime.max]. *)
Definition min : datetime := mk 1 1 1 0 0 0 0.
Definition max : datetime := mk 9999 12 31 23 59 59 999999.

Definition is_leap (y : N) : bool :=
  ((y mod 4 =? 0) && (negb (y mod 100 =? 0) || (y mod 400 =? 0)))%N.

Definition days_in_month (y m : N) : N :=
  match m with
  | 2%N => if is_leap y then 29 else 28
  | 4%N | 6%N | 9%N | 11%N => 30
  | _ => 31
  end%N.

(** The [date] constructor refuses year 0 and a day the month lacks. *)
Definition valid_date (y m d : N) : bool :=
  ((1 <=? y) && (y <=? 9999) && (1 <=? m) && (m <=? 12)
     && (1 <=? d) && (d <=? days_in_month y m))%N.

Definition is_digit (c : ascii) : bool :=
  let n := nat_of_ascii c in ((48 <=? n) && (n <=? 57))%nat.

Definition digit (c : ascii) : N := (N_of_ascii c - 48)%N.

Definition between (lo hi : nat) (c : ascii) : bool :=
  let n := nat_of_ascii c in ((lo <=? n) && (n <=? hi))%nat.

(** One alternative of a directive's pattern: the value read and the
    rest of the text. *)
Definition alternative := string -> option (N * string).

(** Two characters [a] [b] accepted by [oka] and [okb]. *)
Definition two (oka : ascii -> bool) (okb : ascii -> bool)
    (val : ascii -> ascii -> N) : alternative :=
  fun s =>
    match s with
    | String a (String b r) =>
        if oka a && okb b then Some (val a b, r) else None
    | _ => None
    end.

Definition one (ok : ascii -> bool) : alternative :=
  fun s =>
    match s with
    | String a r => if ok a then Some (digit a, r) else None
    | _ => None
    end.

Definition dec2 (a b : ascii) : N := (10 * digit a + digit b)%N.

(** [%d] is [3[0-1]|[1-2]\d|0[1-9]|[1-9]| [1-9]]. *)
Definition day_alts : list alternative :=
  [ two (between 51 51) (between 48 49) dec2;
    two (between 49 50) is_digit dec2;
    two (between 48 48) (between 49 57) dec2;
    one (between 49 57);
    two (between 32 32) (between 49 57) (fun _ b => digit b) ].

(** [%m] is [1[0-2]|0[1-9]|[1-9]]. *)
Definition month_alts : list alternative :=
  [ two (between 49 49) (between 48 50) dec2;
    two (between 48 48) (between 49 57) dec2;
    one (between 49 57) ].

(** Alternation with backtracking: the first alternative after which
    the rest of the pattern, [k], matches. *)
Fixpoint alt {R} (alts : list alternative) (k : N -> string -> option R)
    (s : string) : option R :=
  match alts with
  | [] => None
  | p :: alts' =>
      let tried :=
        match p s with
        | Some (v, r) => k v r
        | None => None
        end in
      match tried with
      | Some res => Some res
      | None => alt alts' k s
      end
  end.

(** The literal [-]. *)
Definition dash {R} (k : string -> option R) (s : string) : option R :=
  match s with
  | String "-" r => k r
  | _ => None
  end.

(** [%Y] is [\d\d\d\d]; nothing may follow it. *)
Definition year_end (s : string) : option N :=
  match s with
  | String a (String b (String c (String d EmptyString))) =>
      if is_digit a && is_digit b && is_digit c && is_digit d
      then Some (1000 * digit a + 100 * digit b + 10 * digit c + digit d)%N
      else None
  | _ => None
  end.

(** [datetime.strptime(s, "%d-%m-%Y")], [None] when it raises. *)
Definition strptime (s : string) : option datetime :=
  match
    alt day_alts (fun d => dash (
      alt month_alts (fun m => dash (fun r =>
        match year_end r with
        | Some y => Some (y, m, d)
        | None => None
        end)))) s
  with
  | Some (y, m, d) =>
      if valid_date y m d then Some (mk y m d 0 0 0 0) else None
  | None => None
  end.

End Datetime.

(* ================================================================== *)
(** ** [versioning_agent.py]                                            *)
(* ================================================================== *)

Module Versioning.

Import Py.

(** An item of [classification_results]; [clasificacion] and [fecha]
    may be missing. *)
Record classification := mk_classification {
  c_filename : string;
  c_clasificacion : option string;
  c_fecha : option string
}.

(** An item of [date_results]. *)
Record dates := mk_dates {
  d_filename : string;
  fecha_mas_antigua : option string;
  fecha_mas_reciente : option string
}.

(** [{"filename": fn, "fecha": fecha}]. *)
Record entry := mk_entry { filename : string; fecha : string }.

(** [{"filename": .., "fecha": .., "version": idx}]. *)
Record versioned := mk_versioned {
  v_filename : string;
  v_fecha : string;
  version : nat
}.

Definition _to_dt (s : string) : option Datetime.datetime :=
  Datetime.strptime s.

Definition or_empty (o : option string) : string :=
  match o with Some s => s | None => "" end.

Definition fechas_map (date_results : list dates)
    : dict (string * string) :=
  comprehension d_filename
    (fun d => (or_empty (fecha_mas_antigua d),
               or_empty (fecha_mas_reciente d)))
    date_results.

(** [cat = item.get("clasificacion", "otros")]. *)
Definition categoria_de (item : classification) : string :=
  match c_clasificacion item with Some c => c | None => "otros" end.

(** The dict appended for [item]: the extractor's oldest date is
    preferred to the item's own. *)
Definition entrada (fm_all : dict (string * string)) (item : classification)
    : entry :=
  let fn := c_filename item in
  let antigua :=
    match get fm_all fn with Some fm => fst fm | None => "" end in
  let fecha := str_or antigua (str_or (or_empty (c_fecha item)) "") in
  mk_entry fn fecha.

(** Step 1 of [assign_versions]: group by category. *)
Definition agrupar (classification_results : list classification)
    (date_results : list dates) : dict (list entry) :=
  let fm_all := fechas_map date_results in
  fold_left
    (fun grupos item =>
       setdefault_append grupos (categoria_de item) (entrada fm_all item))
    classification_results [].

Definition has_dt (s : string) : bool :=
  match _to_dt s with Some _ => true | None => false end.

Definition key_cmp : option Datetime.datetime * string ->
                     option Datetime.datetime * string -> comparison :=
  Cmp.pair_cmp (Cmp.option_cmp Datetime.compare) String.compare.

(** The numbering loop shared by both assigners (the dicts read by it
    only need a file name and a date). *)
Definition numerar {A} (fn fe : A -> string) (ordenados : list A)
    : list versioned :=
  map (fun p => mk_versioned (fn (snd p)) (fe (snd p)) (fst p))
      (enumerate 1 ordenados).

(** Body of the loop of step 2 of [assign_versions], for one category. *)
Definition ordenar (docs : list entry) : list entry :=
  let con_fecha := filter (fun d => has_dt (fecha d)) docs in
  let sin_fecha := filter (fun d => negb (has_dt (fecha d))) docs in
  let con_fecha :=
    sorted_by key_cmp (fun d => (_to_dt (fecha d), filename d)) con_fecha in
  let sin_fecha := sorted_by String.compare filename sin_fecha in
  con_fecha ++ sin_fecha.

Definition versionar (docs : list entry) : list versioned :=
  numerar filename fecha (ordenar docs).

Definition assign_versions (classification_results : list classification)
    (date_results : list dates) : dict (list versioned) :=
  let grupos := agrupar classification_results date_results in
  fold_left (fun versionado g => set versionado (fst g) (versionar (snd g)))
    grupos [].

(** *** [assign_versions_from_ocr] *)

(** An item of [ocr_results], read with [item.get("filename", "")] and
    [item.get("text", "")]. *)
Record ocr_item := mk_ocr { o_filename : string; o_text : string }.

(** An item of [documentos_procesados]. *)
Record processed := mk_processed {
  p_filename : string;
  categoria : string;
  p_fecha : string;
  p_text : string
}.

Definition NO_FECHA : string := "NO_FECHA".

(** [\d{1,2}]: two digits if the rest then matches, else one. *)
Definition digits12 {R} (k : N -> string -> option R) (s : string)
    : option R :=
  Datetime.alt
    [ Datetime.two Datetime.is_digit Datetime.is_digit Datetime.dec2;
      Datetime.one Datetime.is_digit ] k s.

(** [(\d{4})]: the four characters matched. *)
Definition digits4 (s : string) : option string :=
  match s with
  | String a (String b (String c (String d _))) =>
      if Datetime.is_digit a && Datetime.is_digit b
         && Datetime.is_digit c && Datetime.is_digit d
      then Some (String a (String b (String c (String d EmptyString))))
      else None
  | _ => None
  end.

(** The pattern [(\d{1,2})-(\d{1,2})-(\d{4})] at the start of [s]:
    [int(dia)], [int(mes)] and the year text. *)
Definition fecha_match_at (s : string) : option (N * N * string) :=
  digits12 (fun dia => Datetime.dash (
    digits12 (fun mes => Datetime.dash (fun r =>
      match digits4 r with
      | Some anio => Some (dia, mes, anio)
      | None => None
      end)))) s.

(** [re.search]: the leftmost position where the pattern matches. *)
Fixpoint fecha_search (s : string) : option (N * N * string) :=
  match fecha_match_at s with
  | Some g => Some g
  | None =>
      match s with
      | EmptyString => None
      | String _ s' => fecha_search s'
      end
  end.

(** [f"{n:02d}"] for [n < 100]. *)
Definition fmt02 (n : N) : string :=
  String (ascii_of_N (48 + n / 10))
    (String (ascii_of_N (48 + n mod 10)) EmptyString).

(** The date validation of the loop over [ocr_results]. *)
Definition fecha_final (fecha_texto : string) : string :=
  if String.eqb fecha_texto NO_FECHA then NO_FECHA
  else
    match fecha_search fecha_texto with
    | Some (dia, mes, anio) =>
        (fmt02 dia ++ "-" ++ fmt02 mes ++ "-" ++ anio)%string
    | None => fecha_texto
    end.

Definition parse_fecha (fecha_str : string) : Datetime.datetime :=
  match Datetime.strptime fecha_str with
  | Some d => d
  | None => Datetime.max
  end.

(** Grouping loop of [assign_versions_from_ocr]. *)
Definition agrupar_procesados (documentos_procesados : list processed)
    : dict (list processed) :=
  fold_left (fun grupos doc => setdefault_append grupos (categoria doc) doc)
    documentos_procesados [].

(** Body of the ordering loop of [assign_versions_from_ocr]. *)
Definition ordenar_ocr (docs : list processed) : list processed :=
  let con_fecha :=
    filter (fun d => negb (String.eqb (p_fecha d) NO_FECHA)) docs in
  let sin_fecha := filter (fun d => String.eqb (p_fecha d) NO_FECHA) docs in
  let con_fecha :=
    sorted_by Datetime.compare (fun d => parse_fecha (p_fecha d))
      con_fecha in
  let sin_fecha := sorted_by String.compare p_filename sin_fecha in
  con_fecha ++ sin_fecha.

Definition versionar_ocr (docs : list processed) : list versioned :=
  numerar p_filename p_fecha (ordenar_ocr docs).

Definition versionar_grupos (grupos : dict (list processed))
    : dict (list versioned) :=
  fold_left
    (fun versionado g => set versionado (fst g) (versionar_ocr (snd g)))
    grupos [].

Section FromOcr.
(** [classification_chain.invoke({"text": t}).strip().lower()] and
    [date_chain.invoke({"text": t}).strip()]; [None] when the call
    raises. *)
Variable classification_chain : string -> option string.
Variable date_chain : string -> option string.

(** One turn of the loop over [ocr_results]. *)
Definition procesar (item : ocr_item) : processed :=
  let filename := o_filename item in
  let text := o_text item in
  match classification_chain text with
  | Some categoria =>
      match date_chain text with
      | Some fecha_texto =>
          mk_processed filename categoria (fecha_final fecha_texto) text
      | None => mk_processed filename "otros" NO_FECHA text
      end
  | None => mk_processed filename "otros" NO_FECHA text
  end.

Definition assign_versions_from_ocr (ocr_results : list ocr_item)
    : dict (list versioned) :=
  let documentos_procesados := map procesar ocr_results in
  versionar_grupos (agrupar_procesados documentos_procesados).
End FromOcr.

End Versioning.

(* ================================================================== *)
(** ** [version_comparer_agent.py]                                      *)
(* ================================================================== *)

Module Comparer.

Import Py.
Import Versioning.

(** One item of ["cambios"]. *)
Record cambio := mk_cambio {
  titulo : string; antes : string; despues : string
}.

(** [{"cambios": [...], "resumen": "..."}] ([resumen] read with
    [.get("resumen", "")]). *)
Record diferencias := mk_diferencias {
  cambios : list cambio;
  resumen : string
}.

Definition fallback : diferencias := mk_diferencias [] "".

(** [{"de": {...}, "a": {...}, "diferencias": diffs}]. *)
Record comparacion := mk_comparacion {
  de : versioned;
  a : versioned;
  difs : diferencias
}.

(** [for i in range(len(l) - 1)]: the pairs [(l[i], l[i + 1])]. *)
Fixpoint consecutivos {A} (l : list A) : list (A * A) :=
  match l with
  | [] => []
  | x :: l' =>
      match l' with
      | [] => []
      | y :: _ => (x, y) :: consecutivos l'
      end
  end.

(** [{d.get("filename"): d.get("text") or "" for d in ocr_results}]. *)
Definition ocr_index (ocr_results : list ocr_item) : dict string :=
  comprehension o_filename o_text ocr_results.

Section Agent.
(** The agent's [max_chars_doc], and its model call followed by
    [json.loads]: [Some data] when the reply is a JSON object with a
    ["cambios"] key, [None] when the call or the parse raises or the
    reply is anything else. *)
Variable max_chars_doc : N.
Variable llm : string -> string -> option diferencias.

Definition _find_text (index : dict string) (filename : string)
    : string :=
  take max_chars_doc (str_or (get_default index filename "") "").

Definition _compare_texts (texto_anterior texto_nueva : string)
    : diferencias :=
  if negb (truthy texto_anterior) || negb (truthy texto_nueva)
  then fallback
  else
    match llm (take 8000 texto_anterior) (take 8000 texto_nueva) with
    | Some data => data
    | None => fallback
    end.

(** Body of the loop over the categories. *)
Definition comparar_categoria (index : dict string)
    (docs : list versioned) : list comparacion :=
  if (List.length docs <? 2)%nat then []
  else
    let docs_ordenados := sorted_by Nat.compare version docs in
    map (fun p =>
           let version_actual := fst p in
           let version_siguiente := snd p in
           let texto_actual :=
             _find_text index (v_filename version_actual) in
           let texto_siguiente :=
             _find_text index (v_filename version_siguiente) in
           mk_comparacion version_actual version_siguiente
             (_compare_texts texto_actual texto_siguiente))
        (consecutivos docs_ordenados).

Definition comparar_versiones (versioning_results : dict (list versioned))
    (ocr_results : list ocr_item) : dict (list comparacion) :=
  let index := ocr_index ocr_results in
  fold_left
    (fun resultados c =>
       set resultados (fst c) (comparar_categoria index (snd c)))
    versioning_results [].
End Agent.

End Comparer.

(* ================================================================== *)
(** ** [report_generator_agent.py]                                      *)
(* ================================================================== *)

Module Report.

Import Py.
Import Versioning.

(** A mapping from field name to extracted text. *)
Definition FieldRecord := dict string.

(** What [json.loads(raw)] makes of the model's reply. *)
Inductive reply (D : Type) :=
| NotJson                (* [json.loads] raises *)
| NotDict                (* valid JSON, not an object *)
| Dict (data : D).
Arguments NotJson {D}.
Arguments NotDict {D}.
Arguments Dict {D} data.

(** [_llm_json] after the model call: a dict, empty unless the reply
    parsed to one. *)
Definition _llm_json {V} (raw : reply (dict V)) : dict V :=
  match raw with
  | Dict data => data
  | NotJson | NotDict => []
  end.

Definition _ocr_text_by_filename (ocr_results : list ocr_item)
    (filename : string) : string :=
  get_default (comprehension o_filename o_text ocr_results) filename "".

Definition is_empty_value (value : string) : bool :=
  negb (truthy value) || negb (strip_truthy value).

Definition _get_empty_fields (data : FieldRecord) : list string :=
  map fst (filter (fun kv => is_empty_value (snd kv)) data).

Definition _parse_fecha (fecha_str : string) : Datetime.datetime :=
  match Datetime.strptime fecha_str with
  | Some d => d
  | None => Datetime.min
  end.

(** [sorted(escritura_docs, key=lambda x: self._parse_fecha(...),
    reverse=True)]. *)
Definition por_fecha_desc (escritura_docs : list versioned)
    : list versioned :=
  sorted_by_rev Datetime.compare (fun x => _parse_fecha (v_fecha x))
    escritura_docs.

(** [for field in empty_fields[:]]: fill what [doc_result] has. *)
Fixpoint llenar (doc_result : FieldRecord) (fields : list string)
    (result : FieldRecord) (empty_fields : list string)
    : FieldRecord * list string :=
  match fields with
  | [] => (result, empty_fields)
  | field :: fields' =>
      match get doc_result field with
      | Some v =>
          if truthy v && strip_truthy v
          then llenar doc_result fields' (set result field v)
                 (remove field empty_fields)
          else llenar doc_result fields' result empty_fields
      | None => llenar doc_result fields' result empty_fields
      end
  end.

Section Reconcile.
Variable ocr_results : list ocr_item.
(** What is extracted from one document's text. *)
Variable extraer : string -> FieldRecord.

(** [for doc in escritura_docs_sorted[1:]], entered with a non-empty
    [empty_fields]. *)
Fixpoint completar (docs : list versioned) (result : FieldRecord)
    (empty_fields : list string) : FieldRecord :=
  match docs with
  | [] => result
  | doc :: docs' =>
      match empty_fields with
      | [] => result                                   (* break *)
      | _ :: _ =>
          let doc_text :=
            _ocr_text_by_filename ocr_results (v_filename doc) in
          if negb (truthy doc_text)
          then completar docs' result empty_fields     (* continue *)
          else
            let doc_result := extraer doc_text in
            let filled :=
              llenar doc_result empty_fields result empty_fields in
            match snd filled with
            | [] => fst filled                         (* break *)
            | _ :: _ => completar docs' (fst filled) (snd filled)
            end
      end
  end.

(** From the extraction of the newest document to the return. *)
Definition con_prioridad (sin_texto : FieldRecord)
    (escritura_docs_sorted : list versioned) : FieldRecord :=
  match escritura_docs_sorted with
  | [] => sin_texto
  | latest_doc :: anteriores =>
      let latest_text :=
        _ocr_text_by_filename ocr_results (v_filename latest_doc) in
      if negb (truthy latest_text) then sin_texto
      else
        let result := extraer latest_text in
        let empty_fields := _get_empty_fields result in
        match empty_fields with
        | [] => result
        | _ :: _ => completar anteriores result empty_fields
        end
  end.
End Reconcile.

(** The header returned when there is nothing to read. *)
Definition encabezado_vacio : FieldRecord :=
  [("razon_social", ""); ("rut", ""); ("nombre_fantasia", "")].

Section Agent.
(** The model's replies to [SECCIONES_PROMPT] (section, text) and to
    [ENCABEZADO_PROMPT] (text), as parsed by [json.loads]. *)
Variable llm_secciones : string -> string -> reply FieldRecord.
Variable llm_encabezado : string -> reply (dict FieldRecord).

Definition _extract_section_from_text (seccion text : string)
    : FieldRecord :=
  _llm_json (llm_secciones seccion (take 16000 text)).

Definition _extract_section_with_date_priority (seccion : string)
    (versioning_results : dict (list versioned))
    (ocr_results : list ocr_item) : FieldRecord :=
  let escritura_docs := get_default versioning_results "escritura" [] in
  match escritura_docs with
  | [] => []
  | _ :: _ =>
      con_prioridad ocr_results (_extract_section_from_text seccion) []
        (por_fecha_desc escritura_docs)
  end.

(** The value under ["informesociedad"] of the returned dict. *)
Definition _extract_encabezado_with_date_priority
    (versioning_results : dict (list versioned))
    (ocr_results : list ocr_item) : FieldRecord :=
  let escritura_docs := get_default versioning_results "escritura" [] in
  match escritura_docs with
  | [] => encabezado_vacio
  | _ :: _ =>
      con_prioridad ocr_results
        (fun text =>
           get_default (_llm_json (llm_encabezado text))
             "informesociedad" [])
        encabezado_vacio (por_fecha_desc escritura_docs)
  end.
End Agent.

End Report.

(* ================================================================== *)
(** ** [state_graph.py]                                                 *)
(* ================================================================== *)

Module Graph.

Import Py.
Import Versioning.

(** Results of the collaborators that the pipeline only stores. *)
#[local] Unset Elimination Schemes.
Inductive json :=
| JString (s : string)
| JNumber (n : N)
| JArray (items : list json)
| JObject (members : list (string * json)).
#[local] Set Elimination Schemes.

(** The entries [paso_4_escritura_comparison] appends. *)
Record comparacion_simple := mk_simple {
  cs_categoria : string;
  cs_de : versioned;
  cs_a : versioned;
  cs_cambios : list Comparer.cambio;
  cs_resumen : string
}.

(** An entry of [comparison_results]: stage 4 stores the flat form,
    stage 7 what [comparar_versiones] returns. *)
Inductive comparison_entry :=
| Simple (c : comparacion_simple)
| Completa (c : Comparer.comparacion).

Record ProcessingState := mk_state {
  carpeta : string;
  folder_path : string;
  ocr_results : list ocr_item;
  entity_results : dict json;
  classification_results : list json;
  vectorization_results : dict json;
  versioning_results : dict (list versioned);
  comparison_results : dict (list comparison_entry);
  legalization_results : dict json;
  report_results : dict json;
  error : string
}.

(** [os.path.join(a, b)] for a relative, non-empty [a]. *)
Definition path_join (a b : string) : string :=
  match b with
  | String "/"%char _ => b
  | _ => (a ++ "/" ++ b)%string
  end.

Definition create_initial_state (carpeta : string) : ProcessingState :=
  mk_state carpeta (path_join "data" carpeta) [] [] [] [] [] [] [] [] "".

(** [{**state, key: value}], one function per key that is written. *)
Definition with_error (s : ProcessingState) (msg : string) :=
  mk_state (carpeta s) (folder_path s) (ocr_results s) (entity_results s)
    (classification_results s) (vectorization_results s)
    (versioning_results s) (comparison_results s) (legalization_results s)
    (report_results s) msg.

Definition with_ocr_results (s : ProcessingState) (v : list ocr_item) :=
  mk_state (carpeta s) (folder_path s) v (entity_results s)
    (classification_results s) (vectorization_results s)
    (versioning_results s) (comparison_results s) (legalization_results s)
    (report_results s) (error s).

Definition with_vectorization_results (s : ProcessingState)
    (v : dict json) :=
  mk_state (carpeta s) (folder_path s) (ocr_results s) (entity_results s)
    (classification_results s) v
    (versioning_results s) (comparison_results s) (legalization_results s)
    (report_results s) (error s).

Definition with_versioning_results (s : ProcessingState)
    (v : dict (list versioned)) :=
  mk_state (carpeta s) (folder_path s) (ocr_results s) (entity_results s)
    (classification_results s) (vectorization_results s)
    v (comparison_results s) (legalization_results s)
    (report_results s) (error s).

Definition with_comparison_results (s : ProcessingState)
    (v : dict (list comparison_entry)) :=
  mk_state (carpeta s) (folder_path s) (ocr_results s) (entity_results s)
    (classification_results s) (vectorization_results s)
    (versioning_results s) v (legalization_results s)
    (report_results s) (error s).

Definition with_legalization_results (s : ProcessingState)
    (v : dict json) :=
  mk_state (carpeta s) (folder_path s) (ocr_results s) (entity_results s)
    (classification_results s) (vectorization_results s)
    (versioning_results s) (comparison_results s) v
    (report_results s) (error s).

Definition with_report_results (s : ProcessingState) (v : dict json) :=
  mk_state (carpeta s) (folder_path s) (ocr_results s) (entity_results s)
    (classification_results s) (vectorization_results s)
    (versioning_results s) (comparison_results s) (legalization_results s)
    v (error s).

(** [not l] for a list or a dict. *)
Definition vacio {A} (l : list A) : bool :=
  match l with [] => true | _ :: _ => false end.

(** What a stage function does: it returns a state, or lets an
    exception escape. *)
Inductive result :=
| Ok (s : ProcessingState)
| Raised (e : string).

(** The collaborators of the stages.  [raises name] is the exception,
    if any, that the parts of stage [name] which are not modelled
    (building the agent, creating the directory, writing the result
    file, the service itself) raise in its body; [f"{e}"] is its
    text. *)
Record world := mk_world {
  analyze_folder : string -> list ocr_item;
  classification_chain : string -> option string;
  date_chain : string -> option string;
  should_extract_from_ocr : bool;
  llm_compare : string -> string -> option Comparer.diferencias;
  extract_from_documents :
    list ocr_item -> dict (list versioned) -> dict json;
  generate_complete_report :
    dict (list versioned) -> dict (list comparison_entry) -> dict json ->
    list ocr_item -> dict json -> dict json;
  raises : string -> option string
}.

Section Stages.
Variable w : world.

Definition paso_1_ocr (state : ProcessingState) : result :=
  match raises w "paso_1_ocr" with
  | None =>
      Ok (with_ocr_results state (analyze_folder w (folder_path state)))
  | Some e => Ok (with_error state ("Error en PASO 1: " ++ e)%string)
  end.

Definition paso_2_versioning (state : ProcessingState) : result :=
  if vacio (ocr_results state)
  then Ok (with_error state
             "No hay resultados de OCR para versionar documentos")
  else
    match raises w "paso_2_versioning" with
    | None =>
        Ok (with_versioning_results state
              (assign_versions_from_ocr (classification_chain w)
                 (date_chain w) (ocr_results state)))
    | Some e => Ok (with_error state ("Error en PASO 2: " ++ e)%string)
    end.

(** The default [VersionComparerAgent()] keeps 16000 characters. *)
Definition comparar_versiones :=
  Comparer.comparar_versiones 16000 (llm_compare w).

(** One turn of the loop of stage 4 over consecutive versions. *)
Definition comparar_par (state_ocr : list ocr_item)
    (index : dict string) (p : versioned * versioned)
    : list comparison_entry :=
  let version_actual := fst p in
  let version_siguiente := snd p in
  let texto_actual := get_default index (v_filename version_actual) "" in
  let texto_siguiente :=
    get_default index (v_filename version_siguiente) "" in
  if negb (truthy texto_actual) || negb (truthy texto_siguiente)
  then []                                              (* continue *)
  else
    let temp_versioning :=
      [("escritura", [version_actual; version_siguiente])] in
    let comparison := comparar_versiones temp_versioning state_ocr in
    match get comparison "escritura" with
    | Some (c :: _) =>
        [Simple (mk_simple "escritura" version_actual version_siguiente
                   (Comparer.cambios (Comparer.difs c))
                   (Comparer.resumen (Comparer.difs c)))]
    | _ => []
    end.

Definition paso_4_escritura_comparison (state : ProcessingState)
    : result :=
  if vacio (versioning_results state)
  then Ok (with_error state
             "No hay resultados de versionado para comparar")
  else
    let escrituras :=
      get_default (versioning_results state) "escritura" [] in
    if vacio escrituras then Ok (with_comparison_results state [])
    else
      match raises w "paso_4_escritura_comparison" with
      | None =>
          let escrituras_ordenadas :=
            sorted_by Nat.compare version escrituras in
          let index := Comparer.ocr_index (ocr_results state) in
          let comparison_results :=
            flat_map (comparar_par (ocr_results state) index)
              (Comparer.consecutivos escrituras_ordenadas) in
          Ok (with_comparison_results state
                [("escritura", comparison_results)])
      | Some e => Ok (with_error state ("Error en PASO 4: " ++ e)%string)
      end.

Definition paso_5_legalizacion (state : ProcessingState) : result :=
  if vacio (ocr_results state) || vacio (versioning_results state)
  then Ok state
  else
    match raises w "paso_5_legalizacion" with
    | None =>
        Ok (with_legalization_results state
              (extract_from_documents w (ocr_results state)
                 (versioning_results state)))
    | Some e =>
        Ok (with_error state
              ("Error en PASO 5 (legalización): " ++ e)%string)
    end.

Definition vec_results (state : ProcessingState) (modo : string)
    : dict json :=
  [ ("collection", JString ("legal_" ++ carpeta state)%string);
    ("documentos_procesados", JNumber 0);
    ("total_chunks", JNumber 0);
    ("modo", JString modo);
    ("mensaje",
     JString
       "Vectorización omitida - usando extracción directa desde OCR") ].

(** This stage has no [try]: what is raised in it escapes. *)
Definition paso_3_vectorization (state : ProcessingState) : result :=
  if vacio (ocr_results state) || vacio (versioning_results state)
  then Ok (with_error state
             "Faltan resultados (OCR o versionado) para vectorizar")
  else
    match raises w "paso_3_vectorization" with
    | None =>
        if should_extract_from_ocr w
        then Ok (with_vectorization_results state
                   (vec_results state "OCR_DIRECTO"))
        else Ok (with_vectorization_results state
                   (vec_results state "SIN_VECTORIZACION"))
    | Some e => Raised e
    end.

Definition paso_7_version_comparison (state : ProcessingState)
    : result :=
  if vacio (versioning_results state)
  then Ok (with_error state
             "No hay resultados de versionado para comparar")
  else
    match raises w "paso_7_version_comparison" with
    | None =>
        let comparison_results :=
          comparar_versiones (versioning_results state)
            (ocr_results state) in
        Ok (with_comparison_results state
              (map (fun c => (fst c, map Completa (snd c)))
                 comparison_results))
    | Some e => Ok (with_error state ("Error en PASO 7: " ++ e)%string)
    end.

Definition paso_8_report_generation (state : ProcessingState)
    : result :=
  if vacio (versioning_results state)
  then Ok (with_error state
             "No hay resultados de versionado para generar informe")
  else
    let has_data :=
      negb (vacio (versioning_results state))
      || negb (vacio (comparison_results state))
      || negb (vacio (legalization_results state))
      || negb (vacio (ocr_results state)) in
    if negb has_data
    then Ok (with_error state
               "No hay datos suficientes para generar el informe")
    else
      match raises w "paso_8_report_generation" with
      | None =>
          Ok (with_report_results state
                (generate_complete_report w (versioning_results state)
                   (comparison_results state)
                   (legalization_results state) (ocr_results state)
                   (vectorization_results state)))
      | Some e => Ok (with_error state ("Error en PASO 8: " ++ e)%string)
      end.

(** *** The graph *)

Definition END : string := "__end__".

Record StateGraph := mk_graph {
  nodes : dict (ProcessingState -> result);
  entry_point : string;
  edges : list (string * string)
}.

Definition build_processing_graph : StateGraph :=
  mk_graph
    [ ("paso_1_ocr", paso_1_ocr);
      ("paso_2_versioning", paso_2_versioning);
      ("paso_3_vectorization", paso_3_vectorization);
      ("paso_4_escritura_comparison", paso_4_escritura_comparison);
      ("paso_5_legalizacion", paso_5_legalizacion);
      ("paso_8_report_generation", paso_8_report_generation) ]
    "paso_1_ocr"
    [ ("paso_1_ocr", "paso_2_versioning");
      ("paso_2_versioning", "paso_3_vectorization");
      ("paso_3_vectorization", "paso_4_escritura_comparison");
      ("paso_4_escritura_comparison", "paso_5_legalizacion");
      ("paso_5_legalizacion", "paso_8_report_generation");
      ("paso_8_report_generation", END) ].

(** The channels of [StateGraph(ProcessingState)] are the keys that the
    [TypedDict] declares.  It declares no [legalization_results]: what
    the input or the dict returned by a node holds under that key is
    not written to the state of the graph, so the next node and the
    final state have no such key and [state.get("legalization_results",
    {})] reads [{}]. *)
Definition canales (state : ProcessingState) : ProcessingState :=
  with_legalization_results state [].

(** Running the compiled graph: the node's function is applied to the
    state of the graph, the keys of what it returns that are channels
    are written back, then the edge leaving the node is followed, until
    [END].  The run is recorded as the list of the nodes executed, each
    with the dict it returned. *)
Fixpoint run (g : StateGraph) (fuel : nat) (name : string)
    (state : ProcessingState) : list (string * result) :=
  match fuel with
  | O => []
  | S fuel' =>
      match get (nodes g) name with
      | None => []
      | Some f =>
          match f state with
          | Raised e => [(name, Raised e)]
          | Ok state' =>
              (name, Ok state') ::
              match get (edges g) name with
              | None => []
              | Some next =>
                  if String.eqb next END then []
                  else run g fuel' next (canales state')
              end
          end
      end
  end.

Definition invoke (g : StateGraph) (state : ProcessingState)
    : list (string * result) :=
  run g (List.length (nodes g)) (entry_point g) (canales state).

(** [DocumentOrchestrator.process_carpeta], up to the graph run. *)
Definition process_carpeta (carpeta : string) : list (string * result) :=
  invoke build_processing_graph (create_initial_state carpeta).
End Stages.

End Graph.

(* ================================================================== *)
(** ** What the specification says of a version chain                  *)
(* ================================================================== *)

Module Orden.

Import Py.
Import Versioning.

(** A document of a chain as the pair (file name, date text). *)
Definition doc := (string * string)%type.

Definition de_entry (e : entry) : doc := (filename e, fecha e).
Definition de_processed (d : processed) : doc := (p_filename d, p_fecha d).
Definition de_versioned (v : versioned) : doc := (v_filename v, v_fecha v).

(** The date parses against day-month-year. *)
Definition fechado (d : doc) : bool := has_dt (snd d).
Definition marcado (d : doc) : bool := String.eqb (snd d) NO_FECHA.

Definition fechados (l : list doc) : list doc := filter fechado l.
Definition sin_fecha (l : list doc) : list doc :=
  filter (fun d => negb (fechado d)) l.
Definition marcados (l : list doc) : list doc := filter marcado l.
Definition no_marcados (l : list doc) : list doc :=
  filter (fun d => negb (marcado d)) l.

(** Ascending by parsed date; by (parsed date, file name); by file name. *)
Definition le_fecha (x y : doc) : Prop :=
  Cmp.leb_of (Cmp.option_cmp Datetime.compare)
    (_to_dt (snd x)) (_to_dt (snd y)) = true.

Definition le_fecha_nombre (x y : doc) : Prop :=
  Cmp.leb_of key_cmp (_to_dt (snd x), fst x) (_to_dt (snd y), fst y) = true.

Definition le_nombre (x y : doc) : Prop :=
  Cmp.leb_of String.compare (fst x) (fst y) = true.

(** Ascending by the key of [assign_versions_from_ocr]. *)
Definition por_parse (x y : doc) : Prop :=
  Cmp.leb_of Datetime.compare (parse_fecha (snd x)) (parse_fecha (snd y))
  = true.

(** The items of category [cat], in input order. *)
Definition de_categoria {A} (key : A -> string) (cat : string)
    (l : list A) : list A :=
  filter (fun x => String.eqb cat (key x)) l.

(** Versions are exactly 1..N. *)
Definition contiguous (chain : list versioned) : Prop :=
  map version chain = seq 1 (List.length chain).

(** Every dated document precedes every undated one. *)
Definition fechados_primero (l : list doc) : Prop :=
  l = fechados l ++ sin_fecha l.

(** The chain invariant: versions 1..N, the dated documents first in
    ascending date order, the undated ones after them in alphabetical
    order of file name. *)
Definition cadena_ok (chain : list versioned) : Prop :=
  let l := map de_versioned chain in
  contiguous chain
  /\ fechados_primero l
  /\ StronglySorted le_fecha (fechados l)
  /\ StronglySorted le_nombre (sin_fecha l).

(** What [assign_versions_from_ocr] guarantees instead: the documents
    marked [NO_FECHA], not all the undated ones, are the alphabetical
    tail. *)
Definition cadena_ocr_ok (chain : list versioned) : Prop :=
  let l := map de_versioned chain in
  contiguous chain
  /\ fechados_primero l
  /\ StronglySorted le_fecha (fechados l)
  /\ l = no_marcados l ++ marcados l
  /\ StronglySorted le_nombre (marcados l).

End Orden.

(* ================================================================== *)
(** ** Concrete inputs                                                 *)
(* ================================================================== *)

Module Ejemplos.

Import Py.
Import Versioning.

(** Two deeds signed the same day, listed as b, a and as a, b. *)
Definition cc_escritura (_ : string) : option string := Some "escritura".
Definition dc_misma_fecha (_ : string) : option string := Some "10-01-2020".

Definition ocr_b_a : list ocr_item :=
  [mk_ocr "b.pdf" "texto b"; mk_ocr "a.pdf" "texto a"].
Definition ocr_a_b : list ocr_item :=
  [mk_ocr "a.pdf" "texto a"; mk_ocr "b.pdf" "texto b"].

Definition cadena_b_a : list versioned :=
  [mk_versioned "b.pdf" "10-01-2020" 1; mk_versioned "a.pdf" "10-01-2020" 2].
Definition cadena_a_b : list versioned :=
  [mk_versioned "a.pdf" "10-01-2020" 1; mk_versioned "b.pdf" "10-01-2020" 2].

(** The same two deeds as items of [classification_results]. *)
Definition clasificados_b_a : list classification :=
  [mk_classification "b.pdf" (Some "escritura") (Some "10-01-2020");
   mk_classification "a.pdf" (Some "escritura") (Some "10-01-2020")].

(** A deed whose date reply is a day that does not exist, and one for
    which the model found no date. *)
Definition dc_imposible (text : string) : option string :=
  if String.eqb text "texto z" then Some "Fecha: 31-2-2020"
  else Some "NO_FECHA".

Definition ocr_z_a : list ocr_item :=
  [mk_ocr "z.pdf" "texto z"; mk_ocr "a.pdf" "texto a"].

Definition cadena_z_a : list versioned :=
  [mk_versioned "z.pdf" "31-02-2020" 1; mk_versioned "a.pdf" "NO_FECHA" 2].

End Ejemplos.

(* ================================================================== *)
(** ** What the specification says of the comparisons                  *)
(* ================================================================== *)

Module Pares.

Import Py.
Import Versioning.

(** The text of one of the two documents is missing from the index. *)
Definition par_sin_texto (index : dict string) (x y : versioned) : bool :=
  negb (truthy (get_default index (v_filename x) ""))
  || negb (truthy (get_default index (v_filename y) "")).

(** No comparison is emitted for a pair with a missing text. *)
Definition omite_pares_sin_texto (index : dict string)
    (comps : list Comparer.comparacion) : Prop :=
  forall c, In c comps ->
    par_sin_texto index (Comparer.de c) (Comparer.a c) = false.

(** Three versions of a deed; the text of the second is missing. *)
Definition cadena_abc : list versioned :=
  [mk_versioned "a.pdf" "01-01-2020" 1;
   mk_versioned "b.pdf" "01-01-2021" 2;
   mk_versioned "c.pdf" "01-01-2022" 3].

Definition ocr_a_c : list ocr_item :=
  [mk_ocr "a.pdf" "texto a"; mk_ocr "b.pdf" ""; mk_ocr "c.pdf" "texto c"].

Definition ocr_abc : list ocr_item :=
  [mk_ocr "a.pdf" "texto a"; mk_ocr "b.pdf" "texto b";
   mk_ocr "c.pdf" "texto c"].

(** A diff collaborator that reports one change. *)
Definition llm_un_cambio (antes despues : string)
    : option Comparer.diferencias :=
  Some (Comparer.mk_diferencias
          [Comparer.mk_cambio "texto" antes despues] "un cambio").

End Pares.

(* ================================================================== *)
(** ** Concrete collaborators                                          *)
(* ================================================================== *)

Module Mundos.

Import Py.
Import Versioning.
Import Graph.

(** Every service answers and nothing raises: three deeds, of which the
    second has no text. *)
Definition tranquilo : world :=
  mk_world (fun _ => Pares.ocr_a_c)
    (fun _ => Some "escritura") (fun _ => Some "NO_FECHA") true
    Pares.llm_un_cambio (fun _ _ => []) (fun _ _ _ _ _ => [])
    (fun _ => None).

(** The same services, with a legalization that finds a base document
    and a report that hands back the legalization it is given. *)
Definition legaliza : world :=
  mk_world (fun _ => Pares.ocr_a_c)
    (fun _ => Some "escritura") (fun _ => Some "NO_FECHA") true
    Pares.llm_un_cambio
    (fun _ _ => [("documento_base", JString "c.pdf")])
    (fun _ _ legalization_results _ _ => legalization_results)
    (fun _ => None).

(** The OCR stage raises. *)
Definition ocr_caido : world :=
  mk_world (fun _ => []) (fun _ => None) (fun _ => None) true
    (fun _ _ => None) (fun _ _ => []) (fun _ _ _ _ _ => [])
    (fun name => if String.eqb name "paso_1_ocr" then Some "timeout"
                 else None).

End Mundos.

(* ================================================================== *)
(** ** What the specification says of reconciliation                   *)
(* ================================================================== *)

Module Reconciliacion.

Import Py.
Import Versioning.
Import Report.

(** The document has text in the OCR results. *)
Definition con_texto (ocr_results : list ocr_item) (doc : versioned) : bool :=
  truthy (_ocr_text_by_filename ocr_results (v_filename doc)).

Definition is_some {A} (o : option A) : bool :=
  match o with Some _ => true | None => false end.

(** The value a record yields for a field: one that is not blank. *)
Definition aporta (r : FieldRecord) (field : string) : option string :=
  match get r field with
  | Some v => if truthy v && strip_truthy v then Some v else None
  | None => None
  end.

Section Cadena.
Variable ocr_results : list ocr_item.
Variable extraer : string -> FieldRecord.

(** What a document of the chain yields for a field. *)
Definition aporte (doc : versioned) (field : string) : option string :=
  if con_texto ocr_results doc
  then aporta (extraer (_ocr_text_by_filename ocr_results (v_filename doc)))
         field
  else None.

(** The value of the newest document, among [docs] listed newest first,
    that yields one for the field. *)
Fixpoint primer_valor (field : string) (docs : list versioned)
    : option string :=
  match docs with
  | [] => None
  | doc :: docs' =>
      match aporte doc field with
      | Some v => Some v
      | None => primer_valor field docs'
      end
  end.

(** A field of the result is empty only if no document of the chain
    yields a value for it. *)
Definition vacio_solo_si_nadie_aporta (docs : list versioned)
    (r : FieldRecord) : Prop :=
  forall field,
    is_empty_value (get_default r field "") = true ->
    forall doc, In doc docs -> aporte doc field = None.

End Cadena.

(** Reconciliation [rec] gives the same result with and without a
    document that has no text. *)
Definition salta_sin_texto (ocr_results : list ocr_item)
    (rec : list versioned -> FieldRecord) (docs : list versioned) : Prop :=
  forall doc, In doc docs -> con_texto ocr_results doc = false ->
    rec docs =
    rec (filter (fun d => negb (String.eqb (v_filename d) (v_filename doc)))
           docs).

(** Every requested field is present with an empty value. *)
Definition todos_vacios (campos : list string) (r : FieldRecord) : Prop :=
  forall field, In field campos -> get r field = Some "".

(** Two deeds; the OCR of the newer one gave no text. *)
Definition cadena_vn : list versioned :=
  [mk_versioned "vieja.pdf" "01-01-2020" 1;
   mk_versioned "nueva.pdf" "01-01-2021" 2].

Definition ocr_solo_vieja : list ocr_item :=
  [mk_ocr "vieja.pdf" "texto viejo"; mk_ocr "nueva.pdf" ""].

Definition ocr_vn : list ocr_item :=
  [mk_ocr "vieja.pdf" "texto viejo"; mk_ocr "nueva.pdf" "texto nuevo"].

(** A model that finds the company data in any text. *)
Definition llm_encabezado_acme (_ : string) : reply (dict FieldRecord) :=
  Dict [("informesociedad",
         [("razon_social", "ACME SPA"); ("rut", "76.154.106-4");
          ("nombre_fantasia", "")])].

Definition llm_secciones_stgo (_ _ : string) : reply FieldRecord :=
  Dict [("domicilio", "Santiago"); ("fecha_termino", "")].

(** A model whose newest reply leaves the address empty. *)
Definition llm_secciones_hueco (_ text : string) : reply FieldRecord :=
  if String.eqb text "texto nuevo"
  then Dict [("domicilio", ""); ("tipo_de_sociedad", "SpA")]
  else Dict [("domicilio", "Santiago"); ("tipo_de_sociedad", "Ltda")].

(** A model whose replies never parse. *)
Definition llm_secciones_mal (_ _ : string) : reply FieldRecord := NotJson.
Definition llm_encabezado_mal (_ : string) : reply (dict FieldRecord) :=
  NotJson.

Definition campos_encabezado : list string :=
  ["razon_social"; "rut"; "nombre_fantasia"].

End Reconciliacion.

(* ================================================================== *)
(** ** What the specification says of the pipeline                     *)
(* ================================================================== *)

Module Tuberia.

Import Py.
Import Versioning.
Import Graph.

(** Every field but [error] is the same in both states. *)
Definition mismo_salvo_error (s s' : ProcessingState) : Prop :=
  carpeta s' = carpeta s
  /\ folder_path s' = folder_path s
  /\ ocr_results s' = ocr_results s
  /\ entity_results s' = entity_results s
  /\ classification_results s' = classification_results s
  /\ vectorization_results s' = vectorization_results s
  /\ versioning_results s' = versioning_results s
  /\ comparison_results s' = comparison_results s
  /\ legalization_results s' = legalization_results s
  /\ report_results s' = report_results s.

(** The seven stage functions of the module, by name (the sixth and
    seventh nodes of the graph are not registered; stage 7 is defined
    all the same). *)
Definition etapas (w : world) : dict (ProcessingState -> result) :=
  [ ("paso_1_ocr", paso_1_ocr w);
    ("paso_2_versioning", paso_2_versioning w);
    ("paso_3_vectorization", paso_3_vectorization w);
    ("paso_4_escritura_comparison", paso_4_escritura_comparison w);
    ("paso_5_legalizacion", paso_5_legalizacion w);
    ("paso_7_version_comparison", paso_7_version_comparison w);
    ("paso_8_report_generation", paso_8_report_generation w) ].

(** The stage finds one of the results it needs empty. *)
Definition precondicion_falla (name : string) (s : ProcessingState) : bool :=
  if String.eqb name "paso_2_versioning" then vacio (ocr_results s)
  else if String.eqb name "paso_3_vectorization"
  then vacio (ocr_results s) || vacio (versioning_results s)
  else if String.eqb name "paso_4_escritura_comparison"
  then vacio (versioning_results s)
  else if String.eqb name "paso_5_legalizacion"
  then vacio (ocr_results s) || vacio (versioning_results s)
  else if String.eqb name "paso_7_version_comparison"
  then vacio (versioning_results s)
  else if String.eqb name "paso_8_report_generation"
  then vacio (versioning_results s)
  else false.

(** The stage has a [try] block. *)
Definition tiene_try (name : string) : bool :=
  negb (String.eqb name "paso_3_vectorization").

(** The [try] block of the stage is entered and something raises in it
    (stage 4 leaves its block early when there is no deed). *)
Definition excepcion_capturada (w : world) (name : string)
    (s : ProcessingState) : bool :=
  negb (precondicion_falla name s)
  && tiene_try name
  && Reconciliacion.is_some (raises w name)
  && negb (String.eqb name "paso_4_escritura_comparison"
           && vacio (get_default (versioning_results s) "escritura" [])).

(** The states of a run that recorded no exception. *)
Definition error_de (r : result) : string :=
  match r with Ok s => error s | Raised _ => "" end.

(** Fail-fast: the stage that leaves a message in [error] is the last one
    executed, and no later entry of the run has another message. *)
Definition falla_rapido (hist : list (string * result)) : Prop :=
  forall i name r,
    nth_error hist i = Some (name, r) ->
    truthy (error_de r) = true ->
    List.length hist = S i
    /\ forall j name' r',
         i < j -> nth_error hist j = Some (name', r') ->
         error_de r' = error_de r.

Definition seis_etapas : list string :=
  [ "paso_1_ocr"; "paso_2_versioning"; "paso_3_vectorization";
    "paso_4_escritura_comparison"; "paso_5_legalizacion";
    "paso_8_report_generation" ].

Definition tres_etapas : list string :=
  [ "paso_1_ocr"; "paso_2_versioning"; "paso_3_vectorization" ].

(** A state that fails the check of stage 2, for the examples. *)
Definition sin_ocr : ProcessingState := create_initial_state "c1".

(** What the failure of stage [name], whose function is [f], does to
    [error] when it turns [s] into [s']: the failed check of stage 5
    returns the state as it came; any other failure leaves a message
    that is not empty and is the same whatever [error] held before. *)
Definition sobrescribe (name : string) (f : ProcessingState -> result)
    (s s' : ProcessingState) : Prop :=
  if String.eqb name "paso_5_legalizacion" && precondicion_falla name s
  then s' = s
  else truthy (error s') = true
       /\ forall previo,
            exists s'', f (with_error s previo) = Ok s''
                        /\ error s'' = error s'.

End Tuberia.

(* ================================================================== *)
(** ** Documents of one date                                           *)
(* ================================================================== *)

Module Empates.

Import Py.
Import Versioning.

(** The document carries a date text other than [NO_FECHA] that sorts
    as [k] in [assign_versions_from_ocr]. *)
Definition con_clave (k : Datetime.datetime) (d : Orden.doc) : bool :=
  negb (String.eqb (snd d) NO_FECHA)
  && match Datetime.compare (parse_fecha (snd d)) k with
     | Eq => true
     | _ => false
     end.

(** A year as the pattern reads it: four digits. *)
Definition cuatro_digitos (y : string) : Prop :=
  exists a b c d,
    y = String a (String b (String c (String d EmptyString)))
    /\ Datetime.is_digit a = true /\ Datetime.is_digit b = true
    /\ Datetime.is_digit c = true /\ Datetime.is_digit d = true.

(** The rest of the pattern of the validation, once the day is read. *)
Definition resto (dia : N) (s : string) : option (N * N * string) :=
  digits12 (fun mes => Datetime.dash (fun r =>
    match digits4 r with
    | Some anio => Some (dia, mes, anio)
    | None => None
    end)) s.

(** The same two deeds of one day, with a third one of the day before. *)
Definition ocr_b_a_c : list ocr_item :=
  [mk_ocr "b.pdf" "texto b"; mk_ocr "a.pdf" "texto a";
   mk_ocr "c.pdf" "texto c"].

Definition dc_dos_fechas (text : string) : option string :=
  if String.eqb text "texto c" then Some "09-01-2020"
  else Some "10-01-2020".

Definition clasificados_a_b : list classification :=
  [mk_classification "a.pdf" (Some "escritura") (Some "10-01-2020");
   mk_classification "b.pdf" (Some "escritura") (Some "10-01-2020")].

End Empates.

(* ================================================================== *)
(** ** [orchestrator.py]                                               *)
(* ================================================================== *)

Module Orquestador.

Import Py.
Import Versioning.
Import Graph.

(** The dict [process_carpeta] builds from the final state. *)
Record resultados := mk_resultados {
  r_carpeta : string;
  success : bool;
  r_ocr_results : list ocr_item;
  r_entity_results : dict json;
  r_vectorization_results : dict json;
  r_versioning_results : dict (list versioned);
  r_comparison_results : dict (list comparison_entry);
  r_legalization_results : dict json;
  r_report_results : dict json;
  r_error : string
}.

(** What [process_carpeta] returns: the results of the run, or the
    short dict of its [except] branch ([success] false, no OCR results,
    the message). *)
Inductive salida :=
| Resumen (r : resultados)
| Excepcion (carpeta : string) (error : string).

(** [self.processing_graph.invoke(initial_state)]: the state of the
    graph after the last node, which holds of what that node returned
    the keys that are channels, or the exception that escaped a node. *)
Definition final_state (hist : list (string * result))
    (initial_state : ProcessingState) : result :=
  match last (map snd hist) (Ok initial_state) with
  | Ok state => Ok (canales state)
  | Raised e => Raised e
  end.

Definition process_carpeta (w : world) (carpeta : string) : salida :=
  let initial_state := create_initial_state carpeta in
  match final_state (Graph.process_carpeta w carpeta) initial_state with
  | Ok final =>
      Resumen
        (mk_resultados carpeta (negb (truthy (error final)))
           (ocr_results final) (entity_results final)
           (vectorization_results final) (versioning_results final)
           (comparison_results final) (legalization_results final)
           (report_results final) (error final))
  | Raised e => Excepcion carpeta ("Error en orquestador: " ++ e)%string
  end.

(** The run reports success. *)
Definition exito (o : salida) : bool :=
  match o with
  | Resumen r => success r
  | Excepcion _ _ => false
  end.

(** Nothing raises in the body of stage [name]. *)
Definition sin_excepcion (w : world) (name : string) : bool :=
  match raises w name with None => true | Some _ => false end.

(** The deeds among the documents the run versions. *)
Definition escrituras (w : world) (carpeta : string) : list versioned :=
  get_default
    (assign_versions_from_ocr (classification_chain w) (date_chain w)
       (analyze_folder w (path_join "data" carpeta)))
    "escritura" [].

(** No stage of the run records an error: the documents are read, and
    nothing raises in a stage that enters its body (stage 4 leaves early
    when there is no deed). *)
Definition sin_fallos (w : world) (carpeta : string) : bool :=
  sin_excepcion w "paso_1_ocr"
  && negb (vacio (analyze_folder w (path_join "data" carpeta)))
  && sin_excepcion w "paso_2_versioning"
  && sin_excepcion w "paso_3_vectorization"
  && (vacio (escrituras w carpeta)
      || sin_excepcion w "paso_4_escritura_comparison")
  && sin_excepcion w "paso_5_legalizacion"
  && sin_excepcion w "paso_8_report_generation".

(** The fields a stage function may write besides [error]. *)
Definition escribe (name : string) (s s' : ProcessingState) : Prop :=
  carpeta s' = carpeta s
  /\ folder_path s' = folder_path s
  /\ entity_results s' = entity_results s
  /\ classification_results s' = classification_results s
  /\ (name <> "paso_1_ocr" -> ocr_results s' = ocr_results s)
  /\ (name <> "paso_2_versioning" ->
      versioning_results s' = versioning_results s)
  /\ (name <> "paso_3_vectorization" ->
      vectorization_results s' = vectorization_results s)
  /\ (name <> "paso_4_escritura_comparison" ->
      name <> "paso_7_version_comparison" ->
      comparison_results s' = comparison_results s)
  /\ (name <> "paso_5_legalizacion" ->
      legalization_results s' = legalization_results s)
  /\ (name <> "paso_8_report_generation" ->
      report_results s' = report_results s).

End Orquestador.


(* ================================================================== *)
(** ** [report_generator_agent.py]: the texts of the sections          *)
(* ================================================================== *)

Module Textos.

Import Py.
Import Versioning.
Import Report.

(** [max(l, key=key)] over the items after [best]: the first item with
    the greatest key. *)
Fixpoint max_by {A} (key : A -> nat) (best : A) (l : list A) : A :=
  match l with
  | [] => best
  | x :: l' =>
      if (key best <? key x)%nat then max_by key x l'
      else max_by key best l'
  end.

Definition _select_latest_by_category
    (versioning_results : dict (list versioned)) (category : string)
    : option versioned :=
  match get_default versioning_results category [] with
  | [] => None
  | d :: docs => Some (max_by version d docs)
  end.

(** [sep.join(parts)]. *)
Fixpoint join (sep : string) (parts : list string) : string :=
  match parts with
  | [] => ""
  | [p] => p
  | p :: parts' => (p ++ sep ++ join sep parts')%string
  end.

Definition nl : string := String (ascii_of_nat 10) EmptyString.

(** The separator between the texts of two documents. *)
Definition separador : string := (nl ++ nl ++ "---" ++ nl ++ nl)%string.

(** The dict [texts]. *)
Record textos := mk_textos {
  constitucion : string;
  capital_social : string;
  administracion : string;
  legalizacion : string
}.

(** [parts.append(_ocr_text_by_filename(ocr_results, d["filename"]))]
    under [if d:]. *)
Definition parte (ocr_results : list ocr_item) (d : option versioned)
    : list string :=
  match d with
  | Some d => [_ocr_text_by_filename ocr_results (v_filename d)]
  | None => []
  end.

(** [sep.join([p for p in parts if p])]. *)
Definition unir (parts : list string) : string :=
  join separador (filter truthy parts).

Definition _compose_text_for_sections (should_extract_from_ocr : bool)
    (versioning_results : dict (list versioned))
    (ocr_results : list ocr_item) : textos :=
  let latest cat := _select_latest_by_category versioning_results cat in
  let latest_const := latest "constitucion" in
  let latest_pub := latest "publicacion" in
  let latest_insc := latest "inscripcion" in
  let latest_mod := latest "modificacion" in
  let latest_ext := latest "extracto" in
  let texts :=
    if should_extract_from_ocr then
      let const_parts :=
        parte ocr_results latest_const ++ parte ocr_results latest_mod in
      let t_constitucion := unir const_parts in
      let capital_parts :=
        (if truthy t_constitucion then [t_constitucion] else [])
        ++ parte ocr_results latest_ext in
      let t_capital := unir capital_parts in
      let legal_parts :=
        parte ocr_results latest_const ++ parte ocr_results latest_mod
        ++ parte ocr_results latest_ext ++ parte ocr_results latest_pub
        ++ parte ocr_results latest_insc in
      mk_textos t_constitucion t_capital t_capital (unir legal_parts)
    else
      let t_constitucion :=
        match latest_const with
        | Some d => _ocr_text_by_filename ocr_results (v_filename d)
        | None => ""
        end in
      let parts :=
        parte ocr_results latest_const ++ parte ocr_results latest_pub
        ++ parte ocr_results latest_insc in
      mk_textos t_constitucion t_constitucion t_constitucion (unir parts)
  in
  mk_textos (constitucion texts)
    (if truthy (capital_social texts) then capital_social texts
     else legalizacion texts)
    (if truthy (administracion texts) then administracion texts
     else legalizacion texts)
    (legalizacion texts).

(** The last document of a chain. *)
Definition ultimo (chain : list versioned) : option versioned :=
  match chain with
  | [] => None
  | d :: docs => Some (last docs d)
  end.

End Textos.


(* ================================================================== *)
(** ** [legalization_agent.py]: the chunks of a document               *)
(* ================================================================== *)

Module Legalization.

Import Py.

(** A slice index brought into [0, len], as [s[i:j]] does. *)
Definition ajustar (len k : Z) : Z :=
  if (k <? 0)%Z then Z.max 0 (k + len) else Z.min k len.

(** [s[i:j]] for integers of either sign. *)
Definition slice (s : string) (i j : Z) : string :=
  let len := Z.of_nat (String.length s) in
  let desde := ajustar len i in
  let hasta := ajustar len j in
  substring (Z.to_nat desde) (Z.to_nat (hasta - desde)) s.

(** The [while] loop of [split_chunks], entered at [i]: [None] when
    [fuel] turns do not reach its end. *)
Fixpoint trocear (fuel : nat) (text : string) (max_len overlap i : Z)
    : option (list string) :=
  match fuel with
  | O => None
  | S fuel' =>
      if (i <? Z.of_nat (String.length text))%Z
      then
        match trocear fuel' text max_len overlap
                (i + (max_len - overlap)) with
        | Some chunks => Some (slice text i (i + max_len) :: chunks)
        | None => None
        end
      else Some []
  end.

Section Chunks.
(** [normalize_text]: white space and abbreviations are rewritten by
    regular expressions over Unicode text. *)
Variable normalize_text : string -> string.

Definition split_chunks (fuel : nat) (text : string)
    (max_len overlap : Z) : option (list string) :=
  let text := normalize_text text in
  if (Z.of_nat (String.length text) <=? max_len)%Z then Some [text]
  else trocear fuel text max_len overlap 0.
End Chunks.

(** What the chunks cover: each chunk but the last up to where the next
    one starts, then the last chunk. *)
Definition cubierto (max_len overlap : Z) (chunks : list string)
    : string :=
  (String.concat ""
     (map (fun c => slice c 0 (max_len - overlap)) (removelast chunks))
   ++ last chunks "")%string.

(** *** The powers of the newest deed *)

(** A row of the catalogue, once normalised. *)
Record LegalCode := mk_code {
  id : string;
  nombre : string;
  descripcion : string;
  palabras_claves : list string;
  grupo : option string;
  anclas_obligatorias : list string
}.

(** What [_verify_with_llm] returns, read as the loop reads it:
    [ver.get("otorgado") is True] and the texts with their defaults. *)
Record verificacion := mk_verificacion {
  ver_otorgado : bool;
  ver_actor : string;
  ver_limites : string;
  ver_restricciones : string;
  ver_evidencia : string;
  ver_confianza : string
}.

(** An item of ["poderes"]; its ["otorgado"] is always [True]. *)
Record poder := mk_poder {
  p_id : string;
  p_nombre : string;
  p_grupo : option string;
  p_actor : string;
  p_limites : string;
  p_restricciones : string;
  p_evidencia : string;
  p_confianza : string;
  p_archivo : string;
  p_fecha : string;
  p_version : nat
}.

(** The returned dict. *)
Record extraccion := mk_extraccion {
  documento_base : option Versioning.versioned;
  poderes : list poder
}.

Definition alta (p : poder) : bool := String.eqb (p_confianza p) "alta".

Section Agent.
(** [self.max_chars_doc]; [_candidate_chunks_for_code], which asks the
    retriever or cuts the text in chunks; [_rule_filter], the test on
    the anchors of the code; [_verify_with_llm]. *)
Variable max_chars_doc : N.
(** The similarity scores of the candidates, which the loop ignores. *)
Variable puntaje : Type.
Variable _candidate_chunks_for_code :
  LegalCode -> string -> string -> list (string * puntaje).
Variable _rule_filter : LegalCode -> string -> bool.
Variable _verify_with_llm : LegalCode -> string -> verificacion.

Definition candidato (code : LegalCode) (base_doc : Versioning.versioned)
    (ver : verificacion) : poder :=
  mk_poder (id code) (nombre code) (grupo code) (ver_actor ver)
    (ver_limites ver) (ver_restricciones ver) (ver_evidencia ver)
    (ver_confianza ver) (Versioning.v_filename base_doc)
    (Versioning.v_fecha base_doc) (Versioning.version base_doc).

(** [for chunk, score in candidates], entered with [best]. *)
Fixpoint elegir (code : LegalCode) (base_doc : Versioning.versioned)
    (candidates : list (string * puntaje)) (best : option poder)
    : option poder :=
  match candidates with
  | [] => best
  | (chunk, _) :: candidates' =>
      if negb (_rule_filter code chunk)
      then elegir code base_doc candidates' best        (* continue *)
      else
        let ver := _verify_with_llm code chunk in
        if ver_otorgado ver then
          let cand := candidato code base_doc ver in
          let best :=
            match best with
            | None => cand
            | Some b => if negb (alta b) && alta cand then cand else b
            end in
          if alta best then Some best                   (* break *)
          else elegir code base_doc candidates' (Some best)
        else elegir code base_doc candidates' best
  end.

Definition extract_from_documents (ocr_docs : list Versioning.ocr_item)
    (versioning_results : dict (list Versioning.versioned))
    (codes : list LegalCode) (only_latest_escritura : bool)
    : extraccion :=
  let txt_idx :=
    comprehension Versioning.o_filename
      (fun d => take max_chars_doc (Versioning.o_text d)) ocr_docs in
  match get_default versioning_results "escritura" [] with
  | [] => mk_extraccion None []
  | e :: es =>
      let escrituras_ordenadas :=
        sorted_by Nat.compare Versioning.version (e :: es) in
      let base_doc :=
        if only_latest_escritura then last escrituras_ordenadas e
        else hd e escrituras_ordenadas in
      let base_filename := Versioning.v_filename base_doc in
      let base_text := get_default txt_idx base_filename "" in
      if negb (strip_truthy base_text)
      then mk_extraccion (Some base_doc) []
      else
        let poderes :=
          flat_map
            (fun code =>
               let candidates :=
                 _candidate_chunks_for_code code base_text base_filename in
               match elegir code base_doc candidates None with
               | Some best => [best]
               | None => []
               end)
            codes in
        mk_extraccion (Some base_doc) poderes
  end.

(** The candidates that pass the rule filter and that the verifier
    reads as granted, as the items they would give. *)
Definition otorgados (code : LegalCode) (base_doc : Versioning.versioned)
    (candidates : list (string * puntaje)) : list poder :=
  map (fun c => candidato code base_doc (_verify_with_llm code (fst c)))
    (filter
       (fun c =>
          _rule_filter code (fst c)
          && ver_otorgado (_verify_with_llm code (fst c)))
       candidates).
End Agent.

End Legalization.


(* ================================================================== *)
(** ** [document_classifier_agent.py]                                  *)
(* ================================================================== *)

Module Classifier.

Import Py.
Import Versioning.

Definition CATS : list string :=
  ["constitucion"; "inscripcion"; "publicacion"; "cedula"; "otros"].

(** An item of [documents_with_dates]. *)
Record documento := mk_documento {
  doc_filename : string;
  doc_text : string;
  doc_fecha : string
}.

(** An item of the result: the keys [assign_versions] reads, and
    [is_modificacion]. *)
Record clasificado := mk_clasificado {
  item : classification;
  is_modificacion : bool
}.

Section Agent.
(** The reply of the model to the prompt, as text; [s.strip().lower()]
    and the search of the keywords of a modification, both over Unicode
    text. *)
Variable llm : string -> string.
Variable strip_lower : string -> string.
Variable _detect_modificacion : string -> bool.

Definition _llm_fallback (text : string) : string :=
  let raw := llm (take 16000 text) in
  let cand := strip_lower raw in
  if existsb (String.eqb cand) CATS then cand else "otros".

Definition classify_documents (documents_with_dates : list documento)
    : list clasificado :=
  map (fun d =>
         let text := doc_text d in
         let clasif := _llm_fallback text in
         let is_modif := _detect_modificacion text in
         mk_clasificado
           (mk_classification (doc_filename d) (Some clasif)
              (Some (doc_fecha d)))
           is_modif)
      documents_with_dates.
End Agent.

End Classifier.


(* ================================================================== *)
(** * Properties                                                        *)
(* ================================================================== *)

(** ** Orders *)

Module CmpFacts.

Import Cmp.

Section FromOrder.
Context {A : Type} (cmp : A -> A -> comparison) (O : Order cmp).

Lemma cmp_refl x : cmp x x = Eq.
Proof.
  pose proof (antisym O x x) as H.
  destruct (cmp x x); simpl in H; congruence.
Qed.

Lemma leb_total x y : leb_of cmp x y = true \/ leb_of cmp y x = true.
Proof.
  unfold leb_of. rewrite (antisym O y x).
  destruct (cmp x y); simpl; auto.
Qed.

Lemma leb_false_flip x y : leb_of cmp x y = false -> leb_of cmp y x = true.
Proof.
  intros H. destruct (leb_total x y); congruence.
Qed.

Lemma leb_trans x y z :
  leb_of cmp x y = true -> leb_of cmp y z = true -> leb_of cmp x z = true.
Proof.
  unfold leb_of. intros Hxy Hyz.
  destruct (cmp x y) eqn:Exy; try discriminate;
    destruct (cmp y z) eqn:Eyz; try discriminate.
  - apply (eq_iff O) in Exy. subst. now rewrite Eyz.
  - apply (eq_iff O) in Exy. subst. now rewrite Eyz.
  - apply (eq_iff O) in Eyz. subst. now rewrite Exy.
  - now rewrite (lt_trans O _ _ _ Exy Eyz).
Qed.

Lemma leb_antisym x y :
  leb_of cmp x y = true -> leb_of cmp y x = true -> x = y.
Proof.
  unfold leb_of. rewrite (antisym O y x).
  destruct (cmp x y) eqn:E; simpl; try discriminate.
  intros _ _. now apply (eq_iff O).
Qed.

End FromOrder.

Lemma N_order : Order N.compare.
Proof.
  constructor.
  - intros x y. apply N.compare_antisym.
  - intros x y. apply N.compare_eq_iff.
  - intros x y z. rewrite !N.compare_lt_iff. apply N.lt_trans.
Qed.

Lemma nat_order : Order Nat.compare.
Proof.
  constructor.
  - intros x y. apply Nat.compare_antisym.
  - intros x y. apply Nat.compare_eq_iff.
  - intros x y z. rewrite !Nat.compare_lt_iff. apply Nat.lt_trans.
Qed.

Lemma ascii_order : Order Ascii.compare.
Proof.
  constructor.
  - apply Ascii.compare_antisym.
  - apply Ascii.compare_eq_iff.
  - intros a b c. unfold Ascii.compare. apply (lt_trans N_order).
Qed.

Lemma string_order : Order String.compare.
Proof.
  constructor.
  - apply String.compare_antisym.
  - apply String.compare_eq_iff.
  - induction x as [|a x IH]; intros [|b y] [|c z]; simpl;
      try discriminate; auto.
    destruct (Ascii.compare a b) eqn:Eab; try discriminate;
      destruct (Ascii.compare b c) eqn:Ebc; try discriminate; intros Hxy Hyz.
    + apply Ascii.compare_eq_iff in Eab, Ebc. subst.
      rewrite (cmp_refl ascii_order). eauto.
    + apply Ascii.compare_eq_iff in Eab. subst. now rewrite Ebc.
    + apply Ascii.compare_eq_iff in Ebc. subst. now rewrite Eab.
    + now rewrite (lt_trans ascii_order _ _ _ Eab Ebc).
Qed.

Section Combinators.
Context {A B : Type} (ca : A -> A -> comparison) (cb : B -> B -> comparison).
Hypothesis OA : Order ca.
Hypothesis OB : Order cb.

Lemma pair_order : Order (pair_cmp ca cb).
Proof.
  constructor.
  - intros [a b] [a' b']. unfold pair_cmp. simpl.
    rewrite (antisym OA a a'), (antisym OB b b').
    now destruct (ca a' a).
  - intros [a b] [a' b']. unfold pair_cmp. simpl.
    destruct (ca a a') eqn:E; try discriminate.
    intros H. apply (eq_iff OA) in E. apply (eq_iff OB) in H. congruence.
  - intros [a b] [a' b'] [a'' b'']. unfold pair_cmp. simpl.
    destruct (ca a a') eqn:E1; try discriminate;
      destruct (ca a' a'') eqn:E2; try discriminate; intros H1 H2.
    + apply (eq_iff OA) in E1, E2. subst.
      rewrite (cmp_refl OA). eapply (lt_trans OB); eauto.
    + apply (eq_iff OA) in E1. subst. now rewrite E2.
    + apply (eq_iff OA) in E2. subst. now rewrite E1.
    + now rewrite (lt_trans OA _ _ _ E1 E2).
Qed.

Lemma option_order : Order (option_cmp ca).
Proof.
  constructor.
  - intros [x|] [y|]; simpl; auto. apply (antisym OA).
  - intros [x|] [y|]; simpl; try discriminate; auto.
    intros H. apply (eq_iff OA) in H. congruence.
  - intros [x|] [y|] [z|]; simpl; try discriminate; auto.
    apply (lt_trans OA).
Qed.

Lemma list_order : Order (list_cmp ca).
Proof.
  constructor.
  - induction x as [|a x IH]; intros [|b y]; simpl; auto.
    rewrite (antisym OA a b), IH. now destruct (ca b a).
  - induction x as [|a x IH]; intros [|b y]; simpl; try discriminate; auto.
    destruct (ca a b) eqn:E; try discriminate.
    intros H. apply (eq_iff OA) in E. apply IH in H. congruence.
  - induction x as [|a x IH]; intros [|b y] [|c z]; simpl;
      try discriminate; auto.
    destruct (ca a b) eqn:E1; try discriminate;
      destruct (ca b c) eqn:E2; try discriminate; intros H1 H2.
    + apply (eq_iff OA) in E1, E2. subst.
      rewrite (cmp_refl OA). eauto.
    + apply (eq_iff OA) in E1. subst. now rewrite E2.
    + apply (eq_iff OA) in E2. subst. now rewrite E1.
    + now rewrite (lt_trans OA _ _ _ E1 E2).
Qed.

End Combinators.

Lemma datetime_order : Order Datetime.compare.
Proof.
  pose proof (list_order N_order) as L.
  constructor; unfold Datetime.compare.
  - intros x y. apply (antisym L).
  - intros [y1 m1 d1 h1 i1 s1 u1] [y2 m2 d2 h2 i2 s2 u2] H.
    apply (eq_iff L) in H. unfold Datetime.state in H. simpl in H.
    congruence.
  - intros x y z. apply (lt_trans L).
Qed.

Lemma key_order : Order Versioning.key_cmp.
Proof.
  unfold Versioning.key_cmp.
  apply pair_order.
  - apply option_order, datetime_order.
  - apply string_order.
Qed.

End CmpFacts.

(** ** The stable sort *)

Module SortFacts.

Import Py.

Section Generic.
Context {A : Type} (le : A -> A -> bool).

Local Notation "'R'" := (fun x y : A => le x y = true).

Lemma insert_perm x l : Permutation (insert le x l) (x :: l).
Proof.
  induction l as [|y l IH]; simpl.
  - apply Permutation_refl.
  - destruct (le x y).
    + apply Permutation_refl.
    + eapply Permutation_trans.
      * apply perm_skip, IH.
      * apply perm_swap.
Qed.

Lemma sort_perm l : Permutation (sort le l) l.
Proof.
  induction l as [|x l IH]; simpl.
  - apply perm_nil.
  - eapply Permutation_trans.
    + apply insert_perm.
    + now apply perm_skip.
Qed.

Lemma sort_length l : List.length (sort le l) = List.length l.
Proof. apply Permutation_length, sort_perm. Qed.

Lemma sort_in x l : In x (sort le l) <-> In x l.
Proof.
  split; apply Permutation_in.
  - apply sort_perm.
  - apply Permutation_sym, sort_perm.
Qed.

Lemma sort_Forall (P : A -> Prop) l : Forall P l -> Forall P (sort le l).
Proof.
  rewrite !Forall_forall. intros H x Hx. apply H. now apply sort_in.
Qed.

Section Total.
Hypothesis total : forall x y, le x y = false -> le y x = true.
Hypothesis trans : forall x y z, R x y -> R y z -> R x z.

Lemma insert_sorted x l :
  StronglySorted R l -> StronglySorted R (insert le x l).
Proof.
  induction 1 as [|y l Hs IH Hy]; simpl.
  - repeat constructor.
  - destruct (le x y) eqn:E.
    + constructor.
      * now constructor.
      * constructor; [exact E|].
        eapply Forall_impl; [|exact Hy].
        intros z Hz. eapply trans; eauto.
    + constructor; [exact IH|].
      apply total in E.
      eapply Permutation_Forall.
      * apply Permutation_sym, insert_perm.
      * now constructor.
Qed.

Lemma sort_sorted l : StronglySorted R (sort le l).
Proof.
  induction l as [|x l IH]; simpl.
  - constructor.
  - now apply insert_sorted.
Qed.

(** With an antisymmetric order the sorted arrangement is unique. *)
Lemma sorted_perm_unique l1 l2 :
  (forall x y, In x l1 -> In y l1 -> R x y -> R y x -> x = y) ->
  StronglySorted R l1 -> StronglySorted R l2 -> Permutation l1 l2 ->
  l1 = l2.
Proof.
  intros anti H1. revert l2.
  induction H1 as [|x l1 Hs1 IH Hx]; intros l2 H2 HP.
  - apply Permutation_nil in HP. now subst.
  - destruct l2 as [|y l2].
    + apply Permutation_sym, Permutation_nil in HP. discriminate.
    + inversion H2 as [|? ? Hs2 Hy]; subst.
      assert (x = y) as ->.
      { assert (In x (y :: l2)) as Hin
          by (eapply Permutation_in; [exact HP | now left]).
        assert (In y (x :: l1)) as Hin'
          by (eapply Permutation_in;
              [apply Permutation_sym; exact HP | now left]).
        destruct Hin as [->|Hin]; auto.
        destruct Hin' as [->|Hin']; auto.
        rewrite Forall_forall in Hx, Hy.
        apply anti; simpl; auto. }
      f_equal. apply IH; auto.
      * intros a b Ha Hb. apply anti; simpl; auto.
      * eapply Permutation_cons_inv; eauto.
Qed.

Lemma sort_perm_invariant l1 l2 :
  (forall x y, In x l1 -> In y l1 -> R x y -> R y x -> x = y) ->
  Permutation l1 l2 -> sort le l1 = sort le l2.
Proof.
  intros anti HP.
  apply sorted_perm_unique; auto using sort_sorted.
  { intros x y Hx Hy. apply anti; now apply sort_in. }
  eapply Permutation_trans; [apply sort_perm|].
  eapply Permutation_trans; [exact HP|].
  apply Permutation_sym, sort_perm.
Qed.

End Total.
End Generic.

End SortFacts.

(** ** Lists *)

Module ListFacts.

Lemma filter_all {A} (p : A -> bool) l :
  Forall (fun x => p x = true) l -> filter p l = l.
Proof.
  induction 1 as [|x l Hx _ IH]; simpl; auto.
  now rewrite Hx, IH.
Qed.

Lemma filter_none {A} (p : A -> bool) l :
  Forall (fun x => p x = false) l -> filter p l = [].
Proof.
  induction 1 as [|x l Hx _ IH]; simpl; auto.
  now rewrite Hx.
Qed.

Lemma filter_app_left {A} (p : A -> bool) l1 l2 :
  Forall (fun x => p x = true) l1 -> Forall (fun x => p x = false) l2 ->
  filter p (l1 ++ l2) = l1.
Proof.
  intros H1 H2.
  now rewrite filter_app, (filter_all _ H1), (filter_none _ H2), app_nil_r.
Qed.

Lemma filter_app_right {A} (p : A -> bool) l1 l2 :
  Forall (fun x => p x = false) l1 -> Forall (fun x => p x = true) l2 ->
  filter p (l1 ++ l2) = l2.
Proof.
  intros H1 H2.
  now rewrite filter_app, (filter_none _ H1), (filter_all _ H2).
Qed.

Lemma filter_Forall {A} (p : A -> bool) l :
  Forall (fun x => p x = true) (filter p l).
Proof.
  apply Forall_forall. intros x Hx. now apply filter_In in Hx.
Qed.

Lemma filter_map_swap {A B} (f : A -> B) (p : B -> bool) l :
  filter p (map f l) = map f (filter (fun x => p (f x)) l).
Proof.
  induction l as [|x l IH]; simpl; auto.
  destruct (p (f x)); simpl; now rewrite IH.
Qed.

Lemma sorted_map {A B} (f : A -> B) (R : B -> B -> Prop) l :
  StronglySorted (fun x y => R (f x) (f y)) l -> StronglySorted R (map f l).
Proof.
  induction 1 as [|x l _ IH Hx]; simpl; constructor; auto.
  apply Forall_map. exact Hx.
Qed.

Lemma sorted_filter {A} (R : A -> A -> Prop) (p : A -> bool) l :
  StronglySorted R l -> StronglySorted R (filter p l).
Proof.
  induction 1 as [|x l _ IH Hx]; simpl; [constructor|].
  destruct (p x); auto.
  constructor; auto.
  rewrite Forall_forall in *. intros y Hy.
  apply Hx. now apply filter_In in Hy.
Qed.

Lemma sorted_weaken_on {A} (R R' : A -> A -> Prop) (P : A -> Prop) l :
  (forall x y, P x -> P y -> R x y -> R' x y) ->
  Forall P l -> StronglySorted R l -> StronglySorted R' l.
Proof.
  intros HR HP HS. induction HS as [|x l _ IH Hx]; constructor.
  - apply IH. now inversion HP.
  - inversion HP as [|? ? Px Pl]; subst.
    rewrite Forall_forall in *. intros y Hy. apply HR; auto.
Qed.

(** In a sorted list, elements that cannot follow the others come first. *)
Lemma sorted_split {A} (R : A -> A -> Prop) (p : A -> bool) l :
  (forall x y, p x = false -> p y = true -> ~ R x y) ->
  StronglySorted R l ->
  l = filter p l ++ filter (fun x => negb (p x)) l.
Proof.
  intros Hno. induction 1 as [|x l _ IH Hx]; simpl; auto.
  destruct (p x) eqn:E; simpl.
  - now rewrite <- IH.
  - assert (Forall (fun y => p y = false) l) as Hall.
    { rewrite Forall_forall in *. intros y Hy.
      destruct (p y) eqn:Ey; auto.
      exfalso. eapply Hno; eauto. }
    rewrite (filter_none _ Hall). simpl. f_equal.
    symmetry. apply filter_all.
    eapply Forall_impl; [|exact Hall].
    intros y Hy. simpl in Hy. now rewrite Hy.
Qed.

Lemma enumerate_fst {A} (l : list A) i :
  map fst (Py.enumerate i l) = seq i (List.length l).
Proof.
  revert i. induction l as [|x l IH]; intros i; simpl; auto.
  now rewrite IH.
Qed.

Lemma enumerate_snd {A} (l : list A) i : map snd (Py.enumerate i l) = l.
Proof.
  revert i. induction l as [|x l IH]; intros i; simpl; auto.
  now rewrite IH.
Qed.

(** Entries of a dict filled by assignments [d[key(x)] = val(x)]. *)
Lemma set_in {V} (d : Py.dict V) k v k' v' :
  In (k', v') (Py.set d k v) -> In (k', v') d \/ (k' = k /\ v' = v).
Proof.
  induction d as [|[k0 v0] d IH]; simpl.
  - intros [H|[]]. inversion H. auto.
  - destruct (String.eqb k k0) eqn:E; simpl.
    + apply String.eqb_eq in E. subst.
      intros [H|H]; [inversion H|]; auto.
    + intros [H|H]; auto. apply IH in H. tauto.
Qed.

Lemma fold_set_in {A V} (key : A -> string) (val : A -> V) l :
  forall (init : Py.dict V) k v,
  In (k, v) (fold_left (fun d x => Py.set d (key x) (val x)) l init) ->
  In (k, v) init \/ exists x, In x l /\ k = key x /\ v = val x.
Proof.
  induction l as [|x l IH]; simpl; intros init k v H; auto.
  apply IH in H. destruct H as [H|(y & Hy & Hk & Hv)].
  - apply set_in in H. destruct H as [H|[-> ->]]; auto.
    right. exists x. auto.
  - right. exists y. auto.
Qed.

End ListFacts.

(** ** Dates *)

Module DatetimeFacts.

Import Datetime.

Lemma days_in_month_le y m : (days_in_month y m <= 31)%N.
Proof.
  unfold days_in_month.
  repeat match goal with
         | |- context [match ?x with _ => _ end] => destruct x
         end; lia.
Qed.

(** What [strptime] returns is a calendar date at midnight. *)
Lemma strptime_inv s dt :
  strptime s = Some dt ->
  valid_date (year dt) (month dt) (day dt) = true
  /\ hour dt = 0%N /\ minute dt = 0%N /\ second dt = 0%N
  /\ microsecond dt = 0%N.
Proof.
  unfold strptime.
  destruct (alt day_alts _ s) as [[[y m] d]|]; [|discriminate].
  destruct (valid_date y m d) eqn:E; [|discriminate].
  intros H. inversion H; subst. simpl. auto.
Qed.

(** A parsed date is before [datetime.max]. *)
Lemma strptime_lt_max s dt :
  strptime s = Some dt -> compare dt max = Lt.
Proof.
  intros H. apply strptime_inv in H.
  destruct dt as [y m d h mi se us]. simpl in H.
  destruct H as (Hv & -> & -> & -> & ->).
  unfold valid_date in Hv.
  repeat (apply andb_true_iff in Hv; destruct Hv as [Hv ?]).
  repeat match goal with
         | H : (_ <=? _)%N = true |- _ => apply N.leb_le in H
         end.
  pose proof (days_in_month_le y m).
  unfold compare, max, state. simpl.
  destruct (N.compare_spec y 9999); try lia; auto.
  destruct (N.compare_spec m 12); try lia; auto.
  destruct (N.compare_spec d 31); try lia; auto.
Qed.

End DatetimeFacts.

(** ** The version assigners *)

Module VersioningFacts.

Import Py.
Import Versioning.
Import Orden.
Import ListFacts.

Section SortedBy.
Context {A K : Type} (cmp : K -> K -> comparison) (O : Cmp.Order cmp).
Variable key : A -> K.

Lemma sorted_by_sorted l :
  StronglySorted (fun x y => Cmp.leb_of cmp (key x) (key y) = true)
    (sorted_by cmp key l).
Proof.
  unfold sorted_by. apply SortFacts.sort_sorted.
  - intros x y. apply (CmpFacts.leb_false_flip O).
  - intros x y z. apply (CmpFacts.leb_trans O).
Qed.

Lemma sorted_by_perm l : Permutation (sorted_by cmp key l) l.
Proof. apply SortFacts.sort_perm. Qed.

Lemma sorted_by_Forall (P : A -> Prop) l :
  Forall P l -> Forall P (sorted_by cmp key l).
Proof. apply SortFacts.sort_Forall. Qed.

(** When the key identifies the element, the result does not depend on
    the order of the input. *)
Lemma sorted_by_reproducible l1 l2 :
  (forall x y, In x l1 -> In y l1 -> key x = key y -> x = y) ->
  Permutation l1 l2 -> sorted_by cmp key l1 = sorted_by cmp key l2.
Proof.
  intros inj HP. unfold sorted_by.
  apply SortFacts.sort_perm_invariant; auto.
  - intros x y. apply (CmpFacts.leb_false_flip O).
  - intros x y z. apply (CmpFacts.leb_trans O).
  - intros x y Hx Hy H1 H2. apply inj; auto.
    apply (CmpFacts.leb_antisym O); auto.
Qed.

End SortedBy.

Lemma pair_leb_fst {A B} (ca : A -> A -> comparison)
    (cb : B -> B -> comparison) p q :
  Cmp.leb_of (Cmp.pair_cmp ca cb) p q = true ->
  Cmp.leb_of ca (fst p) (fst q) = true.
Proof.
  unfold Cmp.leb_of, Cmp.pair_cmp. now destruct (ca (fst p) (fst q)).
Qed.

Section Numerar.
Context {A : Type} (fn fe : A -> string).

Lemma numerar_view l :
  map de_versioned (numerar fn fe l) = map (fun x => (fn x, fe x)) l.
Proof.
  unfold numerar. rewrite map_map. unfold de_versioned. simpl.
  rewrite <- (enumerate_snd l 1) at 2. now rewrite map_map.
Qed.

Lemma numerar_length l : List.length (numerar fn fe l) = List.length l.
Proof.
  unfold numerar. rewrite length_map.
  rewrite <- (enumerate_snd l 1) at 2. now rewrite length_map.
Qed.

Lemma numerar_contiguous l : contiguous (numerar fn fe l).
Proof.
  unfold contiguous. rewrite numerar_length.
  unfold numerar. rewrite map_map. simpl. apply enumerate_fst.
Qed.

End Numerar.

Lemma no_fecha_undated : has_dt NO_FECHA = false.
Proof. reflexivity. Qed.

(** [assign_versions]: one category. *)
Lemma versionar_view docs :
  map de_versioned (versionar docs) = map de_entry (ordenar docs).
Proof. unfold versionar. now rewrite numerar_view. Qed.

Lemma ordenar_fechados docs :
  fechados (map de_entry (ordenar docs)) =
  map de_entry
    (sorted_by key_cmp (fun d => (_to_dt (fecha d), filename d))
       (filter (fun d => has_dt (fecha d)) docs)).
Proof.
  unfold ordenar, fechados. rewrite map_app.
  apply filter_app_left; apply Forall_map, sorted_by_Forall.
  - apply filter_Forall.
  - eapply Forall_impl; [|apply filter_Forall].
    intros d Hd. simpl in *. unfold fechado. simpl.
    now apply negb_true_iff in Hd.
Qed.

Lemma ordenar_sin_fecha docs :
  sin_fecha (map de_entry (ordenar docs)) =
  map de_entry
    (sorted_by String.compare filename
       (filter (fun d => negb (has_dt (fecha d))) docs)).
Proof.
  unfold ordenar, sin_fecha. rewrite map_app.
  apply filter_app_right; apply Forall_map, sorted_by_Forall.
  - eapply Forall_impl; [|apply filter_Forall].
    intros d Hd. simpl in *. unfold fechado. simpl.
    now rewrite Hd.
  - apply filter_Forall.
Qed.

(** The dated documents of a chain of [assign_versions] are in ascending
    order of (parsed date, file name). *)
Lemma versionar_fecha_nombre docs :
  StronglySorted le_fecha_nombre
    (fechados (map de_versioned (versionar docs))).
Proof.
  rewrite versionar_view, ordenar_fechados.
  apply sorted_map. unfold le_fecha_nombre, de_entry. simpl.
  apply (sorted_by_sorted CmpFacts.key_order).
Qed.

Lemma versionar_ok docs : cadena_ok (versionar docs).
Proof.
  unfold cadena_ok. simpl. repeat split.
  - apply numerar_contiguous.
  - unfold fechados_primero.
    rewrite versionar_view, ordenar_fechados, ordenar_sin_fecha.
    unfold ordenar. now rewrite map_app.
  - eapply StronglySorted_ind with (P := StronglySorted le_fecha);
      [constructor| |apply versionar_fecha_nombre].
    intros x l _ IH Hx. constructor; auto.
    eapply Forall_impl; [|exact Hx].
    intros y Hy. unfold le_fecha, le_fecha_nombre, key_cmp in *.
    now apply pair_leb_fst in Hy.
  - rewrite versionar_view, ordenar_sin_fecha.
    apply sorted_map. unfold le_nombre, de_entry. simpl.
    apply (sorted_by_sorted CmpFacts.string_order).
Qed.

(** [assign_versions_from_ocr]: one category. *)
Lemma versionar_ocr_view docs :
  map de_versioned (versionar_ocr docs) = map de_processed (ordenar_ocr docs).
Proof. unfold versionar_ocr. now rewrite numerar_view. Qed.

Lemma con_fecha_sorted docs :
  StronglySorted por_parse
    (map de_processed
       (sorted_by Datetime.compare (fun d => parse_fecha (p_fecha d))
          (filter (fun d => negb (String.eqb (p_fecha d) NO_FECHA)) docs))).
Proof.
  apply sorted_map. unfold por_parse, de_processed. simpl.
  apply (sorted_by_sorted CmpFacts.datetime_order).
Qed.

(** An unparseable date sorts as [datetime.max], after every parsed one. *)
Lemma por_parse_order x y :
  fechado x = false -> fechado y = true -> ~ por_parse x y.
Proof.
  unfold fechado, has_dt, _to_dt, por_parse, parse_fecha, Cmp.leb_of.
  destruct (Datetime.strptime (snd x)); [discriminate|].
  destruct (Datetime.strptime (snd y)) eqn:E; [|discriminate].
  intros _ _. apply DatetimeFacts.strptime_lt_max in E.
  rewrite (Cmp.antisym CmpFacts.datetime_order), E. simpl. discriminate.
Qed.

Lemma por_parse_le_fecha x y :
  fechado x = true -> fechado y = true -> por_parse x y -> le_fecha x y.
Proof.
  unfold le_fecha, fechado, has_dt, _to_dt, por_parse, parse_fecha.
  destruct (Datetime.strptime (snd x)); [|discriminate].
  destruct (Datetime.strptime (snd y)); [|discriminate].
  intros _ _ H. exact H.
Qed.

Lemma ordenar_ocr_marcados docs :
  marcados (map de_processed (ordenar_ocr docs)) =
  map de_processed
    (sorted_by String.compare p_filename
       (filter (fun d => String.eqb (p_fecha d) NO_FECHA) docs)).
Proof.
  unfold ordenar_ocr, marcados. rewrite map_app.
  apply filter_app_right; apply Forall_map, sorted_by_Forall.
  - eapply Forall_impl; [|apply filter_Forall].
    intros d Hd. simpl in *. unfold marcado. simpl.
    now apply negb_true_iff in Hd.
  - apply filter_Forall.
Qed.

Lemma ordenar_ocr_no_marcados docs :
  no_marcados (map de_processed (ordenar_ocr docs)) =
  map de_processed
    (sorted_by Datetime.compare (fun d => parse_fecha (p_fecha d))
       (filter (fun d => negb (String.eqb (p_fecha d) NO_FECHA)) docs)).
Proof.
  unfold ordenar_ocr, no_marcados. rewrite map_app.
  apply filter_app_left; apply Forall_map, sorted_by_Forall.
  - apply filter_Forall.
  - eapply Forall_impl; [|apply filter_Forall].
    intros d Hd. simpl in *. unfold marcado. simpl. now rewrite Hd.
Qed.

Lemma marcado_undated l :
  Forall (fun d => marcado d = true) l ->
  fechados l = [] /\ sin_fecha l = l.
Proof.
  intros H. unfold fechados, sin_fecha. split.
  - apply filter_none. eapply Forall_impl; [|exact H].
    intros [n f]. unfold marcado, fechado. simpl.
    intros E. apply String.eqb_eq in E. subst. apply no_fecha_undated.
  - apply filter_all. eapply Forall_impl; [|exact H].
    intros [n f]. unfold marcado, fechado. simpl.
    intros E. apply String.eqb_eq in E. subst. reflexivity.
Qed.

Lemma versionar_ocr_ok docs : cadena_ocr_ok (versionar_ocr docs).
Proof.
  unfold cadena_ocr_ok. simpl.
  rewrite versionar_ocr_view.
  pose proof (ordenar_ocr_marcados docs) as Hm.
  pose proof (ordenar_ocr_no_marcados docs) as Hn.
  pose proof (con_fecha_sorted docs) as Hs.
  set (l := map de_processed (ordenar_ocr docs)) in *.
  assert (l = no_marcados l ++ marcados l) as Hl.
  { rewrite Hm, Hn. unfold l, ordenar_ocr. now rewrite map_app. }
  rewrite <- Hn in Hs.
  destruct (marcado_undated (l := marcados l)) as [Hf Hu].
  { apply filter_Forall. }
  assert (fechados l = fechados (no_marcados l)) as Hfl.
  { rewrite Hl at 1. unfold fechados in *.
    now rewrite filter_app, Hf, app_nil_r. }
  assert (sin_fecha l = sin_fecha (no_marcados l) ++ marcados l) as Hsl.
  { rewrite Hl at 1. unfold sin_fecha in *.
    now rewrite filter_app, Hu. }
  repeat split.
  - apply numerar_contiguous.
  - unfold fechados_primero. rewrite Hfl, Hsl, app_assoc.
    unfold fechados, sin_fecha.
    rewrite <- (sorted_split fechado por_parse_order Hs). exact Hl.
  - rewrite Hfl.
    apply sorted_weaken_on with (R := por_parse)
                                (P := fun d => fechado d = true).
    + apply por_parse_le_fecha.
    + apply filter_Forall.
    + now apply sorted_filter.
  - exact Hl.
  - rewrite Hm. apply sorted_map. unfold le_nombre, de_processed. simpl.
    apply (sorted_by_sorted CmpFacts.string_order).
Qed.

(** Every chain of the result is the numbering of one category. *)
Lemma assign_versions_chain cr dr cat chain :
  In (cat, chain) (assign_versions cr dr) ->
  exists docs, In (cat, docs) (agrupar cr dr) /\ chain = versionar docs.
Proof.
  unfold assign_versions. intros H.
  apply fold_set_in in H. destruct H as [[]|([c docs] & Hin & -> & ->)].
  exists docs. auto.
Qed.

Lemma assign_versions_from_ocr_chain cc dc ocr cat chain :
  In (cat, chain) (assign_versions_from_ocr cc dc ocr) ->
  exists docs,
    In (cat, docs) (agrupar_procesados (map (procesar cc dc) ocr))
    /\ chain = versionar_ocr docs.
Proof.
  unfold assign_versions_from_ocr, versionar_grupos. intros H.
  apply fold_set_in in H. destruct H as [[]|([c docs] & Hin & -> & ->)].
  exists docs. auto.
Qed.

(** *** Reproducibility of [assign_versions] *)

Lemma Permutation_filter {A} (p : A -> bool) l1 l2 :
  Permutation l1 l2 -> Permutation (filter p l1) (filter p l2).
Proof.
  induction 1 as [|x l1 l2 _ IH|x y l|l1 l2 l3 _ IH1 _ IH2]; simpl.
  - constructor.
  - destruct (p x); auto.
  - destruct (p x), (p y); auto using Permutation_refl, perm_swap.
  - eapply Permutation_trans; eauto.
Qed.

Lemma NoDup_map_eq {A B} (f : A -> B) l x y :
  NoDup (map f l) -> In x l -> In y l -> f x = f y -> x = y.
Proof.
  induction l as [|a l IH]; simpl; [tauto|].
  intros H Hx Hy E. inversion H as [|? ? Hn Hd]; subst.
  destruct Hx as [->|Hx], Hy as [->|Hy]; auto.
  - exfalso. apply Hn. rewrite E. now apply in_map.
  - exfalso. apply Hn. rewrite <- E. now apply in_map.
Qed.

(** With distinct file names, the chain of a category is a function of
    the set of its documents. *)
Lemma versionar_reproducible docs docs' :
  NoDup (map filename docs) -> Permutation docs docs' ->
  versionar docs = versionar docs'.
Proof.
  intros Hn HP. unfold versionar, ordenar. do 2 f_equal.
  - apply (sorted_by_reproducible CmpFacts.key_order).
    + intros x y Hx Hy E. apply filter_In in Hx, Hy.
      apply (NoDup_map_eq filename docs); try tauto. congruence.
    + now apply Permutation_filter.
  - apply (sorted_by_reproducible CmpFacts.string_order).
    + intros x y Hx Hy E. apply filter_In in Hx, Hy.
      apply (NoDup_map_eq filename docs); tauto.
    + now apply Permutation_filter.
Qed.

End VersioningFacts.

(** ** Grouping by category *)

Module GroupFacts.

Import Py.

Section Agrupar.
Context {A V : Type} (key : A -> string) (val : A -> V).

Local Notation "'paso'" :=
  (fun (g : dict (list V)) (x : A) => setdefault_append g (key x) (val x)).
Local Notation "'de_categoria'" := (Orden.de_categoria key).

Lemma get_setdefault_append (g : dict (list V)) k v cat :
  get (setdefault_append g k v) cat =
  if String.eqb cat k then Some (get_default g cat [] ++ [v]) else get g cat.
Proof.
  unfold get_default.
  induction g as [|[k0 l0] g IH]; simpl.
  - now destruct (String.eqb cat k).
  - destruct (String.eqb k k0) eqn:E; simpl.
    + apply String.eqb_eq in E. subst k0.
      now destruct (String.eqb cat k).
    + destruct (String.eqb cat k0) eqn:E0; auto.
      apply String.eqb_eq in E0. subst k0.
      rewrite String.eqb_sym, E. reflexivity.
Qed.

Lemma get_fold l : forall (g0 : dict (list V)) cat,
  get (fold_left paso l g0) cat =
  match get g0 cat, de_categoria cat l with
  | None, [] => None
  | o, xs => Some (match o with Some b => b | None => [] end ++ map val xs)
  end.
Proof.
  induction l as [|x l IH]; intros g0 cat; simpl.
  - destruct (get g0 cat); simpl; auto. now rewrite app_nil_r.
  - rewrite IH. rewrite get_setdefault_append.
    unfold get_default.
    unfold Orden.de_categoria. simpl.
    destruct (String.eqb cat (key x)); simpl.
    + rewrite <- app_assoc. simpl. now destruct (get g0 cat).
    + reflexivity.
Qed.

Lemma keys_setdefault_append (g : dict (list V)) k v :
  keys (setdefault_append g k v) =
  if existsb (String.eqb k) (keys g) then keys g else keys g ++ [k].
Proof.
  unfold keys. induction g as [|[k0 l0] g IH]; simpl; auto.
  destruct (String.eqb k k0) eqn:E; simpl; auto.
  rewrite IH. now destruct (existsb (String.eqb k) (map fst g)).
Qed.

Lemma keys_fold_NoDup l : forall g0 : dict (list V),
  NoDup (keys g0) -> NoDup (keys (fold_left paso l g0)).
Proof.
  induction l as [|x l IH]; intros g0 H; simpl; auto.
  apply IH. rewrite keys_setdefault_append.
  destruct (existsb (String.eqb (key x)) (keys g0)) eqn:E; auto.
  apply NoDup_app; auto.
  - repeat constructor. intros [].
  - intros k Hk [<-|[]].
    assert (existsb (String.eqb (key x)) (keys g0) = true); [|congruence].
    apply existsb_exists. exists (key x). split; auto.
    apply String.eqb_refl.
Qed.

Lemma values_setdefault_append (g : dict (list V)) k v :
  Permutation (List.concat (values (setdefault_append g k v)))
    (List.concat (values g) ++ [v]).
Proof.
  unfold values. induction g as [|[k0 l0] g IH]; simpl.
  - apply Permutation_refl.
  - destruct (String.eqb k k0); simpl.
    + rewrite <- !app_assoc. apply Permutation_app_head.
      apply Permutation_app_comm.
    + rewrite <- app_assoc. now apply Permutation_app_head.
Qed.

Lemma values_fold l : forall g0 : dict (list V),
  Permutation (List.concat (values (fold_left paso l g0)))
    (List.concat (values g0) ++ map val l).
Proof.
  induction l as [|x l IH]; intros g0; simpl.
  - rewrite app_nil_r. apply Permutation_refl.
  - eapply Permutation_trans; [apply IH|].
    eapply Permutation_trans.
    + apply Permutation_app_tail. apply values_setdefault_append.
    + rewrite <- app_assoc. apply Permutation_refl.
Qed.

(** Grouping a list from the empty dict: every item lands once, in the
    bucket of its own category, and buckets keep the input order. *)
Lemma agrupar_spec l :
  let g := fold_left paso l [] in
  NoDup (keys g)
  /\ Permutation (List.concat (values g)) (map val l)
  /\ (forall x, In x l ->
        get g (key x) = Some (map val (de_categoria (key x) l))
        /\ In (val x) (map val (de_categoria (key x) l)))
  /\ (forall cat bucket, get g cat = Some bucket ->
        bucket = map val (de_categoria cat l)).
Proof.
  simpl. repeat split.
  - apply keys_fold_NoDup. constructor.
  - apply (values_fold l []).
  - rewrite get_fold. simpl.
    assert (In x (de_categoria (key x) l)) as Hin.
    { apply filter_In. split; auto. apply String.eqb_refl. }
    destruct (de_categoria (key x) l); [destruct Hin|reflexivity].
  - apply in_map. apply filter_In. split; auto. apply String.eqb_refl.
  - intros cat bucket. rewrite get_fold. simpl.
    destruct (de_categoria cat l); [discriminate|].
    intros H. now inversion H.
Qed.

End Agrupar.

End GroupFacts.

(** ** The comparer *)

Module ComparerFacts.

Import Py.
Import Versioning.
Import Comparer.

Lemma consecutivos_length {A} (l : list A) :
  List.length (consecutivos l) = List.length l - 1.
Proof.
  induction l as [|x l IH]; simpl; auto.
  destruct l as [|y l]; simpl in *; auto.
  rewrite IH. lia.
Qed.

Lemma consecutivos_nth {A} (l : list A) : forall i,
  nth_error (consecutivos l) i =
  match nth_error l i, nth_error l (S i) with
  | Some x, Some y => Some (x, y)
  | _, _ => None
  end.
Proof.
  induction l as [|x l IH]; intros i.
  - now destruct i.
  - destruct l as [|y l].
    + destruct i as [|[|i]]; reflexivity.
    + destruct i as [|i].
      * reflexivity.
      * change (nth_error (consecutivos (x :: y :: l)) (S i))
          with (nth_error (consecutivos (y :: l)) i).
        rewrite IH. reflexivity.
Qed.

Lemma get_set {V} (d : dict V) k v k' :
  get (set d k v) k' = if String.eqb k' k then Some v else get d k'.
Proof.
  induction d as [|[k0 v0] d IH]; simpl.
  - reflexivity.
  - destruct (String.eqb k k0) eqn:E; simpl.
    + apply String.eqb_eq in E. subst k0.
      now destruct (String.eqb k' k).
    + rewrite IH. destruct (String.eqb k' k0) eqn:E0; auto.
      apply String.eqb_eq in E0. subst k0.
      now rewrite String.eqb_sym, E.
Qed.

Lemma get_None_not_in {V} (d : dict V) k :
  ~ In k (keys d) -> get d k = None.
Proof.
  unfold keys. induction d as [|[k0 v0] d IH]; simpl; auto.
  intros H. destruct (String.eqb k k0) eqn:E.
  - apply String.eqb_eq in E. subst. tauto.
  - apply IH. tauto.
Qed.

(** A dict built by one assignment per entry of another dict. *)
Lemma get_fold_set {V W} (f : V -> W) (d : dict V) :
  forall (init : dict W) k,
  NoDup (keys d) ->
  get (fold_left (fun r c => set r (fst c) (f (snd c))) d init) k =
  match get d k with
  | Some v => Some (f v)
  | None => get init k
  end.
Proof.
  induction d as [|[k0 v0] d IH]; intros init k Hn; simpl; auto.
  inversion Hn as [|? ? Hk Hd]; subst.
  rewrite IH by assumption. rewrite get_set.
  destruct (String.eqb k k0) eqn:E.
  - apply String.eqb_eq in E. subst k0.
    now rewrite (get_None_not_in _ _ Hk).
  - reflexivity.
Qed.

Lemma get_In {V} (d : dict V) k v :
  NoDup (keys d) -> In (k, v) d -> get d k = Some v.
Proof.
  unfold keys. induction d as [|[k0 v0] d IH]; simpl; [tauto|].
  intros Hn [H|H]; inversion Hn as [|? ? Hk Hd]; subst.
  - inversion H; subst. now rewrite String.eqb_refl.
  - destruct (String.eqb k k0) eqn:E; auto.
    apply String.eqb_eq in E. subst k0.
    exfalso. apply Hk. change k with (fst (k, v)). now apply in_map.
Qed.

Lemma seq_sorted start len :
  StronglySorted (fun a b => Cmp.leb_of Nat.compare a b = true)
    (seq start len).
Proof.
  revert start. induction len as [|len IH]; intros start; simpl.
  - constructor.
  - constructor; auto.
    apply Forall_forall. intros y Hy. apply in_seq in Hy.
    unfold Cmp.leb_of.
    destruct (Nat.compare_spec start y); auto. lia.
Qed.

(** Sorting a chain by version lists the versions 1..N in order. *)
Lemma sorted_versions docs :
  Permutation (map version docs) (seq 1 (List.length docs)) ->
  map version (sorted_by Nat.compare version docs)
  = seq 1 (List.length docs).
Proof.
  intros HP.
  apply SortFacts.sorted_perm_unique
    with (le := fun a b => Cmp.leb_of Nat.compare a b).
  - intros x y _ _. apply (CmpFacts.leb_antisym CmpFacts.nat_order).
  - apply ListFacts.sorted_map.
    apply (VersioningFacts.sorted_by_sorted CmpFacts.nat_order).
  - apply seq_sorted.
  - eapply Permutation_trans; [|exact HP].
    apply Permutation_map. apply VersioningFacts.sorted_by_perm.
Qed.

Section Agent.
Variable max_chars_doc : N.
Variable llm : string -> string -> option diferencias.

Lemma comparar_categoria_short index docs :
  List.length docs < 2 -> comparar_categoria max_chars_doc llm index docs = [].
Proof.
  intros H. unfold comparar_categoria.
  apply Nat.ltb_lt in H. now rewrite H.
Qed.

Lemma comparar_categoria_length index docs :
  List.length (comparar_categoria max_chars_doc llm index docs)
  = List.length docs - 1.
Proof.
  unfold comparar_categoria.
  destruct (List.length docs <? 2)%nat eqn:E.
  - apply Nat.ltb_lt in E. simpl. lia.
  - rewrite length_map, consecutivos_length.
    unfold sorted_by. now rewrite SortFacts.sort_length.
Qed.

Lemma comparar_categoria_nth index docs i :
  2 <= List.length docs ->
  Permutation (map version docs) (seq 1 (List.length docs)) ->
  i < List.length docs - 1 ->
  exists c,
    nth_error (comparar_categoria max_chars_doc llm index docs) i = Some c
    /\ version (de c) = S i /\ version (a c) = S (S i).
Proof.
  intros H2 HP Hi. unfold comparar_categoria.
  assert ((List.length docs <? 2)%nat = false) as -> by (apply Nat.ltb_ge; lia).
  pose proof (sorted_versions docs HP) as Hv.
  set (s := sorted_by Nat.compare version docs) in *.
  rewrite nth_error_map, consecutivos_nth.
  assert (nth_error (map version s) i = Some (S i)) as Hx.
  { rewrite Hv, nth_error_seq.
    assert ((i <? List.length docs)%nat = true) as ->
        by (apply Nat.ltb_lt; lia).
    reflexivity. }
  assert (nth_error (map version s) (S i) = Some (S (S i))) as Hy.
  { rewrite Hv, nth_error_seq.
    assert ((S i <? List.length docs)%nat = true) as ->
        by (apply Nat.ltb_lt; lia).
    reflexivity. }
  rewrite nth_error_map in Hx, Hy.
  destruct (nth_error s i) as [x|]; [|discriminate].
  destruct (nth_error s (S i)) as [y|]; [|discriminate].
  simpl in *. eexists. split; [reflexivity|]. simpl.
  split; congruence.
Qed.

(** The two ends of a comparison are documents of the chain, and the
    differences are those of their two texts. *)
Lemma comparar_categoria_In index docs c :
  In c (comparar_categoria max_chars_doc llm index docs) ->
  In (de c) docs /\ In (a c) docs
  /\ difs c
     = _compare_texts llm
         (_find_text max_chars_doc index (v_filename (de c)))
         (_find_text max_chars_doc index (v_filename (a c))).
Proof.
  unfold comparar_categoria.
  destruct (List.length docs <? 2)%nat; [intros []|].
  intros Hin. apply in_map_iff in Hin.
  destruct Hin as ([x y] & <- & Hp). simpl.
  apply In_nth_error in Hp. destruct Hp as (i & Hp).
  rewrite consecutivos_nth in Hp.
  destruct (nth_error (sorted_by Nat.compare version docs) i)
    as [x'|] eqn:Ex; [|discriminate].
  destruct (nth_error (sorted_by Nat.compare version docs) (S i))
    as [y'|] eqn:Ey; [|discriminate].
  injection Hp as -> ->.
  apply nth_error_In in Ex, Ey.
  repeat split; auto;
    eapply Permutation_in;
    try apply (VersioningFacts.sorted_by_perm Nat.compare version docs);
    assumption.
Qed.

(** A pair with a missing text is emitted all the same, with no change
    and no summary. *)
Lemma comparar_categoria_sin_texto index docs c :
  In c (comparar_categoria max_chars_doc llm index docs) ->
  truthy (_find_text max_chars_doc index (v_filename (de c))) = false
  \/ truthy (_find_text max_chars_doc index (v_filename (a c))) = false ->
  difs c = fallback.
Proof.
  unfold comparar_categoria.
  destruct (List.length docs <? 2)%nat; [intros []|].
  intros Hin. apply in_map_iff in Hin.
  destruct Hin as ([x y] & <- & _). simpl.
  unfold _compare_texts.
  intros [H|H]; rewrite H; simpl; auto.
  now rewrite orb_true_r.
Qed.

End Agent.

End ComparerFacts.

(** ** Stage 4 and its pairs *)

Module Paso4Facts.

Import Py.
Import Versioning.
Import Graph.
Import Pares.

Lemma flat_map_filter {A B} (f : A -> bool) (g : A -> list B) l :
  (forall x, f x = false -> g x = []) ->
  flat_map g l = flat_map g (filter f l).
Proof.
  intros H. induction l as [|x l IH]; simpl; auto.
  destruct (f x) eqn:E; simpl.
  - now rewrite IH.
  - now rewrite (H x E).
Qed.

Section Par.
Variable w : world.
Variable state_ocr : list ocr_item.
Variable index : dict string.

Lemma comparar_par_skip p :
  par_sin_texto index (fst p) (snd p) = true ->
  comparar_par w state_ocr index p = [].
Proof.
  unfold par_sin_texto, comparar_par. intros H. now rewrite H.
Qed.

Lemma comparar_par_emit p :
  par_sin_texto index (fst p) (snd p) = false ->
  exists e,
    comparar_par w state_ocr index p = [Simple e]
    /\ cs_de e = fst p /\ cs_a e = snd p.
Proof.
  unfold par_sin_texto, comparar_par. intros H. rewrite H.
  unfold comparar_versiones, Comparer.comparar_versiones. simpl.
  unfold Comparer.comparar_categoria. simpl.
  unfold sorted_by. simpl.
  destruct (Cmp.leb_of Nat.compare (version (fst p)) (version (snd p)));
    simpl; eexists; (split; [reflexivity|]); simpl; auto.
Qed.

End Par.

End Paso4Facts.

(** ** Reconciliation *)

Module ReportFacts.

Import Py.
Import Versioning.
Import Report.
Import Reconciliacion.

Lemma llenar_step doc_result field fields result empty_fields :
  llenar doc_result (field :: fields) result empty_fields =
  match aporta doc_result field with
  | Some v =>
      llenar doc_result fields (set result field v)
        (remove field empty_fields)
  | None => llenar doc_result fields result empty_fields
  end.
Proof.
  simpl. unfold aporta.
  destruct (get doc_result field) as [v|]; auto.
  now destruct (truthy v && strip_truthy v).
Qed.

(** The record after the filling loop. *)
Lemma llenar_get doc_result fields : forall result empty_fields g,
  get (fst (llenar doc_result fields result empty_fields)) g =
  if existsb (String.eqb g) fields && is_some (aporta doc_result g)
  then aporta doc_result g
  else get result g.
Proof.
  induction fields as [|field fields IH]; intros result ef g.
  - reflexivity.
  - rewrite llenar_step.
    destruct (aporta doc_result field) as [v|] eqn:E; rewrite IH; simpl.
    + rewrite ComparerFacts.get_set.
      destruct (String.eqb g field) eqn:Eg; simpl.
      * apply String.eqb_eq in Eg. subst g. rewrite E. simpl.
        now destruct (existsb (String.eqb field) fields).
      * reflexivity.
    + destruct (String.eqb g field) eqn:Eg; simpl; auto.
      apply String.eqb_eq in Eg. subst g. rewrite E. simpl.
      now rewrite andb_false_r.
Qed.

Lemma remove_filter x l :
  NoDup l -> remove x l = filter (fun y => negb (String.eqb y x)) l.
Proof.
  induction l as [|y l IH]; simpl; auto.
  intros H. inversion H as [|? ? Hy Hl]; subst.
  rewrite String.eqb_sym.
  destruct (String.eqb y x) eqn:E; simpl.
  - apply String.eqb_eq in E. subst y.
    symmetry. apply ListFacts.filter_all.
    apply Forall_forall. intros z Hz.
    destruct (String.eqb z x) eqn:Ez; auto.
    apply String.eqb_eq in Ez. subst. contradiction.
  - now rewrite IH.
Qed.

Lemma NoDup_filter {A} (p : A -> bool) l : NoDup l -> NoDup (filter p l).
Proof.
  induction 1 as [|x l Hx _ IH]; simpl; [constructor|].
  destruct (p x); auto. constructor; auto.
  intros H. apply filter_In in H. tauto.
Qed.

Lemma filter_filter {A} (p q : A -> bool) l :
  filter p (filter q l) = filter (fun x => q x && p x) l.
Proof.
  induction l as [|x l IH]; simpl; auto.
  destruct (q x); simpl; [destruct (p x)|]; now rewrite IH.
Qed.

(** The fields still empty after the filling loop. *)
Lemma llenar_empty doc_result fields : forall result empty_fields,
  NoDup empty_fields ->
  snd (llenar doc_result fields result empty_fields) =
  filter (fun f => negb (existsb (String.eqb f) fields
                         && is_some (aporta doc_result f)))
    empty_fields.
Proof.
  induction fields as [|field fields IH]; intros result ef Hn.
  - simpl. symmetry. apply ListFacts.filter_all.
    apply Forall_forall. auto.
  - rewrite llenar_step.
    destruct (aporta doc_result field) as [v|] eqn:E.
    + rewrite IH, remove_filter, filter_filter; auto.
      * apply filter_ext. intros f. simpl.
        destruct (String.eqb f field) eqn:Ef; simpl; auto.
        apply String.eqb_eq in Ef. subst f. now rewrite E.
      * rewrite remove_filter; auto. now apply NoDup_filter.
    + rewrite IH; auto.
      apply filter_ext. intros f. simpl.
      destruct (String.eqb f field) eqn:Ef; simpl; auto.
      apply String.eqb_eq in Ef. subst f. rewrite E. simpl.
      now rewrite andb_false_r.
Qed.

Lemma existsb_eqb_In g l : existsb (String.eqb g) l = true <-> In g l.
Proof.
  rewrite existsb_exists. split.
  - intros (x & Hx & E). apply String.eqb_eq in E. now subst.
  - intros H. exists g. split; auto. apply String.eqb_refl.
Qed.

Section Cadena.
Variable ocr_results : list ocr_item.
Variable extraer : string -> FieldRecord.

Local Notation "'completar'" := (completar ocr_results extraer).
Local Notation "'primer_valor'" := (primer_valor ocr_results extraer).
Local Notation "'aporte'" := (aporte ocr_results extraer).

(** The record after the loop over the older documents: a field that was
    empty on entry holds the value of the newest document that yields
    one, every other field is as it was. *)
Lemma completar_get docs : forall result empty_fields g,
  NoDup empty_fields ->
  get (completar docs result empty_fields) g =
  if existsb (String.eqb g) empty_fields
  then match primer_valor g docs with
       | Some v => Some v
       | None => get result g
       end
  else get result g.
Proof.
  induction docs as [|doc docs IH]; intros result ef g Hn.
  - simpl. now destruct (existsb (String.eqb g) ef).
  - destruct ef as [|e ef']; [reflexivity|].
    set (ef := e :: ef') in *.
    change (Report.completar ocr_results extraer (doc :: docs) result ef)
      with
      (if negb (truthy (_ocr_text_by_filename ocr_results (v_filename doc)))
       then completar docs result ef
       else
         match snd (llenar
                      (extraer (_ocr_text_by_filename ocr_results
                                  (v_filename doc))) ef result ef) with
         | [] => fst (llenar
                        (extraer (_ocr_text_by_filename ocr_results
                                    (v_filename doc))) ef result ef)
         | _ :: _ =>
             completar docs
               (fst (llenar
                       (extraer (_ocr_text_by_filename ocr_results
                                   (v_filename doc))) ef result ef))
               (snd (llenar
                       (extraer (_ocr_text_by_filename ocr_results
                                   (v_filename doc))) ef result ef))
         end).
    simpl Reconciliacion.primer_valor.
    unfold Reconciliacion.aporte, con_texto.
    destruct (truthy (_ocr_text_by_filename ocr_results (v_filename doc)))
      eqn:Et; simpl negb; cbv iota.
    2:{ now apply IH. }
    set (dr := extraer (_ocr_text_by_filename ocr_results (v_filename doc))).
    pose proof (llenar_empty dr ef result Hn) as Hef0.
    pose proof (llenar_get dr ef result ef g) as Hg.
    destruct (existsb (String.eqb g) ef) eqn:Eg; cbn [andb is_some] in Hg.
    + (* g was empty on entry *)
      destruct (aporta dr g) as [v|] eqn:Ea; cbn [andb is_some] in Hg.
      * (* this document yields it *)
        destruct (snd (llenar dr ef result ef)) eqn:Es; [exact Hg|].
        rewrite <- Es in *. rewrite IH.
        -- rewrite Hef0.
           assert (existsb (String.eqb g)
                     (filter (fun f => negb (existsb (String.eqb f) ef
                                             && is_some (aporta dr f))) ef)
                   = false) as ->; [|exact Hg].
           apply not_true_is_false. rewrite existsb_eqb_In.
           intros Hin. apply filter_In in Hin. destruct Hin as [_ Hin].
           rewrite Eg, Ea in Hin. discriminate.
        -- rewrite Hef0. now apply NoDup_filter.
      * (* it does not: g stays in the list *)
        assert (In g (snd (llenar dr ef result ef))) as Hin.
        { rewrite Hef0. apply filter_In. split.
          - now apply existsb_eqb_In.
          - rewrite Eg, Ea. reflexivity. }
        destruct (snd (llenar dr ef result ef)) eqn:Es; [destruct Hin|].
        rewrite <- Es in *. rewrite IH.
        -- apply existsb_eqb_In in Hin. rewrite Hin, Hg. reflexivity.
        -- rewrite Hef0. now apply NoDup_filter.
    + (* g was not empty on entry *)
      destruct (snd (llenar dr ef result ef)) eqn:Es; [exact Hg|].
      rewrite <- Es in *. rewrite IH.
      * rewrite Hef0.
        assert (existsb (String.eqb g)
                  (filter (fun f => negb (existsb (String.eqb f) ef
                                          && is_some (aporta dr f))) ef)
                = false) as ->; [|exact Hg].
        apply not_true_is_false. rewrite existsb_eqb_In.
        intros Hin. apply filter_In in Hin. destruct Hin as [Hin _].
        apply existsb_eqb_In in Hin. congruence.
      * rewrite Hef0. now apply NoDup_filter.
Qed.

Lemma completar_cons doc docs result e ef' :
  completar (doc :: docs) result (e :: ef') =
  let doc_text := _ocr_text_by_filename ocr_results (v_filename doc) in
  if negb (truthy doc_text) then completar docs result (e :: ef')
  else
    let filled := llenar (extraer doc_text) (e :: ef') result (e :: ef') in
    match snd filled with
    | [] => fst filled
    | _ :: _ => completar docs (fst filled) (snd filled)
    end.
Proof. reflexivity. Qed.

(** A document without text is passed over by the loop. *)
Lemma completar_skip docs : forall result empty_fields,
  completar docs result empty_fields =
  completar (filter (con_texto ocr_results) docs) result empty_fields.
Proof.
  induction docs as [|doc docs IH]; intros result ef; [reflexivity|].
  destruct ef as [|e ef'].
  - simpl. destruct (con_texto ocr_results doc); simpl; auto.
    now destruct (filter (con_texto ocr_results) docs).
  - rewrite completar_cons. cbv zeta. simpl filter. unfold con_texto at 1.
    destruct (truthy (_ocr_text_by_filename ocr_results (v_filename doc)))
      eqn:Et; cbn [negb].
    + rewrite completar_cons. cbv zeta. rewrite Et. cbn [negb].
      destruct (snd (llenar _ (e :: ef') result (e :: ef'))); auto.
    + apply IH.
Qed.

Lemma empty_fields_keys (r : FieldRecord) f :
  In f (_get_empty_fields r) -> In f (keys r).
Proof.
  unfold _get_empty_fields, keys. intros H.
  apply in_map_iff in H. destruct H as (kv & <- & H).
  apply filter_In in H. apply in_map. tauto.
Qed.

Lemma empty_fields_NoDup (r : FieldRecord) :
  NoDup (keys r) -> NoDup (_get_empty_fields r).
Proof.
  unfold _get_empty_fields, keys.
  induction r as [|[k v] r IH]; simpl; [constructor|].
  intros H. inversion H as [|? ? Hk Hr]; subst.
  destruct (is_empty_value v); simpl; auto.
  constructor; auto.
  intros Hin. apply Hk. now apply (empty_fields_keys r).
Qed.

Lemma empty_fields_mem (r : FieldRecord) f v0 :
  NoDup (keys r) -> get r f = Some v0 ->
  existsb (String.eqb f) (_get_empty_fields r) = is_empty_value v0.
Proof.
  unfold _get_empty_fields, keys.
  induction r as [|[k v] r IH]; simpl; [discriminate|].
  intros H. inversion H as [|? ? Hk Hr]; subst.
  destruct (String.eqb f k) eqn:E.
  - apply String.eqb_eq in E. subst k. intros Hv. inversion Hv; subst.
    destruct (is_empty_value v0); simpl.
    + now rewrite String.eqb_refl.
    + apply not_true_is_false. rewrite existsb_eqb_In.
      intros Hin. apply Hk. now apply (empty_fields_keys r).
  - intros Hv. destruct (is_empty_value v); simpl; [rewrite E; simpl|];
      now apply IH.
Qed.

(** The reconciled record, field by field, when the newest document has
    text. *)
Lemma con_prioridad_get sin_texto latest older field v0 :
  con_texto ocr_results latest = true ->
  NoDup (keys (extraer (_ocr_text_by_filename ocr_results
                          (v_filename latest)))) ->
  get (extraer (_ocr_text_by_filename ocr_results (v_filename latest)))
    field = Some v0 ->
  get (con_prioridad ocr_results extraer sin_texto (latest :: older)) field =
  Some (if is_empty_value v0
        then match primer_valor field older with
             | Some v => v
             | None => v0
             end
        else v0).
Proof.
  unfold con_texto, con_prioridad. intros Ht Hn Hg. rewrite Ht. simpl negb.
  cbv iota zeta.
  set (r0 := extraer _) in *.
  pose proof (empty_fields_mem r0 field Hn Hg) as Hm.
  pose proof (empty_fields_NoDup r0 Hn) as Hd.
  pose proof (completar_get older r0 field Hd) as Hc.
  destruct (_get_empty_fields r0) as [|e ef'] eqn:Ee.
  - simpl in Hm. rewrite <- Hm. exact Hg.
  - rewrite Hc, Hm, Hg.
    destruct (is_empty_value v0); auto.
    now destruct (primer_valor field older).
Qed.

Lemma por_fecha_desc_nonempty docs latest older :
  por_fecha_desc docs = latest :: older -> docs <> [].
Proof. intros H ->. discriminate. Qed.

End Cadena.

End ReportFacts.

(** ** The stages, one by one *)

Module GraphFacts.

Import Py.
Import Versioning.
Import Graph.

Section Etapas.
Variable w : world.

Lemma paso_1_returns s :
  exists s',
    paso_1_ocr w s = Ok s'
    /\ versioning_results s' = versioning_results s
    /\ (error s' = error s \/ ocr_results s' = ocr_results s).
Proof.
  unfold paso_1_ocr. destruct (raises w "paso_1_ocr");
    eexists; (split; [reflexivity|]); simpl; auto.
Qed.

Lemma paso_2_returns s :
  exists s',
    paso_2_versioning w s = Ok s'
    /\ (versioning_results s' = versioning_results s
        \/ (error s' = error s /\ ocr_results s <> [])).
Proof.
  unfold paso_2_versioning.
  destruct (ocr_results s) eqn:E; simpl.
  - eexists. split; [reflexivity|]. simpl. auto.
  - destruct (raises w "paso_2_versioning");
      eexists; (split; [reflexivity|]); simpl; auto.
    right. split; auto. discriminate.
Qed.

Lemma paso_3_returns s :
  (exists s',
     paso_3_vectorization w s = Ok s'
     /\ versioning_results s' = versioning_results s)
  \/ (exists e,
        paso_3_vectorization w s = Raised e
        /\ raises w "paso_3_vectorization" = Some e
        /\ versioning_results s <> []).
Proof.
  unfold paso_3_vectorization.
  destruct (vacio (ocr_results s) || vacio (versioning_results s)) eqn:E.
  - left. eexists. split; [reflexivity|]. reflexivity.
  - destruct (raises w "paso_3_vectorization") as [e|] eqn:Er.
    + right. exists e. repeat split.
      apply orb_false_iff in E. destruct E as [_ E].
      intros Hv. rewrite Hv in E. discriminate.
    + left. destruct (should_extract_from_ocr w);
        eexists; (split; [reflexivity|]); reflexivity.
Qed.

Lemma paso_4_returns s :
  exists s',
    paso_4_escritura_comparison w s = Ok s'
    /\ versioning_results s' = versioning_results s.
Proof.
  unfold paso_4_escritura_comparison.
  destruct (vacio (versioning_results s)).
  - eexists. split; reflexivity.
  - destruct (vacio (get_default (versioning_results s) "escritura" [])).
    + eexists. split; reflexivity.
    + destruct (raises w "paso_4_escritura_comparison");
        eexists; split; reflexivity.
Qed.

Lemma paso_5_returns s :
  exists s',
    paso_5_legalizacion w s = Ok s'
    /\ versioning_results s' = versioning_results s.
Proof.
  unfold paso_5_legalizacion.
  destruct (vacio (ocr_results s) || vacio (versioning_results s)).
  - eexists. split; reflexivity.
  - destruct (raises w "paso_5_legalizacion");
      eexists; split; reflexivity.
Qed.

Lemma paso_8_returns s :
  exists s',
    paso_8_report_generation w s = Ok s'
    /\ (versioning_results s = [] ->
        error s' = "No hay resultados de versionado para generar informe").
Proof.
  unfold paso_8_report_generation.
  destruct (versioning_results s) eqn:E; simpl.
  - eexists. split; [reflexivity|]. reflexivity.
  - destruct (raises w "paso_8_report_generation");
      eexists; (split; [reflexivity|]); discriminate.
Qed.

(** The run, stage after stage: each stage reads the channels of what
    the stage before returned. *)
Lemma process_carpeta_eq carpeta :
  process_carpeta w carpeta =
  match paso_1_ocr w (create_initial_state carpeta) with
  | Raised e => [("paso_1_ocr", Raised e)]
  | Ok s1 =>
    ("paso_1_ocr", Ok s1) ::
    match paso_2_versioning w (canales s1) with
    | Raised e => [("paso_2_versioning", Raised e)]
    | Ok s2 =>
      ("paso_2_versioning", Ok s2) ::
      match paso_3_vectorization w (canales s2) with
      | Raised e => [("paso_3_vectorization", Raised e)]
      | Ok s3 =>
        ("paso_3_vectorization", Ok s3) ::
        match paso_4_escritura_comparison w (canales s3) with
        | Raised e => [("paso_4_escritura_comparison", Raised e)]
        | Ok s4 =>
          ("paso_4_escritura_comparison", Ok s4) ::
          match paso_5_legalizacion w (canales s4) with
          | Raised e => [("paso_5_legalizacion", Raised e)]
          | Ok s5 =>
            ("paso_5_legalizacion", Ok s5) ::
            match paso_8_report_generation w (canales s5) with
            | Raised e => [("paso_8_report_generation", Raised e)]
            | Ok s8 => [("paso_8_report_generation", Ok s8)]
            end
          end
        end
      end
    end
  end.
Proof. reflexivity. Qed.

End Etapas.

End GraphFacts.

(* ================================================================== *)
(** * The claims                                                        *)
(* ================================================================== *)

Import Py.
Import Versioning.
Import Orden.
Import Ejemplos.

(** ** C1: ordering by (parsed date, file name) *)

(** [assign_versions] orders the dated documents of every chain by the
    pair (parsed date, file name). *)
Lemma assign_versions_fecha_nombre cr dr cat chain :
  In (cat, chain) (assign_versions cr dr) ->
  StronglySorted le_fecha_nombre (fechados (map de_versioned chain)).
Proof.
  intros H. apply VersioningFacts.assign_versions_chain in H.
  destruct H as (docs & _ & ->).
  apply VersioningFacts.versionar_fecha_nombre.
Qed.

(** C1, at the input that separates the two assigners: for two deeds of
    the same day [assign_versions_from_ocr] keeps the order of its input,
    so b.pdf is numbered before a.pdf when it is listed first, the dated
    documents are not in (date, file name) order, and listing the same
    documents the other way round gives another chain. *)
Theorem C1_from_ocr_keeps_input_order :
  assign_versions_from_ocr cc_escritura dc_misma_fecha ocr_b_a
    = [("escritura", cadena_b_a)]
  /\ assign_versions_from_ocr cc_escritura dc_misma_fecha ocr_a_b
    = [("escritura", cadena_a_b)]
  /\ ~ StronglySorted le_fecha_nombre
         (fechados (map de_versioned cadena_b_a))
  /\ assign_versions clasificados_b_a [] = [("escritura", cadena_a_b)].
Proof.
  repeat split; try reflexivity.
  intros H. inversion H as [|x l _ Hx]; subst.
  inversion Hx as [|y l' Hxy _]; subst.
  vm_compute in Hxy. discriminate.
Qed.

(** ** C4: the chain invariant *)

(** C4, as the code has it: every chain is numbered 1..N and has its
    dated documents first, in ascending date order; the chains of
    [assign_versions] end with all the undated documents in alphabetical
    order, those of [assign_versions_from_ocr] end with the documents
    marked NO_FECHA in alphabetical order. *)
Theorem C4_chain_invariant cr dr cc dc ocr cat chain :
  (In (cat, chain) (assign_versions cr dr) -> cadena_ok chain)
  /\ (In (cat, chain) (assign_versions_from_ocr cc dc ocr) ->
      cadena_ocr_ok chain).
Proof.
  split; intros H.
  - apply VersioningFacts.assign_versions_chain in H.
    destruct H as (docs & _ & ->). apply VersioningFacts.versionar_ok.
  - apply VersioningFacts.assign_versions_from_ocr_chain in H.
    destruct H as (docs & _ & ->). apply VersioningFacts.versionar_ocr_ok.
Qed.

Lemma C4_chain_invariant_witness :
  cadena_ok cadena_a_b /\ cadena_ocr_ok cadena_z_a.
Proof.
  split.
  - apply (proj1 (C4_chain_invariant clasificados_b_a [] cc_escritura
                    dc_imposible ocr_z_a "escritura" cadena_a_b)).
    left. reflexivity.
  - apply (proj2 (C4_chain_invariant clasificados_b_a [] cc_escritura
                    dc_imposible ocr_z_a "escritura" cadena_z_a)).
    left. reflexivity.
Defined.

(** C4 as stated fails on a chain of [assign_versions_from_ocr]: z.pdf,
    whose date is no calendar day, is numbered before a.pdf, which has no
    date, so the undated documents are not in alphabetical order. *)
Lemma C4_counterexample :
  In ("escritura", cadena_z_a)
     (assign_versions_from_ocr cc_escritura dc_imposible ocr_z_a)
  /\ ~ cadena_ok cadena_z_a.
Proof.
  split.
  - left. reflexivity.
  - intros (_ & _ & _ & H).
    inversion H as [|x l _ Hx]; subst.
    inversion Hx as [|y l' Hxy _]; subst.
    vm_compute in Hxy. discriminate.
Qed.

(** ** C9: the partitioner *)


(** ** C5: adjacent comparisons *)

(** C5: for a chain with versions 1..N, N at least 2, the differ emits
    N - 1 comparisons and the i-th links version i to version i + 1:
    its two ends are the documents of the chain that carry these two
    versions, and its differences are those of their two texts; a chain
    of fewer than two entries gives the empty list. *)
Theorem C5_adjacent_comparisons
    (max_chars_doc : N) (llm : string -> string -> option Comparer.diferencias)
    (versioning_results : dict (list versioned)) (ocr_results : list ocr_item)
    (categoria : string) (docs : list versioned) :
  NoDup (keys versioning_results) ->
  In (categoria, docs) versioning_results ->
  exists comps,
    get (Comparer.comparar_versiones max_chars_doc llm versioning_results
           ocr_results) categoria = Some comps
    /\ (List.length docs < 2 -> comps = [])
    /\ (2 <= List.length docs ->
        Permutation (map version docs) (seq 1 (List.length docs)) ->
        List.length comps = List.length docs - 1
        /\ forall i, i < List.length docs - 1 ->
             exists c,
               nth_error comps i = Some c
               /\ In (Comparer.de c) docs
               /\ In (Comparer.a c) docs
               /\ version (Comparer.de c) = S i
               /\ version (Comparer.a c) = S (S i)
               /\ Comparer.difs c
                  = Comparer._compare_texts llm
                      (Comparer._find_text max_chars_doc
                         (Comparer.ocr_index ocr_results)
                         (v_filename (Comparer.de c)))
                      (Comparer._find_text max_chars_doc
                         (Comparer.ocr_index ocr_results)
                         (v_filename (Comparer.a c)))).
Proof.
  intros Hn Hin.
  unfold Comparer.comparar_versiones.
  rewrite ComparerFacts.get_fold_set by assumption.
  rewrite (ComparerFacts.get_In _ _ _ Hn Hin).
  eexists. split; [reflexivity|]. split.
  - apply ComparerFacts.comparar_categoria_short.
  - intros H2 HP. split.
    + apply ComparerFacts.comparar_categoria_length.
    + intros i Hi.
      destruct (@ComparerFacts.comparar_categoria_nth max_chars_doc llm
                  (Comparer.ocr_index ocr_results) docs i H2 HP Hi)
        as (c & Hc & Hd & Ha).
      exists c. split; [exact Hc|].
      apply nth_error_In in Hc.
      apply ComparerFacts.comparar_categoria_In in Hc.
      destruct Hc as (Id & Ia & Df). auto 6.
Qed.

Lemma C5_adjacent_comparisons_witness :
  exists comps,
    get (Comparer.comparar_versiones 16000 Pares.llm_un_cambio
           [("escritura", Pares.cadena_abc)] Pares.ocr_abc) "escritura"
      = Some comps
    /\ (List.length Pares.cadena_abc < 2 -> comps = [])
    /\ (2 <= List.length Pares.cadena_abc ->
        Permutation (map version Pares.cadena_abc)
          (seq 1 (List.length Pares.cadena_abc)) ->
        List.length comps = List.length Pares.cadena_abc - 1
        /\ forall i, i < List.length Pares.cadena_abc - 1 ->
             exists c,
               nth_error comps i = Some c
               /\ In (Comparer.de c) Pares.cadena_abc
               /\ In (Comparer.a c) Pares.cadena_abc
               /\ version (Comparer.de c) = S i
               /\ version (Comparer.a c) = S (S i)
               /\ Comparer.difs c
                  = Comparer._compare_texts Pares.llm_un_cambio
                      (Comparer._find_text 16000
                         (Comparer.ocr_index Pares.ocr_abc)
                         (v_filename (Comparer.de c)))
                      (Comparer._find_text 16000
                         (Comparer.ocr_index Pares.ocr_abc)
                         (v_filename (Comparer.a c)))).
Proof.
  apply (C5_adjacent_comparisons 16000 Pares.llm_un_cambio
           [("escritura", Pares.cadena_abc)] Pares.ocr_abc
           "escritura" Pares.cadena_abc).
  - repeat constructor. simpl. tauto.
  - left. reflexivity.
Defined.

(** ** C6: pairs with a missing text *)

(** C6, as the code has it: the comparison stage of the pipeline skips a
    pair of which a text is missing and emits one entry for every other
    pair, so its output is what the pairs with both texts give;
    [comparar_versiones] does not skip such a pair: it emits all N - 1
    pairs and gives the pair no change and an empty summary. *)
Theorem C6_missing_text_pairs
    (w : Graph.world) (state_ocr : list ocr_item) (index : dict string)
    (pairs : list (versioned * versioned))
    (max_chars_doc : N) (llm : string -> string -> option Comparer.diferencias)
    (docs : list versioned) :
  (forall p, Pares.par_sin_texto index (fst p) (snd p) = true ->
     Graph.comparar_par w state_ocr index p = [])
  /\ (forall p, Pares.par_sin_texto index (fst p) (snd p) = false ->
        exists e,
          Graph.comparar_par w state_ocr index p = [Graph.Simple e]
          /\ Graph.cs_de e = fst p /\ Graph.cs_a e = snd p)
  /\ flat_map (Graph.comparar_par w state_ocr index) pairs
     = flat_map (Graph.comparar_par w state_ocr index)
         (filter (fun p => negb (Pares.par_sin_texto index (fst p) (snd p)))
            pairs)
  /\ List.length (Comparer.comparar_categoria max_chars_doc llm index docs)
     = List.length docs - 1
  /\ (forall c,
        In c (Comparer.comparar_categoria max_chars_doc llm index docs) ->
        truthy (Comparer._find_text max_chars_doc index
                  (v_filename (Comparer.de c))) = false
        \/ truthy (Comparer._find_text max_chars_doc index
                     (v_filename (Comparer.a c))) = false ->
        Comparer.difs c = Comparer.fallback).
Proof.
  repeat split.
  - apply Paso4Facts.comparar_par_skip.
  - apply Paso4Facts.comparar_par_emit.
  - apply Paso4Facts.flat_map_filter.
    intros p Hp. apply negb_false_iff in Hp.
    now apply Paso4Facts.comparar_par_skip.
  - apply ComparerFacts.comparar_categoria_length.
  - apply ComparerFacts.comparar_categoria_sin_texto.
Qed.

Lemma C6_missing_text_pairs_witness :
  Graph.comparar_par Mundos.tranquilo Pares.ocr_a_c
    (Comparer.ocr_index Pares.ocr_a_c)
    (mk_versioned "a.pdf" "01-01-2020" 1, mk_versioned "b.pdf" "01-01-2021" 2)
  = [].
Proof.
  apply (proj1 (C6_missing_text_pairs Mundos.tranquilo Pares.ocr_a_c
                  (Comparer.ocr_index Pares.ocr_a_c) [] 16000
                  Pares.llm_un_cambio Pares.cadena_abc)).
  reflexivity.
Defined.

(** C6 as stated fails on [comparar_versiones]: with the text of b.pdf
    missing, the comparisons a -> b and b -> c are emitted all the same. *)
Lemma C6_counterexample :
  ~ Pares.omite_pares_sin_texto (Comparer.ocr_index Pares.ocr_a_c)
      (Comparer.comparar_categoria 16000 Pares.llm_un_cambio
         (Comparer.ocr_index Pares.ocr_a_c) Pares.cadena_abc).
Proof.
  intros H.
  specialize (H (Comparer.mk_comparacion
                   (mk_versioned "a.pdf" "01-01-2020" 1)
                   (mk_versioned "b.pdf" "01-01-2021" 2)
                   Comparer.fallback)).
  assert (Pares.par_sin_texto (Comparer.ocr_index Pares.ocr_a_c)
            (mk_versioned "a.pdf" "01-01-2020" 1)
            (mk_versioned "b.pdf" "01-01-2021" 2) = true) as E
    by reflexivity.
  simpl in H. rewrite E in H.
  assert (true = false); [|discriminate].
  apply H. vm_compute. left. reflexivity.
Qed.

(** ** C2: fields never regress *)

Import Report.
Import Reconciliacion.

(** C2, as the code has it: when the newest document has text, a field
    of its record that holds a value keeps it; a field that it left empty
    takes the value of the newest older document that yields one, which
    no document older than that one replaces, and stays empty only if no
    older document yields a value.  When the newest document has no
    text, reconciliation returns at once the record without fields for a
    section and the header of three empty fields, whatever the older
    documents hold.  This holds of the sections and of the header. *)
Theorem C2_fields_never_regress
    (llm_secciones : string -> string -> reply FieldRecord)
    (llm_encabezado : string -> reply (dict FieldRecord))
    (seccion : string) (versioning_results : dict (list versioned))
    (ocr_results : list ocr_item) (latest : versioned)
    (older : list versioned) :
  por_fecha_desc (get_default versioning_results "escritura" [])
    = latest :: older ->
  let texto := _ocr_text_by_filename ocr_results (v_filename latest) in
  let extraer_seccion := _extract_section_from_text llm_secciones seccion in
  let extraer_encabezado := fun text =>
    get_default (_llm_json (llm_encabezado text)) "informesociedad" [] in
  (con_texto ocr_results latest = true ->
   (NoDup (keys (extraer_seccion texto)) ->
    forall field v0, get (extraer_seccion texto) field = Some v0 ->
      get (_extract_section_with_date_priority llm_secciones seccion
             versioning_results ocr_results) field =
      Some (if is_empty_value v0
            then match primer_valor ocr_results extraer_seccion field older
                 with Some v => v | None => v0 end
            else v0))
   /\ (NoDup (keys (extraer_encabezado texto)) ->
       forall field v0, get (extraer_encabezado texto) field = Some v0 ->
         get (_extract_encabezado_with_date_priority llm_encabezado
                versioning_results ocr_results) field =
         Some (if is_empty_value v0
               then match primer_valor ocr_results extraer_encabezado field
                            older
                    with Some v => v | None => v0 end
               else v0)))
  /\ (con_texto ocr_results latest = false ->
      _extract_section_with_date_priority llm_secciones seccion
        versioning_results ocr_results = []
      /\ _extract_encabezado_with_date_priority llm_encabezado
           versioning_results ocr_results = encabezado_vacio).
Proof.
  intros Hs. simpl.
  unfold _extract_section_with_date_priority,
    _extract_encabezado_with_date_priority.
  pose proof (ReportFacts.por_fecha_desc_nonempty Hs) as Hne.
  destruct (get_default versioning_results "escritura" []) as [|d ds];
    [congruence|].
  rewrite Hs. split.
  - intros Ht. split; intros Hn field v0 Hg.
    + now apply ReportFacts.con_prioridad_get.
    + now apply (ReportFacts.con_prioridad_get ocr_results
                   (fun text =>
                      get_default (_llm_json (llm_encabezado text))
                        "informesociedad" [])).
  - unfold con_texto, con_prioridad. intros Ht. rewrite Ht. simpl. auto.
Qed.

Lemma C2_fields_never_regress_witness :
  get (_extract_section_with_date_priority llm_secciones_hueco
         "constitucion" [("escritura", cadena_vn)] ocr_vn) "domicilio"
  = Some "Santiago"
  /\ get (_extract_section_with_date_priority llm_secciones_hueco
            "constitucion" [("escritura", cadena_vn)] ocr_vn)
       "tipo_de_sociedad"
     = Some "SpA".
Proof.
  pose proof (proj1
                (C2_fields_never_regress llm_secciones_hueco
                   llm_encabezado_acme "constitucion"
                   [("escritura", cadena_vn)] ocr_vn
                   (latest := mk_versioned "nueva.pdf" "01-01-2021" 2)
                   (older := [mk_versioned "vieja.pdf" "01-01-2020" 1])
                   eq_refl)
                eq_refl) as [H _].
  assert (NoDup (keys (_extract_section_from_text llm_secciones_hueco
                         "constitucion"
                         (_ocr_text_by_filename ocr_vn "nueva.pdf"))))
    as Hn.
  { vm_compute. repeat constructor; simpl; intuition discriminate. }
  split.
  - apply (H Hn "domicilio" "" eq_refl).
  - apply (H Hn "tipo_de_sociedad" "SpA" eq_refl).
Defined.

(** C2 as stated fails when the newest deed has no text: the header is
    returned with its three fields empty, although the older deed yields
    a company name and a tax number. *)
Lemma C2_counterexample :
  ~ vacio_solo_si_nadie_aporta ocr_solo_vieja
      (fun text => get_default (_llm_json (llm_encabezado_acme text))
                     "informesociedad" [])
      cadena_vn
      (_extract_encabezado_with_date_priority llm_encabezado_acme
         [("escritura", cadena_vn)] ocr_solo_vieja).
Proof.
  intros H.
  specialize (H "rut" eq_refl (mk_versioned "vieja.pdf" "01-01-2020" 1)
                (or_introl eq_refl)).
  vm_compute in H. discriminate.
Qed.

(** ** C7: documents without text *)

(** C7, as the code has it: an older document without text is passed
    over, the result being that of the chain without it; when it is the
    newest document that has no text, reconciliation returns at once,
    with the empty record for a section and the header of empty fields,
    and reads no other document. *)
Theorem C7_document_without_text
    (llm_secciones : string -> string -> reply FieldRecord)
    (llm_encabezado : string -> reply (dict FieldRecord))
    (seccion : string) (versioning_results : dict (list versioned))
    (ocr_results : list ocr_item) (latest : versioned)
    (older : list versioned) :
  por_fecha_desc (get_default versioning_results "escritura" [])
    = latest :: older ->
  let extraer_encabezado := fun text =>
    get_default (_llm_json (llm_encabezado text)) "informesociedad" [] in
  (con_texto ocr_results latest = false ->
   _extract_section_with_date_priority llm_secciones seccion
     versioning_results ocr_results = []
   /\ _extract_encabezado_with_date_priority llm_encabezado
        versioning_results ocr_results = encabezado_vacio)
  /\ _extract_section_with_date_priority llm_secciones seccion
       versioning_results ocr_results
     = con_prioridad ocr_results
         (_extract_section_from_text llm_secciones seccion) []
         (latest :: filter (con_texto ocr_results) older)
  /\ _extract_encabezado_with_date_priority llm_encabezado
       versioning_results ocr_results
     = con_prioridad ocr_results extraer_encabezado encabezado_vacio
         (latest :: filter (con_texto ocr_results) older).
Proof.
  intros Hs. simpl.
  unfold _extract_section_with_date_priority,
    _extract_encabezado_with_date_priority.
  pose proof (ReportFacts.por_fecha_desc_nonempty Hs) as Hne.
  destruct (get_default versioning_results "escritura" []) as [|d ds];
    [congruence|].
  rewrite Hs. unfold con_prioridad, con_texto.
  destruct (truthy (_ocr_text_by_filename ocr_results (v_filename latest)));
    simpl negb; cbv iota.
  - split; [discriminate|]. split.
    + destruct (_get_empty_fields _); auto.
      apply ReportFacts.completar_skip.
    + destruct (_get_empty_fields _); auto.
      apply ReportFacts.completar_skip.
  - auto.
Qed.

Lemma C7_document_without_text_witness :
  _extract_section_with_date_priority llm_secciones_stgo "constitucion"
    [("escritura", cadena_vn)] ocr_solo_vieja = []
  /\ _extract_encabezado_with_date_priority llm_encabezado_acme
       [("escritura", cadena_vn)] ocr_solo_vieja = encabezado_vacio.
Proof.
  apply (proj1 (C7_document_without_text llm_secciones_stgo
                  llm_encabezado_acme "constitucion"
                  [("escritura", cadena_vn)] ocr_solo_vieja
                  (latest := mk_versioned "nueva.pdf" "01-01-2021" 2)
                  (older := [mk_versioned "vieja.pdf" "01-01-2020" 1])
                  eq_refl)).
  reflexivity.
Defined.

(** C7 as stated fails when the document without text is the newest: the
    section comes back empty, whereas the chain without that document
    gives the address found in the older deed. *)
Lemma C7_counterexample :
  ~ salta_sin_texto ocr_solo_vieja
      (fun docs =>
         _extract_section_with_date_priority llm_secciones_stgo
           "constitucion" [("escritura", docs)] ocr_solo_vieja)
      cadena_vn.
Proof.
  intros H.
  specialize (H (mk_versioned "nueva.pdf" "01-01-2021" 2)
                (or_intror (or_introl eq_refl)) eq_refl).
  vm_compute in H. discriminate.
Qed.

(** ** C8: extraction that fails for every document *)

(** C8, as the code has it: when, for every deed of the chain that has
    text, the reply of the model to that text does not parse to a JSON
    object, reconciliation raises nothing.  It returns the record
    without fields for a section.  For the header it returns the record
    without fields when the newest deed has text, and the header of
    three empty fields exactly when there is no deed or the newest deed
    has no text.  Read with an empty default, every field of these
    results is empty. *)
Theorem C8_extraction_fails_everywhere
    (llm_secciones : string -> string -> reply FieldRecord)
    (llm_encabezado : string -> reply (dict FieldRecord))
    (seccion : string) (versioning_results : dict (list versioned))
    (ocr_results : list ocr_item) :
  (forall doc,
     In doc (get_default versioning_results "escritura" []) ->
     con_texto ocr_results doc = true ->
     let text := _ocr_text_by_filename ocr_results (v_filename doc) in
     (llm_secciones seccion (take 16000 text) = NotJson
      \/ llm_secciones seccion (take 16000 text) = NotDict)
     /\ (llm_encabezado text = NotJson \/ llm_encabezado text = NotDict)) ->
  _extract_section_with_date_priority llm_secciones seccion
    versioning_results ocr_results = []
  /\ _extract_encabezado_with_date_priority llm_encabezado
       versioning_results ocr_results
     = match por_fecha_desc
               (get_default versioning_results "escritura" []) with
       | [] => encabezado_vacio
       | latest :: _ =>
           if con_texto ocr_results latest then [] else encabezado_vacio
       end
  /\ forall field,
       get_default
         (_extract_section_with_date_priority llm_secciones seccion
            versioning_results ocr_results) field "" = ""
       /\ get_default
            (_extract_encabezado_with_date_priority llm_encabezado
               versioning_results ocr_results) field "" = "".
Proof.
  intros Hfail.
  assert (forall latest older,
            por_fecha_desc (get_default versioning_results "escritura" [])
            = latest :: older ->
            con_texto ocr_results latest = true ->
            _extract_section_from_text llm_secciones seccion
              (_ocr_text_by_filename ocr_results (v_filename latest)) = []
            /\ get_default
                 (_llm_json
                    (llm_encabezado
                       (_ocr_text_by_filename ocr_results
                          (v_filename latest))))
                 "informesociedad" ([] : FieldRecord) = []) as Hl.
  { intros latest older Hs Ht.
    assert (In latest (get_default versioning_results "escritura" []))
      as Hin.
    { eapply Permutation_in; [apply SortFacts.sort_perm|].
      unfold por_fecha_desc, sorted_by_rev in Hs. rewrite Hs. now left. }
    destruct (Hfail latest Hin Ht) as [Hsec Henc]. simpl in Hsec, Henc.
    unfold _extract_section_from_text. split.
    - destruct Hsec as [-> | ->]; reflexivity.
    - destruct Henc as [-> | ->]; reflexivity. }
  assert (_extract_section_with_date_priority llm_secciones seccion
            versioning_results ocr_results = []) as H1.
  { unfold _extract_section_with_date_priority.
    destruct (get_default versioning_results "escritura" []) as [|d ds];
      auto.
    unfold con_prioridad.
    destruct (por_fecha_desc (d :: ds)) as [|latest older] eqn:Es; auto.
    destruct (truthy (_ocr_text_by_filename ocr_results
                        (v_filename latest))) eqn:Et; simpl; auto.
    destruct (Hl latest older eq_refl Et) as [-> _]. reflexivity. }
  assert (_extract_encabezado_with_date_priority llm_encabezado
            versioning_results ocr_results
          = match por_fecha_desc
                    (get_default versioning_results "escritura" []) with
            | [] => encabezado_vacio
            | latest :: _ =>
                if con_texto ocr_results latest then []
                else encabezado_vacio
            end) as H2.
  { unfold _extract_encabezado_with_date_priority.
    destruct (get_default versioning_results "escritura" []) as [|d ds];
      [reflexivity|].
    unfold con_prioridad, con_texto.
    destruct (por_fecha_desc (d :: ds)) as [|latest older] eqn:Es; auto.
    destruct (truthy (_ocr_text_by_filename ocr_results
                        (v_filename latest))) eqn:Et; simpl; auto.
    destruct (Hl latest older eq_refl Et) as [_ ->]. reflexivity. }
  split; [exact H1|]. split; [exact H2|].
  intros field. rewrite H1, H2. split; [reflexivity|].
  destruct (por_fecha_desc _) as [|latest older];
    [|destruct (con_texto ocr_results latest); [reflexivity|]];
    unfold get_default, encabezado_vacio; simpl;
    repeat match goal with
           | |- context [String.eqb ?a ?b] => destruct (String.eqb a b)
           end; reflexivity.
Qed.

Lemma C8_extraction_fails_everywhere_witness :
  _extract_section_with_date_priority llm_secciones_mal "constitucion"
    [("escritura", cadena_vn)] ocr_vn = []
  /\ _extract_encabezado_with_date_priority llm_encabezado_mal
       [("escritura", cadena_vn)] ocr_vn = [].
Proof.
  destruct (@C8_extraction_fails_everywhere llm_secciones_mal
              llm_encabezado_mal "constitucion"
              [("escritura", cadena_vn)] ocr_vn
              (fun _ _ _ =>
                 conj (or_introl eq_refl) (or_introl eq_refl)))
    as (H1 & H2 & _).
  split; [exact H1|exact H2].
Defined.

(** C8 as stated fails: when the replies do not parse, the header that is
    returned has no field at all, so the requested fields are missing
    from it rather than present and empty. *)
Lemma C8_counterexample :
  ~ todos_vacios campos_encabezado
      (_extract_encabezado_with_date_priority llm_encabezado_mal
         [("escritura", cadena_vn)] ocr_vn).
Proof.
  intros H. specialize (H "rut" (or_intror (or_introl eq_refl))).
  vm_compute in H. discriminate.
Qed.

(** ** C10: a failing stage changes nothing but [error] *)

Import Graph.
Import Tuberia.

Ltac por_nombre H :=
  lazymatch type of H with
  | (if String.eqb ?n ?k then _ else _) = Some _ =>
      let E := fresh "E" in
      destruct (String.eqb n k) eqn:E;
      [ apply String.eqb_eq in E; subst n;
        injection H as H; subst
      | ]
  end.

(** C10: when one of the seven stage functions fails its check or
    catches an exception, it returns a state, and every field of that
    state other than [error] has the value it had on entry. *)
Theorem C10_failing_stage_keeps_fields
    (w : world) (name : string) (f : ProcessingState -> result)
    (s : ProcessingState) :
  get (etapas w) name = Some f ->
  precondicion_falla name s || excepcion_capturada w name s = true ->
  exists s', f s = Ok s' /\ mismo_salvo_error s s'.
Proof.
  unfold etapas. simpl. intros H Hf.
  repeat (por_nombre H;
          [ unfold excepcion_capturada, precondicion_falla, tiene_try,
              Reconciliacion.is_some in Hf;
            simpl in Hf; revert Hf
          | ]);
    try discriminate.
  - unfold paso_1_ocr.
    destruct (raises w "paso_1_ocr"); simpl; [|discriminate].
    intros _. eexists. split; [reflexivity|]. repeat split.
  - unfold paso_2_versioning.
    destruct (vacio (ocr_results s)); simpl.
    + intros _. eexists. split; [reflexivity|]. repeat split.
    + destruct (raises w "paso_2_versioning"); simpl; [|discriminate].
      intros _. eexists. split; [reflexivity|]. repeat split.
  - unfold paso_3_vectorization.
    destruct (vacio (ocr_results s) || vacio (versioning_results s));
      simpl; [|discriminate].
    intros _. eexists. split; [reflexivity|]. repeat split.
  - unfold paso_4_escritura_comparison.
    destruct (vacio (versioning_results s)); simpl.
    + intros _. eexists. split; [reflexivity|]. repeat split.
    + destruct (raises w "paso_4_escritura_comparison"); simpl;
        [|discriminate].
      destruct (vacio (get_default (versioning_results s) "escritura" []));
        simpl; [discriminate|].
      intros _. eexists. split; [reflexivity|]. repeat split.
  - unfold paso_5_legalizacion.
    destruct (vacio (ocr_results s) || vacio (versioning_results s)); simpl.
    + intros _. eexists. split; [reflexivity|]. repeat split.
    + destruct (raises w "paso_5_legalizacion"); simpl; [|discriminate].
      intros _. eexists. split; [reflexivity|]. repeat split.
  - unfold paso_7_version_comparison.
    destruct (vacio (versioning_results s)); simpl.
    + intros _. eexists. split; [reflexivity|]. repeat split.
    + destruct (raises w "paso_7_version_comparison"); simpl;
        [|discriminate].
      intros _. eexists. split; [reflexivity|]. repeat split.
  - unfold paso_8_report_generation.
    destruct (vacio (versioning_results s)); simpl.
    + intros _. eexists. split; [reflexivity|]. repeat split.
    + destruct (raises w "paso_8_report_generation"); simpl;
        [|discriminate].
      intros _. eexists. split; [reflexivity|]. repeat split.
Qed.

Lemma C10_failing_stage_keeps_fields_witness :
  exists s',
    paso_2_versioning Mundos.tranquilo sin_ocr = Ok s'
    /\ mismo_salvo_error sin_ocr s'.
Proof.
  apply (@C10_failing_stage_keeps_fields Mundos.tranquilo
           "paso_2_versioning" (paso_2_versioning Mundos.tranquilo) sin_ocr).
  - reflexivity.
  - reflexivity.
Defined.

(** ** C3: the first error and the stages after it *)

(** The state after stage 2 has no version chain as soon as stage 1 or
    stage 2 left a message in [error]. *)
Lemma error_temprano_sin_versiones (w : world) (carpeta : string)
    (s1 s2 : ProcessingState) :
  paso_1_ocr w (create_initial_state carpeta) = Ok s1 ->
  paso_2_versioning w (canales s1) = Ok s2 ->
  truthy (error s1) = true \/ truthy (error s2) = true ->
  versioning_results s2 = [].
Proof.
  intros E1 E2 Ht.
  destruct (GraphFacts.paso_1_returns w (create_initial_state carpeta))
    as (s1' & E1' & V1 & O1).
  rewrite E1 in E1'. injection E1' as <-.
  destruct (GraphFacts.paso_2_returns w (canales s1)) as (s2' & E2' & D2).
  rewrite E2 in E2'. injection E2' as <-.
  simpl in V1, O1, D2.
  destruct D2 as [V2 | [Ee Ho]].
  - now rewrite V2, V1.
  - exfalso. destruct O1 as [O1 | O1]; [|contradiction].
    rewrite Ee, O1 in Ht. destruct Ht; discriminate.
Qed.

(** A node of the graph that fails writes its own message, but for the
    check of stage 5. *)
Lemma falla_sobrescribe (w : world) (name : string)
    (f : ProcessingState -> result) (s : ProcessingState) :
  get (nodes (build_processing_graph w)) name = Some f ->
  precondicion_falla name s || excepcion_capturada w name s = true ->
  exists s', f s = Ok s' /\ sobrescribe name f s s'.
Proof.
  unfold build_processing_graph. simpl. intros H Hf.
  repeat (por_nombre H;
          [ unfold sobrescribe, excepcion_capturada, precondicion_falla,
              tiene_try, Reconciliacion.is_some in *;
            simpl in Hf; revert Hf
          | ]);
    try discriminate; simpl.
  - unfold paso_1_ocr.
    destruct (raises w "paso_1_ocr"); simpl; [|discriminate].
    intros _. eexists. split; [reflexivity|]. split; [reflexivity|].
    intros previo. eexists. split; reflexivity.
  - unfold paso_2_versioning. simpl.
    destruct (vacio (ocr_results s)); simpl.
    + intros _. eexists. split; [reflexivity|]. split; [reflexivity|].
      intros previo. eexists. split; reflexivity.
    + destruct (raises w "paso_2_versioning"); simpl; [|discriminate].
      intros _. eexists. split; [reflexivity|]. split; [reflexivity|].
      intros previo. eexists. split; reflexivity.
  - unfold paso_3_vectorization. simpl.
    destruct (vacio (ocr_results s) || vacio (versioning_results s));
      simpl; [|discriminate].
    intros _. eexists. split; [reflexivity|]. split; [reflexivity|].
    intros previo. eexists. split; reflexivity.
  - unfold paso_4_escritura_comparison. simpl.
    destruct (vacio (versioning_results s)); simpl.
    + intros _. eexists. split; [reflexivity|]. split; [reflexivity|].
      intros previo. eexists. split; reflexivity.
    + destruct (raises w "paso_4_escritura_comparison"); simpl;
        [|discriminate].
      destruct (vacio (get_default (versioning_results s) "escritura" []));
        simpl; [discriminate|].
      intros _. eexists. split; [reflexivity|]. split; [reflexivity|].
      intros previo. eexists. split; reflexivity.
  - unfold paso_5_legalizacion. simpl.
    destruct (vacio (ocr_results s) || vacio (versioning_results s)); simpl.
    + intros _. eexists. split; reflexivity.
    + destruct (raises w "paso_5_legalizacion"); simpl; [|discriminate].
      intros _. eexists. split; [reflexivity|]. split; [reflexivity|].
      intros previo. eexists. split; reflexivity.
  - unfold paso_8_report_generation. simpl.
    destruct (vacio (versioning_results s)); simpl.
    + intros _. eexists. split; [reflexivity|]. split; [reflexivity|].
      intros previo. eexists. split; reflexivity.
    + destruct (raises w "paso_8_report_generation"); simpl;
        [|discriminate].
      intros _. eexists. split; [reflexivity|]. split; [reflexivity|].
      intros previo. eexists. split; reflexivity.
Qed.

(** C3, as the code has it: the graph has no conditional edge, so a
    message in [error] stops nothing.  Every run executes the six stages
    in their fixed order, unless the vectorization stage, which has no
    handler, lets an exception escape.  A stage that fails its check or
    catches an exception writes its own message to [error], whatever
    [error] held before, except that the failed check of stage 5 returns
    the state as it came and so keeps the earlier message.  When the OCR
    stage or the versioning stage records an error, all six stages are
    executed and the message left at the end is that of the report
    stage. *)
Theorem C3_error_does_not_stop_the_run (w : world) (carpeta : string) :
  let hist := process_carpeta w carpeta in
  (map fst hist = seis_etapas
   \/ (map fst hist = tres_etapas
       /\ exists e,
            raises w "paso_3_vectorization" = Some e
            /\ nth_error hist 2 = Some ("paso_3_vectorization", Raised e)))
  /\ (forall i name r,
        i < 2 -> nth_error hist i = Some (name, r) ->
        truthy (error_de r) = true ->
        map fst hist = seis_etapas
        /\ exists s8,
             nth_error hist 5 = Some ("paso_8_report_generation", Ok s8)
             /\ error s8
                = "No hay resultados de versionado para generar informe")
  /\ (forall name f s,
        get (nodes (build_processing_graph w)) name = Some f ->
        precondicion_falla name s || excepcion_capturada w name s = true ->
        exists s', f s = Ok s' /\ sobrescribe name f s s').
Proof.
  simpl. rewrite GraphFacts.process_carpeta_eq.
  split; [|split; [|intros name f s; apply falla_sobrescribe]].
  - destruct (GraphFacts.paso_1_returns w (create_initial_state carpeta))
      as (s1 & E1 & _ & _).
    destruct (GraphFacts.paso_2_returns w (canales s1)) as (s2 & E2 & _).
    rewrite E1, E2.
    destruct (GraphFacts.paso_3_returns w (canales s2))
      as [(s3 & E3 & V3) | (e & E3 & Er & Hne)]; rewrite E3.
    + destruct (GraphFacts.paso_4_returns w (canales s3)) as (s4 & E4 & V4).
      destruct (GraphFacts.paso_5_returns w (canales s4)) as (s5 & E5 & V5).
      destruct (GraphFacts.paso_8_returns w (canales s5)) as (s8 & E8 & M8).
      rewrite E4, E5, E8. left; reflexivity.
    + right. split; [reflexivity|]. exists e. split; [exact Er|reflexivity].
  - destruct (GraphFacts.paso_1_returns w (create_initial_state carpeta))
      as (s1 & E1 & _ & _).
    destruct (GraphFacts.paso_2_returns w (canales s1)) as (s2 & E2 & _).
    pose proof (@error_temprano_sin_versiones w carpeta s1 s2 E1 E2) as Hv.
    rewrite E1, E2.
    destruct (GraphFacts.paso_3_returns w (canales s2))
      as [(s3 & E3 & V3) | (e & E3 & Er & Hne)]; rewrite E3.
    + destruct (GraphFacts.paso_4_returns w (canales s3)) as (s4 & E4 & V4).
      destruct (GraphFacts.paso_5_returns w (canales s4)) as (s5 & E5 & V5).
      destruct (GraphFacts.paso_8_returns w (canales s5)) as (s8 & E8 & M8).
      rewrite E4, E5, E8.
      intros i name r Hi Hn Ht. split; [reflexivity|].
      exists s8. split; [reflexivity|].
      apply M8. simpl in *. rewrite V5, V4, V3. apply Hv.
      destruct i as [|[|i]]; [| |lia]; simpl in Hn;
        injection Hn as <- <-; simpl in Ht; auto.
    + intros i name r Hi Hn Ht. exfalso. apply Hne. simpl. apply Hv.
      destruct i as [|[|i]]; [| |lia]; simpl in Hn;
        injection Hn as <- <-; simpl in Ht; auto.
Qed.

Lemma C3_error_does_not_stop_the_run_witness :
  map fst (process_carpeta Mundos.ocr_caido "c1") = seis_etapas
  /\ exists s8,
       nth_error (process_carpeta Mundos.ocr_caido "c1") 5
         = Some ("paso_8_report_generation", Ok s8)
       /\ error s8
          = "No hay resultados de versionado para generar informe".
Proof.
  apply (proj1 (proj2 (C3_error_does_not_stop_the_run Mundos.ocr_caido
                         "c1"))
           0 "paso_1_ocr"
           (Ok (with_error (create_initial_state "c1")
                  "Error en PASO 1: timeout"))).
  - lia.
  - reflexivity.
  - reflexivity.
Defined.

(** C3 as stated fails: when the OCR stage raises, its message is in
    [error] after the first stage, yet five more stages are executed. *)
Lemma C3_counterexample :
  ~ falla_rapido (process_carpeta Mundos.ocr_caido "c1").
Proof.
  intros H.
  destruct (H 0 "paso_1_ocr"
              (Ok (with_error (create_initial_state "c1")
                     "Error en PASO 1: timeout"))
              eq_refl eq_refl) as [Hlen _].
  vm_compute in Hlen. discriminate.
Qed.

(* ================================================================== *)
(** * Further properties of the code                                    *)
(* ================================================================== *)

(** ** The assigners as functions of their whole input *)

Module AssignerFacts.

Import ListFacts.

Lemma set_fresh {V} (d : dict V) k v :
  ~ In k (keys d) -> set d k v = d ++ [(k, v)].
Proof.
  unfold keys. induction d as [|[k0 v0] d IH]; simpl; auto.
  intros H. destruct (String.eqb k k0) eqn:E.
  - apply String.eqb_eq in E. subst. tauto.
  - rewrite IH; tauto.
Qed.

(** One assignment per entry of a dict fills the result in the same
    order. *)
Lemma fold_set_map {V W} (f : V -> W) (d : dict V) : forall init : dict W,
  NoDup (keys init ++ keys d) ->
  fold_left (fun r c => set r (fst c) (f (snd c))) d init
  = init ++ map (fun c => (fst c, f (snd c))) d.
Proof.
  induction d as [|[k v] d IH]; intros init Hn; simpl.
  - now rewrite app_nil_r.
  - rewrite set_fresh.
    + rewrite IH.
      * now rewrite <- app_assoc.
      * unfold keys in *. rewrite map_app. simpl.
        rewrite <- app_assoc. exact Hn.
    + apply NoDup_remove_2 in Hn. intros Hin. apply Hn.
      apply in_or_app. now left.
Qed.

Lemma NoDup_map_filter {A B} (f : A -> B) (p : A -> bool) l :
  NoDup (map f l) -> NoDup (map f (filter p l)).
Proof.
  induction l as [|x l IH]; simpl; auto.
  intros H. inversion H as [|? ? Hx Hl]; subst.
  destruct (p x); simpl; auto.
  constructor; auto.
  intros Hin. apply Hx. apply in_map_iff in Hin.
  destruct Hin as (y & Ey & Hy). apply filter_In in Hy.
  rewrite <- Ey. apply in_map. tauto.
Qed.

Lemma get_assign_versions cr dr cat :
  get (assign_versions cr dr) cat =
  match Orden.de_categoria categoria_de cat cr with
  | [] => None
  | xs => Some (versionar (map (entrada (fechas_map dr)) xs))
  end.
Proof.
  unfold assign_versions.
  rewrite ComparerFacts.get_fold_set.
  - unfold agrupar. rewrite GroupFacts.get_fold. simpl.
    now destruct (Orden.de_categoria categoria_de cat cr).
  - apply (GroupFacts.agrupar_spec categoria_de
             (entrada (fechas_map dr)) cr).
Qed.

Lemma ordenar_ocr_perm docs : Permutation (ordenar_ocr docs) docs.
Proof.
  unfold ordenar_ocr.
  eapply Permutation_trans.
  - apply Permutation_app; apply VersioningFacts.sorted_by_perm.
  - induction docs as [|d docs IH]; simpl; auto.
    destruct (String.eqb (p_fecha d) NO_FECHA); simpl.
    + eapply Permutation_trans; [apply Permutation_sym,
                                  Permutation_middle|].
      now apply perm_skip.
    + now apply perm_skip.
Qed.

Lemma numerar_filenames {A} (fn fe : A -> string) l :
  map v_filename (numerar fn fe l) = map fn l.
Proof.
  unfold numerar. rewrite map_map. simpl.
  rewrite <- (enumerate_snd l 1) at 2. now rewrite map_map.
Qed.

Lemma concat_map_perm {A B} (g : A -> list B) (h : A -> list B) ls :
  (forall l, Permutation (g l) (h l)) ->
  Permutation (List.concat (map g ls)) (List.concat (map h ls)).
Proof.
  intros H. induction ls as [|l ls IH]; simpl; auto.
  now apply Permutation_app.
Qed.

Lemma procesar_filename cc dc item :
  p_filename (procesar cc dc item) = o_filename item.
Proof.
  unfold procesar. destruct (cc (o_text item)); auto.
  now destruct (dc (o_text item)).
Qed.

(** The stable sort keeps the input order of the elements of one class
    of mutually ordered elements. *)
Lemma filter_insert {A} (le : A -> A -> bool) (p : A -> bool) x l :
  (forall a b, p a = true -> p b = true -> le a b = true) ->
  filter p (insert le x l) = filter p (x :: l).
Proof.
  intros H. induction l as [|y l IH]; simpl; auto.
  destruct (le x y) eqn:E; simpl; auto.
  simpl in IH. rewrite IH.
  destruct (p x) eqn:Px, (p y) eqn:Py; auto.
  rewrite (H x y Px Py) in E. discriminate.
Qed.

Lemma filter_sort {A} (le : A -> A -> bool) (p : A -> bool) l :
  (forall a b, p a = true -> p b = true -> le a b = true) ->
  filter p (sort le l) = filter p l.
Proof.
  intros H. induction l as [|x l IH]; simpl; auto.
  rewrite filter_insert by assumption. simpl. now rewrite IH.
Qed.

End AssignerFacts.

(** X1. With distinct file names, the chain that [assign_versions] gives
    a category is the same for every order of [classification_results]. *)
Theorem X1_assign_versions_order_independent
    (cr cr' : list classification) (dr : list dates) (cat : string) :
  NoDup (map c_filename cr) ->
  Permutation cr cr' ->
  get (assign_versions cr dr) cat = get (assign_versions cr' dr) cat.
Proof.
  intros Hn HP. rewrite !AssignerFacts.get_assign_versions.
  pose proof (VersioningFacts.Permutation_filter
                (fun x => String.eqb cat (categoria_de x)) HP) as HPf.
  fold (Orden.de_categoria categoria_de cat cr) in HPf.
  fold (Orden.de_categoria categoria_de cat cr') in HPf.
  destruct (Orden.de_categoria categoria_de cat cr) as [|x xs] eqn:E.
  - apply Permutation_nil in HPf. now rewrite HPf.
  - destruct (Orden.de_categoria categoria_de cat cr') as [|y ys] eqn:E'.
    + apply Permutation_sym, Permutation_nil in HPf. discriminate.
    + f_equal. apply VersioningFacts.versionar_reproducible.
      * rewrite <- E, map_map.
        apply (AssignerFacts.NoDup_map_filter c_filename). exact Hn.
      * now apply Permutation_map.
Qed.

Lemma X1_assign_versions_order_independent_witness :
  get (assign_versions clasificados_b_a []) "escritura"
  = get (assign_versions Empates.clasificados_a_b []) "escritura".
Proof.
  apply X1_assign_versions_order_independent.
  - repeat constructor; simpl; intuition discriminate.
  - apply perm_swap.
Defined.

Module FromOcrFacts.

Lemma from_ocr_perm (cc dc : string -> option string)
    (ocr : list ocr_item) :
  Permutation
    (map v_filename
       (List.concat (values (assign_versions_from_ocr cc dc ocr))))
    (map o_filename ocr).
Proof.
  unfold assign_versions_from_ocr, versionar_grupos.
  set (docs := map (procesar cc dc) ocr).
  destruct (GroupFacts.agrupar_spec categoria (fun d : processed => d) docs)
    as (Hk & Hp & _).
  fold (agrupar_procesados docs) in Hk, Hp.
  rewrite AssignerFacts.fold_set_map by exact Hk. simpl.
  set (g := agrupar_procesados docs) in *.
  unfold values. rewrite map_map. simpl.
  rewrite concat_map, map_map.
  eapply Permutation_trans.
  - apply AssignerFacts.concat_map_perm
      with (h := fun c : string * list processed =>
                   map p_filename (snd c)).
    intros c. unfold versionar_ocr.
    rewrite AssignerFacts.numerar_filenames.
    apply Permutation_map, AssignerFacts.ordenar_ocr_perm.
  - rewrite <- map_map with (f := snd) (g := map p_filename).
    rewrite <- concat_map.
    eapply Permutation_trans.
    + apply Permutation_map. exact Hp.
    + rewrite map_id. unfold docs. rewrite map_map.
      erewrite map_ext; [apply Permutation_refl|].
      intros item. apply AssignerFacts.procesar_filename.
Qed.

Lemma from_ocr_keys (cc dc : string -> option string)
    (ocr : list ocr_item) :
  NoDup (keys (assign_versions_from_ocr cc dc ocr)).
Proof.
  unfold assign_versions_from_ocr, versionar_grupos.
  set (docs := map (procesar cc dc) ocr).
  destruct (GroupFacts.agrupar_spec categoria (fun d : processed => d) docs)
    as (Hk & _).
  fold (agrupar_procesados docs) in Hk.
  rewrite AssignerFacts.fold_set_map by exact Hk. simpl.
  unfold keys in *. now rewrite map_map.
Qed.

Lemma from_ocr_nil (cc dc : string -> option string)
    (ocr : list ocr_item) :
  assign_versions_from_ocr cc dc ocr = [] <-> ocr = [].
Proof.
  split.
  - intros E. pose proof (from_ocr_perm cc dc ocr) as HP.
    rewrite E in HP. simpl in HP.
    apply Permutation_nil in HP. now destruct ocr.
  - intros ->. reflexivity.
Qed.

End FromOcrFacts.

(** X2. [assign_versions_from_ocr] numbers every document of
    [ocr_results] exactly once: the file names of all its chains are a
    permutation of the file names of the input, its categories are
    distinct, and it returns no category only for an empty input. *)
Theorem X2_from_ocr_numbers_every_document
    (cc dc : string -> option string) (ocr : list ocr_item) :
  let r := assign_versions_from_ocr cc dc ocr in
  Permutation (map v_filename (List.concat (values r))) (map o_filename ocr)
  /\ NoDup (keys r)
  /\ (r = [] <-> ocr = []).
Proof.
  simpl. split; [|split].
  - apply FromOcrFacts.from_ocr_perm.
  - apply FromOcrFacts.from_ocr_keys.
  - apply FromOcrFacts.from_ocr_nil.
Qed.

(** X3. [assign_versions_from_ocr] leaves documents of one date in the
    order of its input: in the chain of a category, the documents whose
    date text sorts as a given date are listed as in the category. *)
Theorem X3_from_ocr_same_date_keeps_input_order
    (docs : list processed) (k : Datetime.datetime) :
  filter (Empates.con_clave k) (map de_versioned (versionar_ocr docs))
  = filter (Empates.con_clave k) (map de_processed docs).
Proof.
  rewrite VersioningFacts.versionar_ocr_view.
  rewrite !ListFacts.filter_map_swap. f_equal.
  unfold ordenar_ocr. rewrite filter_app.
  rewrite ListFacts.filter_none with (l := sorted_by String.compare _ _).
  - rewrite app_nil_r. unfold sorted_by.
    rewrite AssignerFacts.filter_sort.
    + rewrite ReportFacts.filter_filter. apply filter_ext.
      intros d. unfold Empates.con_clave, de_processed. simpl.
      now destruct (String.eqb (p_fecha d) NO_FECHA).
    + intros a b Ha Hb. unfold Empates.con_clave, de_processed in Ha, Hb.
      simpl in Ha, Hb. apply andb_true_iff in Ha, Hb.
      destruct Ha as [_ Ha], Hb as [_ Hb].
      destruct (Datetime.compare (parse_fecha (p_fecha a)) k) eqn:Ea;
        try discriminate.
      destruct (Datetime.compare (parse_fecha (p_fecha b)) k) eqn:Eb;
        try discriminate.
      apply (Cmp.eq_iff CmpFacts.datetime_order) in Ea, Eb.
      rewrite Ea, Eb. unfold Cmp.leb_of.
      now rewrite (CmpFacts.cmp_refl CmpFacts.datetime_order).
  - apply VersioningFacts.sorted_by_Forall.
    eapply Forall_impl; [|apply ListFacts.filter_Forall].
    intros d Hd. simpl in Hd. unfold Empates.con_clave, de_processed.
    simpl. now rewrite Hd.
Qed.

(** ** The date text kept for a document *)

Module FechaFacts.

Import Datetime.

Lemma digit_le c : is_digit c = true -> (digit c <= 9)%N.
Proof.
  unfold is_digit, digit, nat_of_ascii.
  intros H. apply andb_true_iff in H. destruct H as [H1 H2].
  apply Nat.leb_le in H1, H2. lia.
Qed.

Lemma digit_not_N c : is_digit c = true -> Ascii.eqb c "N" = false.
Proof.
  intros H. destruct (Ascii.eqb_spec c "N"); auto.
  subst. discriminate.
Qed.

(** [f"{n:02d}"] is two digits that read back as [n]. *)
Lemma fmt02_digits n :
  (n < 100)%N ->
  exists a b,
    fmt02 n = String a (String b EmptyString)
    /\ is_digit a = true /\ is_digit b = true /\ dec2 a b = n.
Proof.
  intros Hn. unfold fmt02.
  pose proof (N.div_mod n 10 ltac:(lia)) as Hd.
  assert (n / 10 <= 9)%N as Hq.
  { apply N.lt_succ_r. apply N.Div0.div_lt_upper_bound. lia. }
  assert (n mod 10 < 10)%N as Hr by (apply N.mod_lt; lia).
  set (q := (n / 10)%N) in *. set (r := (n mod 10)%N) in *.
  exists (ascii_of_N (48 + q)), (ascii_of_N (48 + r)).
  split; [reflexivity|].
  unfold is_digit, dec2, digit, nat_of_ascii.
  rewrite !N_ascii_embedding by lia.
  repeat split.
  - apply andb_true_iff. split; apply Nat.leb_le; lia.
  - apply andb_true_iff. split; apply Nat.leb_le; lia.
  - lia.
Qed.

(** A successful alternation is the success of one of its branches. *)
Lemma alt_inv {R} alts (k : N -> string -> option R) s res :
  alt alts k s = Some res ->
  exists p v r, In p alts /\ p s = Some (v, r) /\ k v r = Some res.
Proof.
  induction alts as [|p alts IH]; simpl; [discriminate|].
  destruct (p s) as [[v r]|] eqn:Ep.
  - destruct (k v r) as [res'|] eqn:Ek.
    + intros H. injection H as <-. exists p, v, r. auto.
    + intros H. apply IH in H. destruct H as (p' & v' & r' & Hin & H).
      exists p', v', r'. auto.
  - intros H. apply IH in H. destruct H as (p' & v' & r' & Hin & H).
    exists p', v', r'. auto.
Qed.

Lemma digits12_inv {R} (k : N -> string -> option R) s res :
  digits12 k s = Some res ->
  exists v r, (v < 100)%N /\ k v r = Some res.
Proof.
  unfold digits12. intros H. apply alt_inv in H.
  destruct H as (p & v & r & Hin & Hp & Hk).
  exists v, r. split; auto.
  destruct Hin as [<-|[<-|[]]].
  - unfold two in Hp. destruct s as [|a [|b s]]; try discriminate.
    destruct (is_digit a) eqn:Ea, (is_digit b) eqn:Eb; simpl in Hp;
      try discriminate.
    inversion Hp; subst. unfold dec2.
    apply digit_le in Ea, Eb. lia.
  - unfold one in Hp. destruct s as [|a s]; try discriminate.
    destruct (is_digit a) eqn:Ea; [|discriminate].
    inversion Hp; subst. apply digit_le in Ea. lia.
Qed.

Local Notation "'cuatro_digitos'" := Empates.cuatro_digitos.

Lemma digits4_inv s y : digits4 s = Some y -> cuatro_digitos y.
Proof.
  unfold digits4. destruct s as [|a [|b [|c [|d s]]]]; try discriminate.
  destruct (is_digit a) eqn:Ea; [|discriminate].
  destruct (is_digit b) eqn:Eb; [|discriminate].
  destruct (is_digit c) eqn:Ec; [|discriminate].
  destruct (is_digit d) eqn:Ed; [|discriminate].
  intros H. injection H as <-. exists a, b, c, d. auto.
Qed.

Lemma fecha_match_at_inv s dia mes anio :
  fecha_match_at s = Some (dia, mes, anio) ->
  (dia < 100)%N /\ (mes < 100)%N /\ cuatro_digitos anio.
Proof.
  unfold fecha_match_at. intros H.
  apply digits12_inv in H. destruct H as (v & r & Hv & H).
  unfold dash in H. destruct r as [|c r]; [discriminate|].
  destruct (Ascii.eqb_spec c "-"); [subst c|].
  2:{ destruct c as [[] [] [] [] [] [] [] []]; try discriminate.
      contradiction. }
  apply digits12_inv in H. destruct H as (v' & r' & Hv' & H).
  destruct r' as [|c r']; [discriminate|].
  destruct (Ascii.eqb_spec c "-"); [subst c|].
  2:{ destruct c as [[] [] [] [] [] [] [] []]; try discriminate.
      contradiction. }
  destruct (digits4 r') as [y|] eqn:Ey; [|discriminate].
  injection H as <- <- <-. apply digits4_inv in Ey. auto.
Qed.

Lemma fecha_search_inv s dia mes anio :
  fecha_search s = Some (dia, mes, anio) ->
  (dia < 100)%N /\ (mes < 100)%N /\ cuatro_digitos anio.
Proof.
  induction s as [|c s IH]; cbn [fecha_search].
  - destruct (fecha_match_at EmptyString) as [g|] eqn:E; [|discriminate].
    intros H. inversion H; subst. now apply fecha_match_at_inv in E.
  - destruct (fecha_match_at (String c s)) as [g|] eqn:E; auto.
    intros H. inversion H; subst. now apply fecha_match_at_inv in E.
Qed.

Lemma fecha_search_head s g :
  fecha_match_at s = Some g -> fecha_search s = Some g.
Proof.
  intros H. destruct s; cbn [fecha_search]; now rewrite H.
Qed.

(** The text written for a match is matched again, at its start, with
    the same day, month and year. *)
Lemma fecha_match_at_render dia mes anio :
  (dia < 100)%N -> (mes < 100)%N -> cuatro_digitos anio ->
  fecha_match_at (fmt02 dia ++ "-" ++ fmt02 mes ++ "-" ++ anio)%string
  = Some (dia, mes, anio)
  /\ String.eqb (fmt02 dia ++ "-" ++ fmt02 mes ++ "-" ++ anio)%string
       NO_FECHA = false.
Proof.
  intros Hd Hm (y1 & y2 & y3 & y4 & -> & E1 & E2 & E3 & E4).
  destruct (fmt02_digits Hd) as (a & b & -> & Ea & Eb & <-).
  destruct (fmt02_digits Hm) as (c & d & -> & Ec & Ed & <-).
  split.
  - unfold fecha_match_at, digits12, two, dash, digits4. simpl.
    rewrite Ea, Eb. simpl. rewrite Ec, Ed. simpl.
    rewrite E1, E2, E3, E4. reflexivity.
  - simpl. now rewrite (digit_not_N _ Ea).
Qed.

End FechaFacts.

(** X4. The date validation of [assign_versions_from_ocr] is idempotent:
    the text it keeps for a document is kept unchanged when validated
    again. *)
Theorem X4_fecha_final_idempotent (fecha_texto : string) :
  fecha_final (fecha_final fecha_texto) = fecha_final fecha_texto.
Proof.
  unfold fecha_final at 2 3.
  destruct (String.eqb fecha_texto NO_FECHA) eqn:E; [reflexivity|].
  destruct (fecha_search fecha_texto) as [[[dia mes] anio]|] eqn:Es.
  - apply FechaFacts.fecha_search_inv in Es. destruct Es as (Hd & Hm & Hy).
    destruct (FechaFacts.fecha_match_at_render Hd Hm Hy) as [Hr Hn].
    unfold fecha_final. rewrite Hn.
    now rewrite (FechaFacts.fecha_search_head _ Hr).
  - unfold fecha_final. now rewrite E, Es.
Qed.

(** ** A reply that is a date *)

Module FechaDateFacts.

Import Datetime.
Import FechaFacts.

Lemma dash_inv {R} (k : string -> option R) s res :
  dash k s = Some res ->
  exists r, s = String "-" r /\ k r = Some res.
Proof.
  unfold dash. destruct s as [|c r]; [discriminate|].
  destruct (Ascii.eqb_spec c "-") as [->|Hc].
  - intros H. exists r. auto.
  - destruct c as [[] [] [] [] [] [] [] []]; try discriminate.
    contradiction.
Qed.

Lemma between_digit lo hi c :
  between lo hi c = true -> 48 <= lo -> hi <= 57 -> is_digit c = true.
Proof.
  unfold between, is_digit. intros H Hlo Hhi.
  apply andb_true_iff in H. destruct H as [H1 H2].
  apply Nat.leb_le in H1, H2.
  apply andb_true_iff. split; apply Nat.leb_le; lia.
Qed.

Lemma year_end_inv s y :
  year_end s = Some y -> Empates.cuatro_digitos s.
Proof.
  unfold year_end. destruct s as [|a [|b [|c [|d [|e s]]]]]; try discriminate.
  destruct (is_digit a) eqn:Ea, (is_digit b) eqn:Eb,
    (is_digit c) eqn:Ec, (is_digit d) eqn:Ed; simpl; try discriminate.
  intros _. exists a, b, c, d. auto.
Qed.

Lemma digits4_exact s : Empates.cuatro_digitos s -> digits4 s = Some s.
Proof.
  intros (a & b & c & d & -> & Ea & Eb & Ec & Ed).
  unfold digits4. now rewrite Ea, Eb, Ec, Ed.
Qed.

Local Notation "'resto'" := Empates.resto.

Lemma fecha_search_skip c s :
  fecha_match_at (String c s) = None ->
  fecha_search (String c s) = fecha_search s.
Proof. intros H. cbn [fecha_search]. now rewrite H. Qed.

(** A month accepted by [%m], followed by the year, is read by the
    pattern of the validation as the same month and year. *)
Lemma month_tail q r1 mv r3 yv dia :
  In q month_alts -> q r1 = Some (mv, String "-" r3) ->
  year_end r3 = Some yv ->
  resto dia r1 = Some (dia, mv, r3).
Proof.
  intros Hq Hr1 Hy. apply year_end_inv in Hy.
  pose proof (digits4_exact Hy) as H4.
  unfold Empates.resto, digits12.
  destruct Hq as [<-|[<-|[<-|[]]]].
  - unfold two in Hr1. destruct r1 as [|c [|d r]]; try discriminate.
    destruct (between 49 49 c) eqn:Ec, (between 48 50 d) eqn:Ed;
      simpl in Hr1; try discriminate.
    inversion Hr1; subst.
    apply between_digit in Ec, Ed; try lia.
    simpl. unfold two. rewrite Ec, Ed. simpl. now rewrite H4.
  - unfold two in Hr1. destruct r1 as [|c [|d r]]; try discriminate.
    destruct (between 48 48 c) eqn:Ec, (between 49 57 d) eqn:Ed;
      simpl in Hr1; try discriminate.
    inversion Hr1; subst.
    apply between_digit in Ec, Ed; try lia.
    simpl. unfold two. rewrite Ec, Ed. simpl. now rewrite H4.
  - unfold one in Hr1. destruct r1 as [|c r]; try discriminate.
    destruct (between 49 57 c) eqn:Ec; try discriminate.
    inversion Hr1; subst.
    apply between_digit in Ec; try lia.
    simpl. unfold two, one. rewrite Ec. simpl. now rewrite H4.
Qed.

Lemma fecha_match_at_eq s :
  fecha_match_at s = digits12 (fun dia => dash (resto dia)) s.
Proof. reflexivity. Qed.

Lemma not_NO_FECHA c s :
  is_digit c = true \/ c = " "%char ->
  String.eqb (String c s) NO_FECHA = false.
Proof.
  intros [H| ->]; simpl; auto. now rewrite (digit_not_N _ H).
Qed.

(** A day accepted by [%d], followed by the rest of a date, is found by
    the search of the validation, with the same day. *)
Lemma day_head p s dv r1 res :
  In p day_alts -> p s = Some (dv, String "-" r1) ->
  resto dv r1 = Some res ->
  fecha_search s = Some res /\ String.eqb s NO_FECHA = false.
Proof.
  intros Hp Hs Hr.
  destruct Hp as [<-|[<-|[<-|[<-|[<-|[]]]]]].
  - unfold two in Hs. destruct s as [|a [|b r]]; try discriminate.
    destruct (between 51 51 a) eqn:Ea, (between 48 49 b) eqn:Eb;
      simpl in Hs; try discriminate.
    inversion Hs; subst.
    apply between_digit in Ea, Eb; try lia.
    split; [|apply not_NO_FECHA; auto].
    apply fecha_search_head. rewrite fecha_match_at_eq.
    unfold digits12. simpl. unfold two. rewrite Ea, Eb. simpl.
    now rewrite Hr.
  - unfold two in Hs. destruct s as [|a [|b r]]; try discriminate.
    destruct (between 49 50 a) eqn:Ea, (is_digit b) eqn:Eb;
      simpl in Hs; try discriminate.
    inversion Hs; subst.
    apply between_digit in Ea; try lia.
    split; [|apply not_NO_FECHA; auto].
    apply fecha_search_head. rewrite fecha_match_at_eq.
    unfold digits12. simpl. unfold two. rewrite Ea, Eb. simpl.
    now rewrite Hr.
  - unfold two in Hs. destruct s as [|a [|b r]]; try discriminate.
    destruct (between 48 48 a) eqn:Ea, (between 49 57 b) eqn:Eb;
      simpl in Hs; try discriminate.
    inversion Hs; subst.
    apply between_digit in Ea, Eb; try lia.
    split; [|apply not_NO_FECHA; auto].
    apply fecha_search_head. rewrite fecha_match_at_eq.
    unfold digits12. simpl. unfold two. rewrite Ea, Eb. simpl.
    now rewrite Hr.
  - unfold one in Hs. destruct s as [|a r]; try discriminate.
    destruct (between 49 57 a) eqn:Ea; try discriminate.
    inversion Hs; subst.
    apply between_digit in Ea; try lia.
    split; [|apply not_NO_FECHA; auto].
    apply fecha_search_head. rewrite fecha_match_at_eq.
    unfold digits12. simpl. unfold two, one. rewrite Ea. simpl.
    now rewrite Hr.
  - unfold two in Hs. destruct s as [|a [|b r]]; try discriminate.
    destruct (between 32 32 a) eqn:Ea, (between 49 57 b) eqn:Eb;
      simpl in Hs; try discriminate.
    inversion Hs; subst.
    assert (a = " "%char) as ->.
    { unfold between in Ea. apply andb_true_iff in Ea.
      destruct Ea as [E1 E2]. apply Nat.leb_le in E1, E2.
      rewrite <- (ascii_nat_embedding a).
      replace (nat_of_ascii a) with 32 by lia. reflexivity. }
    apply between_digit in Eb; try lia.
    split; [|apply not_NO_FECHA; auto].
    rewrite fecha_search_skip by reflexivity.
    apply fecha_search_head. rewrite fecha_match_at_eq.
    unfold digits12. simpl. unfold two, one. rewrite Eb. simpl.
    now rewrite Hr.
Qed.

(** What [%d] and [%m] make of a number written with two digits. *)
Lemma day_render {R} (k : N -> string -> option R) d rest res :
  (1 <= d <= 31)%N -> k d rest = Some res ->
  alt day_alts k (fmt02 d ++ rest)%string = Some res.
Proof.
  intros Hd Hk.
  destruct d as [|p]; [lia|].
  do 5 (try destruct p as [p|p|]); try lia;
    cbv -[N.le N.lt]; cbv in Hk; now rewrite Hk.
Qed.

Lemma month_render {R} (k : N -> string -> option R) m rest res :
  (1 <= m <= 12)%N -> k m rest = Some res ->
  alt month_alts k (fmt02 m ++ rest)%string = Some res.
Proof.
  intros Hm Hk.
  destruct m as [|p]; [lia|].
  do 4 (try destruct p as [p|p|]); try lia;
    cbv -[N.le N.lt]; cbv in Hk; now rewrite Hk.
Qed.

End FechaDateFacts.

(** X5. The date validation keeps the date: when the reply of the model
    is a text that [strptime] reads as a date, padded or not, the text
    kept for the document is read as the same date. *)
Theorem X5_fecha_final_keeps_the_date
    (fecha_texto : string) (dt : Datetime.datetime) :
  Datetime.strptime fecha_texto = Some dt ->
  Datetime.strptime (fecha_final fecha_texto) = Some dt.
Proof.
  unfold Datetime.strptime at 1.
  destruct (Datetime.alt Datetime.day_alts _ fecha_texto)
    as [[[y m] d]|] eqn:E; [|discriminate].
  destruct (Datetime.valid_date y m d) eqn:V; [|discriminate].
  intros H. injection H as <-.
  apply FechaFacts.alt_inv in E.
  destruct E as (p & dv & r & Hp & Hps & E).
  apply FechaDateFacts.dash_inv in E. destruct E as (r1 & -> & E).
  apply FechaFacts.alt_inv in E.
  destruct E as (q & mv & r2 & Hq & Hqs & E).
  apply FechaDateFacts.dash_inv in E. destruct E as (r3 & -> & E).
  destruct (Datetime.year_end r3) as [yv|] eqn:Ey; [|discriminate].
  inversion E; subst yv mv dv. clear E.
  pose proof (@FechaDateFacts.month_tail _ _ _ _ _ d Hq Hqs Ey) as Hr.
  destruct (@FechaDateFacts.day_head _ _ _ _ _ Hp Hps Hr)
    as [Hsearch Hno].
  unfold fecha_final. rewrite Hno, Hsearch.
  assert ((1 <= d <= 31)%N /\ (1 <= m <= 12)%N) as [Hd Hm].
  { pose proof (DatetimeFacts.days_in_month_le y m).
    unfold Datetime.valid_date in V.
    repeat (apply andb_true_iff in V; destruct V as [V ?]).
    repeat match goal with
           | H : (_ <=? _)%N = true |- _ => apply N.leb_le in H
           end.
    lia. }
  unfold Datetime.strptime.
  erewrite FechaDateFacts.day_render with (res := (y, m, d));
    [now rewrite V|exact Hd|].
  cbn [append Datetime.dash].
  erewrite FechaDateFacts.month_render with (res := (y, m, d));
    [reflexivity|exact Hm|].
  cbn [append Datetime.dash]. now rewrite Ey.
Qed.

Lemma X5_fecha_final_keeps_the_date_witness :
  Datetime.strptime (fecha_final " 5-3-2019")
  = Some (Datetime.mk 2019 3 5 0 0 0 0).
Proof.
  apply X5_fecha_final_keeps_the_date. reflexivity.
Defined.

(** ** The comparer, category by category *)

Module ComparerMore.

Import Comparer.

Lemma consecutivos_fst {A} (l : list A) :
  map fst (consecutivos l) = removelast l.
Proof.
  induction l as [|x l IH]; simpl; auto.
  destruct l as [|y l]; simpl in *; auto.
  now rewrite IH.
Qed.

Lemma consecutivos_snd {A} (l : list A) :
  map snd (consecutivos l) = tl l.
Proof.
  induction l as [|x l IH]; simpl; auto.
  destruct l as [|y l]; simpl in *; auto.
  now rewrite IH.
Qed.

Lemma take_length n s : String.length (take n s) <= N.to_nat n.
Proof.
  unfold take. generalize (N.to_nat n) as m. intros m. revert s.
  induction m as [|m IH]; intros s.
  - destruct s; simpl; lia.
  - destruct s as [|c s]; simpl; [lia|].
    specialize (IH s). lia.
Qed.

Lemma take_truthy n s :
  (0 < n)%N -> truthy s = true -> truthy (take n s) = true.
Proof.
  unfold take. intros Hn.
  destruct (N.to_nat n) as [|m] eqn:E; [lia|].
  destruct s; simpl; auto.
Qed.

Lemma fold_left_ext {A B} (f g : A -> B -> A) l :
  (forall a b, f a b = g a b) ->
  forall init, fold_left f l init = fold_left g l init.
Proof.
  intros H. induction l as [|x l IH]; intros init; simpl; auto.
  now rewrite H, IH.
Qed.

End ComparerMore.

(** X6. [comparar_versiones] works category by category: its result has
    the categories of [versioning_results], in the same order, each with
    the comparisons of its own chain, also when the chain is too short
    to compare. *)
Theorem X6_comparar_versiones_by_category
    (max_chars_doc : N) (llm : string -> string -> option Comparer.diferencias)
    (versioning_results : dict (list versioned))
    (ocr_results : list ocr_item) :
  NoDup (keys versioning_results) ->
  Comparer.comparar_versiones max_chars_doc llm versioning_results
    ocr_results
  = map (fun c =>
           (fst c,
            Comparer.comparar_categoria max_chars_doc llm
              (Comparer.ocr_index ocr_results) (snd c)))
      versioning_results.
Proof.
  intros Hn. unfold Comparer.comparar_versiones.
  now rewrite AssignerFacts.fold_set_map.
Qed.

Lemma X6_comparar_versiones_by_category_witness :
  Comparer.comparar_versiones 16000 Pares.llm_un_cambio
    [("escritura", Pares.cadena_abc); ("cedula", [])] Pares.ocr_abc
  = map (fun c =>
           (fst c,
            Comparer.comparar_categoria 16000 Pares.llm_un_cambio
              (Comparer.ocr_index Pares.ocr_abc) (snd c)))
      [("escritura", Pares.cadena_abc); ("cedula", [])].
Proof.
  apply X6_comparar_versiones_by_category.
  repeat constructor; simpl; intuition discriminate.
Defined.

(** X7. The comparisons of a chain of two documents or more link the
    chain end to end: sorted by version, the documents but the last are
    the [de] ends, in order, and the documents but the first are the [a]
    ends, whatever the version numbers are. *)
Theorem X7_comparisons_link_the_chain
    (max_chars_doc : N) (llm : string -> string -> option Comparer.diferencias)
    (index : dict string) (docs : list versioned) :
  2 <= List.length docs ->
  let comps := Comparer.comparar_categoria max_chars_doc llm index docs in
  let ordenados := sorted_by Nat.compare version docs in
  Permutation ordenados docs
  /\ StronglySorted (fun x y => version x <= version y) ordenados
  /\ map Comparer.de comps = removelast ordenados
  /\ map Comparer.a comps = tl ordenados.
Proof.
  intros H2. simpl. unfold Comparer.comparar_categoria.
  assert ((List.length docs <? 2)%nat = false) as ->
      by (apply Nat.ltb_ge; lia).
  repeat split.
  - apply VersioningFacts.sorted_by_perm.
  - eapply ListFacts.sorted_weaken_on with (P := fun _ => True);
      [| |apply (VersioningFacts.sorted_by_sorted CmpFacts.nat_order)].
    + intros x y _ _ H. unfold Cmp.leb_of in H.
      destruct (Nat.compare_spec (version x) (version y));
        try lia; discriminate.
    + apply Forall_forall. auto.
  - rewrite map_map. simpl. rewrite <- map_map with (g := fun x => x).
    rewrite map_id. apply ComparerMore.consecutivos_fst.
  - rewrite map_map. simpl. rewrite <- map_map with (g := fun x => x).
    rewrite map_id. apply ComparerMore.consecutivos_snd.
Qed.

Lemma X7_comparisons_link_the_chain_witness :
  map Comparer.de
    (Comparer.comparar_categoria 16000 Pares.llm_un_cambio
       (Comparer.ocr_index Pares.ocr_abc) Pares.cadena_abc)
  = removelast (sorted_by Nat.compare version Pares.cadena_abc).
Proof.
  apply (@X7_comparisons_link_the_chain 16000 Pares.llm_un_cambio
           (Comparer.ocr_index Pares.ocr_abc) Pares.cadena_abc).
  simpl. lia.
Defined.

(** X8. The comparer calls the model only on two texts that are not
    empty and are at most 8000 characters long: two models that agree on
    such pairs give the same comparisons. *)
Theorem X8_comparer_model_inputs
    (max_chars_doc : N)
    (llm llm' : string -> string -> option Comparer.diferencias)
    (versioning_results : dict (list versioned))
    (ocr_results : list ocr_item) :
  (forall x y,
     truthy x = true -> truthy y = true ->
     (N.of_nat (String.length x) <= 8000)%N ->
     (N.of_nat (String.length y) <= 8000)%N ->
     llm x y = llm' x y) ->
  Comparer.comparar_versiones max_chars_doc llm versioning_results
    ocr_results
  = Comparer.comparar_versiones max_chars_doc llm' versioning_results
      ocr_results.
Proof.
  intros H. unfold Comparer.comparar_versiones.
  apply ComparerMore.fold_left_ext. intros r c. f_equal.
  unfold Comparer.comparar_categoria.
  destruct (List.length (snd c) <? 2)%nat; auto.
  apply map_ext. intros p. f_equal.
  unfold Comparer._compare_texts.
  destruct (truthy (Comparer._find_text max_chars_doc _
                      (v_filename (fst p)))) eqn:E1; simpl; auto.
  destruct (truthy (Comparer._find_text max_chars_doc _
                      (v_filename (snd p)))) eqn:E2; simpl; auto.
  rewrite H; auto.
  - apply ComparerMore.take_truthy; [lia|assumption].
  - apply ComparerMore.take_truthy; [lia|assumption].
  - pose proof (ComparerMore.take_length 8000 (Comparer._find_text
        max_chars_doc (Comparer.ocr_index ocr_results)
        (v_filename (fst p)))). lia.
  - pose proof (ComparerMore.take_length 8000 (Comparer._find_text
        max_chars_doc (Comparer.ocr_index ocr_results)
        (v_filename (snd p)))). lia.
Qed.

Lemma X8_comparer_model_inputs_witness :
  Comparer.comparar_versiones 16000 Pares.llm_un_cambio
    [("escritura", Pares.cadena_abc)] Pares.ocr_a_c
  = Comparer.comparar_versiones 16000
      (fun x y => if truthy x then Pares.llm_un_cambio x y else None)
      [("escritura", Pares.cadena_abc)] Pares.ocr_a_c.
Proof.
  apply X8_comparer_model_inputs.
  intros x y Hx _ _ _. now rewrite Hx.
Defined.

(** ** The reconciler's record *)

Module ReportMore.

Import Report.

Lemma keys_set_in {V} (d : dict V) k v :
  In k (keys d) -> keys (set d k v) = keys d.
Proof.
  unfold keys. induction d as [|[k0 v0] d IH]; simpl; [tauto|].
  intros H. destruct (String.eqb k k0) eqn:E; simpl; auto.
  f_equal. apply IH. destruct H as [H|H]; auto.
  subst. now rewrite String.eqb_refl in E.
Qed.

Lemma remove_subset x l y : In y (remove x l) -> In y l.
Proof.
  induction l as [|z l IH]; simpl; auto.
  destruct (String.eqb x z); simpl; tauto.
Qed.

Lemma llenar_keys doc_result fields : forall result empty_fields,
  (forall f, In f fields -> In f (keys result)) ->
  keys (fst (llenar doc_result fields result empty_fields)) = keys result.
Proof.
  induction fields as [|field fields IH]; intros result ef H; simpl; auto.
  assert (forall f, In f fields -> In f (keys result)) as H'
      by (intros f Hf; apply H; now right).
  destruct (get doc_result field) as [v|]; auto.
  destruct (truthy v && strip_truthy v); auto.
  rewrite IH; rewrite keys_set_in; auto; apply H; now left.
Qed.

Lemma llenar_subset doc_result fields : forall result empty_fields x,
  In x (snd (llenar doc_result fields result empty_fields)) ->
  In x empty_fields.
Proof.
  induction fields as [|field fields IH]; intros result ef x; simpl; auto.
  destruct (get doc_result field) as [v|]; [|apply IH].
  destruct (truthy v && strip_truthy v); [|apply IH].
  intros H. apply IH in H. eapply remove_subset; eauto.
Qed.

Lemma completar_keys ocr_results extraer docs :
  forall result empty_fields,
  (forall f, In f empty_fields -> In f (keys result)) ->
  keys (completar ocr_results extraer docs result empty_fields)
  = keys result.
Proof.
  induction docs as [|doc docs IH]; intros result ef H; simpl; auto.
  destruct ef as [|e ef']; auto.
  destruct (negb (truthy (_ocr_text_by_filename ocr_results
                            (v_filename doc)))); auto.
  set (dr := extraer _).
  pose proof (llenar_keys dr (e :: ef') result (e :: ef') H) as Hk.
  pose proof (llenar_subset dr (e :: ef') result (e :: ef')) as Hs.
  destruct (snd (llenar dr (e :: ef') result (e :: ef'))) as [|e1 ef1];
    auto.
  rewrite IH; auto.
  intros f Hf. rewrite Hk. apply H, Hs, Hf.
Qed.

Lemma con_prioridad_keys ocr_results extraer sin_texto docs :
  keys (con_prioridad ocr_results extraer sin_texto docs)
  = match docs with
    | [] => keys sin_texto
    | latest_doc :: _ =>
        let latest_text :=
          _ocr_text_by_filename ocr_results (v_filename latest_doc) in
        if truthy latest_text then keys (extraer latest_text)
        else keys sin_texto
    end.
Proof.
  destruct docs as [|latest docs]; simpl; auto.
  destruct (truthy (_ocr_text_by_filename ocr_results
                      (v_filename latest))); simpl; auto.
  pose proof (@ReportFacts.empty_fields_keys
                (extraer (_ocr_text_by_filename ocr_results
                            (v_filename latest)))) as H.
  destruct (_get_empty_fields _) as [|e ef]; auto.
  now apply completar_keys.
Qed.

Lemma con_prioridad_ext ocr_results extraer extraer' sin_texto docs :
  (forall t, truthy t = true -> extraer t = extraer' t) ->
  con_prioridad ocr_results extraer sin_texto docs
  = con_prioridad ocr_results extraer' sin_texto docs.
Proof.
  intros H.
  assert (forall l result ef,
            completar ocr_results extraer l result ef
            = completar ocr_results extraer' l result ef) as Hc.
  { induction l as [|doc l IH]; intros result ef; [reflexivity|].
    cbn [completar]. destruct ef as [|e ef']; auto.
    destruct (truthy (_ocr_text_by_filename ocr_results
                        (v_filename doc))) eqn:E; cbn [negb]; auto.
    rewrite (H _ E).
    destruct (snd (llenar (extraer' _) (e :: ef') result (e :: ef')));
      auto. }
  destruct docs as [|latest docs]; simpl; auto.
  destruct (truthy (_ocr_text_by_filename ocr_results
                      (v_filename latest))) eqn:E; simpl; auto.
  rewrite (H _ E). destruct (_get_empty_fields _); auto.
Qed.

End ReportMore.

(** X9. Reconciliation never adds and never drops a field: the record
    [_extract_section_with_date_priority] returns has exactly the fields,
    in the same order, of what was extracted from the newest deed
    (descending date order), and no field at all when there is no deed
    or the newest deed has no text; older documents only give values. *)
Theorem X9_reconciled_fields_of_newest_record
    (llm_secciones : string -> string -> Report.reply Report.FieldRecord)
    (seccion : string)
    (versioning_results : dict (list versioned))
    (ocr_results : list ocr_item) :
  keys (Report._extract_section_with_date_priority llm_secciones seccion
          versioning_results ocr_results)
  = match Report.por_fecha_desc
            (get_default versioning_results "escritura" []) with
    | [] => []
    | latest_doc :: _ =>
        let latest_text :=
          Report._ocr_text_by_filename ocr_results
            (v_filename latest_doc) in
        if truthy latest_text
        then keys (Report._extract_section_from_text llm_secciones seccion
                     latest_text)
        else []
    end.
Proof.
  unfold Report._extract_section_with_date_priority.
  destruct (get_default versioning_results "escritura" []) as [|d l] eqn:E.
  - reflexivity.
  - rewrite ReportMore.con_prioridad_keys.
    destruct (Report.por_fecha_desc (d :: l)); reflexivity.
Qed.

(** X10. The header takes its fields from the newest deed in the same
    way: the fields of the [informesociedad] object extracted from the
    newest deed's text, and the three empty header fields when there is
    no deed or the newest deed has no text. *)
Theorem X10_header_fields_of_newest_record
    (llm_encabezado : string -> Report.reply (dict Report.FieldRecord))
    (versioning_results : dict (list versioned))
    (ocr_results : list ocr_item) :
  keys (Report._extract_encabezado_with_date_priority llm_encabezado
          versioning_results ocr_results)
  = match Report.por_fecha_desc
            (get_default versioning_results "escritura" []) with
    | [] => ["razon_social"; "rut"; "nombre_fantasia"]
    | latest_doc :: _ =>
        let latest_text :=
          Report._ocr_text_by_filename ocr_results
            (v_filename latest_doc) in
        if truthy latest_text
        then keys (get_default
                     (Report._llm_json (llm_encabezado latest_text))
                     "informesociedad" [])
        else ["razon_social"; "rut"; "nombre_fantasia"]
    end.
Proof.
  unfold Report._extract_encabezado_with_date_priority.
  destruct (get_default versioning_results "escritura" []) as [|d l] eqn:E.
  - reflexivity.
  - rewrite ReportMore.con_prioridad_keys.
    destruct (Report.por_fecha_desc (d :: l)); reflexivity.
Qed.

(** X11. The section extractor shows the model only texts that are not
    empty and are at most 16000 characters long: two models that agree
    on such texts give the same reconciled record. *)
Theorem X11_section_model_inputs
    (llm llm' : string -> string -> Report.reply Report.FieldRecord)
    (seccion : string)
    (versioning_results : dict (list versioned))
    (ocr_results : list ocr_item) :
  (forall text,
     truthy text = true ->
     (N.of_nat (String.length text) <= 16000)%N ->
     llm seccion text = llm' seccion text) ->
  Report._extract_section_with_date_priority llm seccion
    versioning_results ocr_results
  = Report._extract_section_with_date_priority llm' seccion
      versioning_results ocr_results.
Proof.
  intros H. unfold Report._extract_section_with_date_priority.
  destruct (get_default versioning_results "escritura" []); auto.
  apply ReportMore.con_prioridad_ext. intros t Ht.
  unfold Report._extract_section_from_text. rewrite H; auto.
  - now apply ComparerMore.take_truthy.
  - pose proof (ComparerMore.take_length 16000 t). lia.
Qed.

Lemma X11_section_model_inputs_witness :
  Report._extract_section_with_date_priority
    Reconciliacion.llm_secciones_hueco "administracion"
    [("escritura", Reconciliacion.cadena_vn)] Reconciliacion.ocr_vn
  = Report._extract_section_with_date_priority
      (fun s t =>
         if truthy t then Reconciliacion.llm_secciones_hueco s t
         else Report.NotJson)
      "administracion"
      [("escritura", Reconciliacion.cadena_vn)] Reconciliacion.ocr_vn.
Proof.
  apply X11_section_model_inputs.
  intros text Ht _. now rewrite Ht.
Defined.

(** ** The whole run *)

Module RunFacts.

Import Graph.
Import Orquestador.

Lemma from_ocr_vacio (cc dc : string -> option string)
    (ocr : list ocr_item) :
  vacio (assign_versions_from_ocr cc dc ocr) = vacio ocr.
Proof.
  pose proof (FromOcrFacts.from_ocr_nil cc dc ocr) as [H1 H2].
  destruct (assign_versions_from_ocr cc dc ocr) eqn:E.
  - now rewrite H1.
  - destruct ocr; simpl; auto. now specialize (H2 eq_refl).
Qed.

Section Run.
Variable w : world.
Variable carpeta : string.

Lemma exito_sin_fallos :
  exito (process_carpeta w carpeta) = sin_fallos w carpeta.
Proof.
  unfold process_carpeta, sin_fallos, sin_excepcion, escrituras.
  rewrite GraphFacts.process_carpeta_eq.
  unfold paso_1_ocr, paso_2_versioning, paso_3_vectorization,
    paso_4_escritura_comparison, paso_5_legalizacion,
    paso_8_report_generation.
  destruct (raises w "paso_1_ocr") as [e1|]; [reflexivity|].
  simpl.
  pose proof (from_ocr_vacio (classification_chain w) (date_chain w)
                (analyze_folder w (path_join "data" carpeta))) as Hv.
  revert Hv.
  generalize (assign_versions_from_ocr (classification_chain w)
                (date_chain w)
                (analyze_folder w (path_join "data" carpeta))) as vr.
  generalize (analyze_folder w (path_join "data" carpeta)) as ocr.
  intros ocr vr Hv.
  destruct (vacio ocr) eqn:Eo;
    repeat first [progress simpl | rewrite Eo | rewrite Hv];
    [reflexivity|].
  destruct (raises w "paso_2_versioning") as [e2|];
    repeat first [progress simpl | rewrite Eo | rewrite Hv];
    [reflexivity|].
  destruct (raises w "paso_3_vectorization") as [e3|]; [reflexivity|].
  destruct (should_extract_from_ocr w);
    repeat first [progress simpl | rewrite Eo | rewrite Hv].
  all: destruct (vacio (get_default vr "escritura" [])) eqn:Ee;
    repeat first [progress simpl | rewrite Eo | rewrite Hv].
  all: try (destruct (raises w "paso_4_escritura_comparison") as [e4|];
            repeat first [progress simpl | rewrite Eo | rewrite Hv]).
  all: destruct (raises w "paso_5_legalizacion") as [e5|];
    repeat first [progress simpl | rewrite Eo | rewrite Hv].
  all: destruct (raises w "paso_8_report_generation") as [e8|];
    repeat first [progress simpl | rewrite Eo | rewrite Hv];
    try reflexivity.
Qed.

Lemma sin_excepcion_None name :
  sin_excepcion w name = true -> raises w name = None.
Proof.
  unfold sin_excepcion. now destruct (raises w name).
Qed.

Lemma exito_resumen :
  sin_fallos w carpeta = true ->
  let ocr := analyze_folder w (path_join "data" carpeta) in
  let vr :=
    assign_versions_from_ocr (classification_chain w) (date_chain w)
      ocr in
  let vec :=
    vec_results (create_initial_state carpeta)
      (if should_extract_from_ocr w then "OCR_DIRECTO"
       else "SIN_VECTORIZACION") in
  let deeds := get_default vr "escritura" [] in
  let comp :=
    if vacio deeds then []
    else [("escritura",
           flat_map (comparar_par w ocr (Comparer.ocr_index ocr))
             (Comparer.consecutivos
                (sorted_by Nat.compare version deeds)))] in
  process_carpeta w carpeta
  = Resumen
      (mk_resultados carpeta true ocr [] vec vr comp []
         (generate_complete_report w vr comp [] ocr vec) "").
Proof.
  unfold sin_fallos, escrituras. intros H.
  repeat (apply andb_true_iff in H; destruct H as [H ?]).
  repeat match goal with
         | Hs : sin_excepcion w _ = true |- _ =>
             apply sin_excepcion_None in Hs
         end.
  unfold process_carpeta.
  rewrite GraphFacts.process_carpeta_eq.
  unfold paso_1_ocr, paso_2_versioning, paso_3_vectorization,
    paso_4_escritura_comparison, paso_5_legalizacion,
    paso_8_report_generation.
  rewrite H. simpl.
  pose proof (from_ocr_vacio (classification_chain w) (date_chain w)
                (analyze_folder w (path_join "data" carpeta))) as Hv.
  set (ocr := analyze_folder w (path_join "data" carpeta)) in *.
  set (vr := assign_versions_from_ocr (classification_chain w)
               (date_chain w) ocr) in *.
  clearbody vr. clearbody ocr.
  apply negb_true_iff in H5. rewrite H5 in Hv.
  repeat first [progress simpl | rewrite H5 | rewrite Hv
               | rewrite H4 | rewrite H3 ].
  destruct (should_extract_from_ocr w);
    repeat first [progress simpl | rewrite H5 | rewrite Hv].
  all: destruct (get_default vr "escritura" []) as [|d ds] eqn:Ee;
    [|simpl in H2; apply sin_excepcion_None in H2];
    repeat first [progress simpl | rewrite H5 | rewrite Hv
                 | rewrite H2 | rewrite H1 | rewrite H0 ];
    reflexivity.
Qed.

End Run.
End RunFacts.

(** X12. A run of the orchestrator reports success exactly when no stage
    records an error: the OCR stage reads at least one document and
    nothing raises in the body of a stage that is entered (the deed
    comparison is not entered when there is no deed). *)
Theorem X12_success_iff_no_stage_fails
    (w : Graph.world) (carpeta : string) :
  Orquestador.exito (Orquestador.process_carpeta w carpeta)
  = Orquestador.sin_fallos w carpeta.
Proof.
  apply RunFacts.exito_sin_fallos.
Qed.

(** X13. The results of a successful run: the documents OCR read, their
    version chains from [assign_versions_from_ocr], the comparisons of
    the deeds and the report generated from them; [entity_results] is
    empty and [error] is the empty string.  What stage 5 extracted is
    not among them: [legalization_results] is no key of
    [ProcessingState], so the results hold an empty dict there and the
    report is generated from an empty legalization. *)
Theorem X13_results_of_a_successful_run
    (w : Graph.world) (carpeta : string) :
  Orquestador.exito (Orquestador.process_carpeta w carpeta) = true ->
  let ocr := Graph.analyze_folder w (Graph.path_join "data" carpeta) in
  let vr :=
    assign_versions_from_ocr (Graph.classification_chain w)
      (Graph.date_chain w) ocr in
  let vec :=
    Graph.vec_results (Graph.create_initial_state carpeta)
      (if Graph.should_extract_from_ocr w then "OCR_DIRECTO"
       else "SIN_VECTORIZACION") in
  let deeds := get_default vr "escritura" [] in
  let comp :=
    if Graph.vacio deeds then []
    else [("escritura",
           flat_map (Graph.comparar_par w ocr (Comparer.ocr_index ocr))
             (Comparer.consecutivos
                (sorted_by Nat.compare version deeds)))] in
  Orquestador.process_carpeta w carpeta
  = Orquestador.Resumen
      (Orquestador.mk_resultados carpeta true ocr [] vec vr comp []
         (Graph.generate_complete_report w vr comp [] ocr vec) "").
Proof.
  intros H. rewrite RunFacts.exito_sin_fallos in H.
  now apply RunFacts.exito_resumen.
Qed.

Lemma X13_results_of_a_successful_run_witness :
  let w := Mundos.legaliza in
  let ocr := Graph.analyze_folder w (Graph.path_join "data" "c1") in
  let vr :=
    assign_versions_from_ocr (Graph.classification_chain w)
      (Graph.date_chain w) ocr in
  let vec :=
    Graph.vec_results (Graph.create_initial_state "c1") "OCR_DIRECTO" in
  let deeds := get_default vr "escritura" [] in
  let comp :=
    [("escritura",
      flat_map (Graph.comparar_par w ocr (Comparer.ocr_index ocr))
        (Comparer.consecutivos (sorted_by Nat.compare version deeds)))] in
  Orquestador.process_carpeta w "c1"
  = Orquestador.Resumen
      (Orquestador.mk_resultados "c1" true ocr [] vec vr comp []
         (Graph.generate_complete_report w vr comp [] ocr vec) "").
Proof.
  apply (@X13_results_of_a_successful_run Mundos.legaliza "c1").
  vm_compute. reflexivity.
Defined.

(** X14. A stage function that returns writes, besides [error], only the
    result of its own stage: stage 1 the OCR results, stage 2 the
    version chains, stage 3 the vectorization summary, stages 4 and 7
    the comparisons, stage 5 the legalization, stage 8 the report; the
    folder, its path, [entity_results] and [classification_results] are
    written by none of the seven. *)
Theorem X14_stage_writes_only_its_field
    (w : Graph.world) (name : string)
    (f : Graph.ProcessingState -> Graph.result)
    (s s' : Graph.ProcessingState) :
  get (Tuberia.etapas w) name = Some f ->
  f s = Graph.Ok s' ->
  Orquestador.escribe name s s'.
Proof.
  unfold Tuberia.etapas. simpl. intros H Hf.
  repeat (por_nombre H; [revert Hf|]); try discriminate.
  all: unfold Graph.paso_1_ocr, Graph.paso_2_versioning,
         Graph.paso_3_vectorization, Graph.paso_4_escritura_comparison,
         Graph.paso_5_legalizacion, Graph.paso_7_version_comparison,
         Graph.paso_8_report_generation.
  all: repeat match goal with
         | |- context [match Graph.raises ?w ?n with _ => _ end] =>
             destruct (Graph.raises w n)
         | |- context [if ?b then _ else _] => destruct b
         end.
  all: intros Hf; inversion Hf; subst; unfold Orquestador.escribe; simpl;
    repeat split; intros; congruence.
Qed.

Lemma X14_stage_writes_only_its_field_witness :
  Orquestador.escribe "paso_2_versioning"
    (Graph.with_ocr_results Tuberia.sin_ocr Pares.ocr_a_c)
    (Graph.with_versioning_results
       (Graph.with_ocr_results Tuberia.sin_ocr Pares.ocr_a_c)
       (assign_versions_from_ocr (fun _ => Some "escritura")
          (fun _ => Some "NO_FECHA") Pares.ocr_a_c)).
Proof.
  apply (@X14_stage_writes_only_its_field Mundos.tranquilo
           "paso_2_versioning"
           (Graph.paso_2_versioning Mundos.tranquilo)).
  - reflexivity.
  - reflexivity.
Defined.

(** X15. The orchestrator's [except] branch is reached only through the
    vectorization stage, the one stage without a [try]: the run ends
    with the message [Error en orquestador: e] exactly when the first
    two stages succeed and [e] is raised in stage 3. *)
Theorem X15_orchestrator_exception
    (w : Graph.world) (carpeta c msg : string) :
  Orquestador.process_carpeta w carpeta = Orquestador.Excepcion c msg
  <-> c = carpeta
      /\ Orquestador.sin_excepcion w "paso_1_ocr" = true
      /\ Graph.analyze_folder w (Graph.path_join "data" carpeta) <> []
      /\ Orquestador.sin_excepcion w "paso_2_versioning" = true
      /\ exists e,
           Graph.raises w "paso_3_vectorization" = Some e
           /\ msg = ("Error en orquestador: " ++ e)%string.
Proof.
  unfold Orquestador.process_carpeta, Orquestador.sin_excepcion.
  rewrite GraphFacts.process_carpeta_eq.
  unfold Graph.paso_1_ocr, Graph.paso_2_versioning,
    Graph.paso_3_vectorization, Graph.paso_4_escritura_comparison,
    Graph.paso_5_legalizacion, Graph.paso_8_report_generation.
  destruct (Graph.raises w "paso_1_ocr") as [e1|].
  { simpl. split; [discriminate|]. intros (_ & H & _). discriminate. }
  simpl.
  pose proof (RunFacts.from_ocr_vacio (Graph.classification_chain w)
                (Graph.date_chain w)
                (Graph.analyze_folder w (Graph.path_join "data" carpeta)))
    as Hv.
  revert Hv.
  generalize (assign_versions_from_ocr (Graph.classification_chain w)
                (Graph.date_chain w)
                (Graph.analyze_folder w (Graph.path_join "data" carpeta)))
    as vr.
  generalize (Graph.analyze_folder w (Graph.path_join "data" carpeta))
    as ocr.
  intros ocr vr Hv.
  destruct ocr as [|o l]; simpl in *.
  { split; [discriminate|]. intros (_ & _ & H & _). now destruct H. }
  destruct (Graph.raises w "paso_2_versioning") as [e2|]; simpl.
  { split; [discriminate|]. intros (_ & _ & _ & H & _). discriminate. }
  rewrite Hv. simpl.
  destruct (Graph.raises w "paso_3_vectorization") as [e3|]; simpl.
  { split.
    - intros H. inversion H; subst. repeat split; try discriminate.
      now exists e3.
    - intros (-> & _ & _ & _ & e & He & ->). now inversion He. }
  split; [|intros (_ & _ & _ & _ & e & He & _); discriminate].
  destruct (Graph.should_extract_from_ocr w);
    repeat first [progress simpl | rewrite Hv].
  all: destruct (Graph.vacio (get_default vr "escritura" []));
    repeat first [progress simpl | rewrite Hv].
  all: try (destruct (Graph.raises w "paso_4_escritura_comparison");
            repeat first [progress simpl | rewrite Hv]).
  all: destruct (Graph.raises w "paso_5_legalizacion");
    repeat first [progress simpl | rewrite Hv].
  all: destruct (Graph.raises w "paso_8_report_generation");
    repeat first [progress simpl | rewrite Hv]; discriminate.
Qed.

(** ** The deed comparison of stage 4 *)

Module Paso4More.

Import Graph.

Lemma substring_substring a : forall b s,
  a <= b -> substring 0 a (substring 0 b s) = substring 0 a s.
Proof.
  induction a as [|a IH]; intros b s Hab.
  - destruct b, s; reflexivity.
  - destruct b as [|b]; [lia|].
    destruct s as [|c s]; simpl; auto.
    f_equal. apply IH. lia.
Qed.

Lemma take_take n m s : (n <= m)%N -> take n (take m s) = take n s.
Proof.
  intros H. unfold take. apply substring_substring. lia.
Qed.

Lemma consecutivos_sorted {A} (R : A -> A -> Prop) l :
  StronglySorted R l ->
  Forall (fun p => R (fst p) (snd p)) (Comparer.consecutivos l).
Proof.
  induction 1 as [|x l Hs IH Hx]; simpl; [constructor|].
  destruct l as [|y l]; [constructor|].
  constructor; auto. inversion Hx; auto.
Qed.

Lemma flat_map_ext_Forall {A B} (P : A -> Prop) (f g : A -> list B) l :
  Forall P l -> (forall x, P x -> f x = g x) ->
  flat_map f l = flat_map g l.
Proof.
  intros Hl H. induction Hl as [|x l Hx _ IH]; simpl; auto.
  now rewrite IH, (H x Hx).
Qed.

(** One turn of the loop, for a pair in version order. *)
Lemma comparar_par_directo w ocr (p : versioned * versioned) :
  Cmp.leb_of Nat.compare (version (fst p)) (version (snd p)) = true ->
  let index := Comparer.ocr_index ocr in
  let texto_actual := get_default index (v_filename (fst p)) "" in
  let texto_siguiente := get_default index (v_filename (snd p)) "" in
  comparar_par w ocr index p
  = if negb (truthy texto_actual) || negb (truthy texto_siguiente)
    then []
    else
      let d :=
        match llm_compare w (take 8000 texto_actual)
                (take 8000 texto_siguiente) with
        | Some data => data
        | None => Comparer.fallback
        end in
      [Simple (mk_simple "escritura" (fst p) (snd p)
                 (Comparer.cambios d) (Comparer.resumen d))].
Proof.
  intros Hle. simpl. unfold comparar_par.
  destruct (truthy (get_default (Comparer.ocr_index ocr)
                      (v_filename (fst p)) "")) eqn:E1; simpl; auto.
  destruct (truthy (get_default (Comparer.ocr_index ocr)
                      (v_filename (snd p)) "")) eqn:E2; simpl; auto.
  unfold comparar_versiones, Comparer.comparar_versiones. simpl.
  unfold Comparer.comparar_categoria. simpl.
  unfold sorted_by. simpl. rewrite Hle. simpl.
  unfold Comparer._compare_texts, Comparer._find_text, str_or.
  rewrite E1, E2.
  rewrite !ComparerMore.take_truthy by (auto; lia). simpl.
  rewrite !take_take by lia. reflexivity.
Qed.

End Paso4More.

(** X16. The deed comparison of stage 4 shows the model, for every two
    consecutive versions whose texts are both at hand, the first 8000
    characters of the older text and then of the newer one, and stores
    the changes it answers (none when the model fails) under the two
    versions; the detour through [comparar_versiones], which sorts the
    pair again and cuts at 16000 characters, changes nothing. *)
Theorem X16_stage4_compares_older_to_newer
    (w : Graph.world) (ocr : list ocr_item) (deeds : list versioned) :
  let index := Comparer.ocr_index ocr in
  flat_map (Graph.comparar_par w ocr index)
    (Comparer.consecutivos (sorted_by Nat.compare version deeds))
  = flat_map
      (fun p =>
         let texto_actual := get_default index (v_filename (fst p)) "" in
         let texto_siguiente :=
           get_default index (v_filename (snd p)) "" in
         if negb (truthy texto_actual) || negb (truthy texto_siguiente)
         then []
         else
           let d :=
             match Graph.llm_compare w (take 8000 texto_actual)
                     (take 8000 texto_siguiente) with
             | Some data => data
             | None => Comparer.fallback
             end in
           [Graph.Simple
              (Graph.mk_simple "escritura" (fst p) (snd p)
                 (Comparer.cambios d) (Comparer.resumen d))])
      (Comparer.consecutivos (sorted_by Nat.compare version deeds)).
Proof.
  simpl.
  eapply Paso4More.flat_map_ext_Forall.
  - apply Paso4More.consecutivos_sorted.
    apply (VersioningFacts.sorted_by_sorted CmpFacts.nat_order).
  - intros p Hp. now apply Paso4More.comparar_par_directo.
Qed.

(** ** The newest document of a category and the texts of the sections *)

Module TextosFacts.

Import Textos.

Lemma max_by_spec {A} (key : A -> nat) l : forall best,
  In (max_by key best l) (best :: l)
  /\ forall x, In x (best :: l) -> key x <= key (max_by key best l).
Proof.
  induction l as [|y l IH]; intros best; simpl.
  - split; auto. intros x [<-|[]]. lia.
  - destruct (key best <? key y)%nat eqn:E.
    + destruct (IH y) as [Hin Hmax]. split; [simpl in Hin; tauto|].
      apply Nat.ltb_lt in E.
      intros x [<-|Hx]; [|now apply Hmax].
      specialize (Hmax y (or_introl eq_refl)). lia.
    + destruct (IH best) as [Hin Hmax]. split; [simpl in Hin; tauto|].
      apply Nat.ltb_ge in E.
      intros x [<-|[<-|Hx]].
      * apply Hmax. now left.
      * specialize (Hmax best (or_introl eq_refl)). lia.
      * apply Hmax. now right.
Qed.

Lemma last_cons {A} (l : list A) : forall y d,
  last (y :: l) d = last l y.
Proof.
  induction l as [|z l IH]; intros y d; [reflexivity|].
  change (last (y :: z :: l) d) with (last (z :: l) d).
  now rewrite !IH.
Qed.

(** On versions that count up, the greatest is the last. *)
Lemma max_by_seq {A} (key : A -> nat) l : forall best k,
  map key (best :: l) = seq k (S (List.length l)) ->
  max_by key best l = last l best.
Proof.
  induction l as [|y l IH]; intros best k H; [reflexivity|].
  simpl in H. injection H as Hb Hy Hl.
  cbn [max_by]. rewrite Hb, Hy.
  assert ((k <? S k)%nat = true) as -> by (apply Nat.ltb_lt; lia).
  rewrite (IH y (S k)).
  - now rewrite last_cons.
  - simpl. now rewrite Hy, Hl.
Qed.

Lemma get_Some_In {V} (d : dict V) k v : get d k = Some v -> In (k, v) d.
Proof.
  induction d as [|[k0 v0] d IH]; simpl; [discriminate|].
  destruct (String.eqb k k0) eqn:E; auto.
  apply String.eqb_eq in E. subst. intros H. inversion H. now left.
Qed.

Lemma last_map {A B} (f : A -> B) l d : last (map f l) (f d) = f (last l d).
Proof.
  induction l as [|x l IH]; simpl; auto.
  destruct l; simpl in *; auto.
Qed.

Lemma last_app_In {A} (l1 l2 : list A) d :
  l2 <> [] -> In (last (l1 ++ l2) d) l2.
Proof.
  intros H.
  induction l1 as [|x l1 IH]; simpl.
  - destruct l2 as [|y l2]; [contradiction|].
    clear H. revert y. induction l2 as [|z l2 IHl]; intros y.
    + now left.
    + right. apply (IHl z).
  - destruct (l1 ++ l2) eqn:E; auto.
    apply app_eq_nil in E. destruct E. contradiction.
Qed.

Lemma truthy_app_l a b : truthy a = true -> truthy (a ++ b) = true.
Proof. now destruct a. Qed.

Lemma unir_truthy parts : truthy (unir parts) = existsb truthy parts.
Proof.
  unfold unir. induction parts as [|p parts IH]; simpl; auto.
  destruct (truthy p) eqn:E; simpl; auto.
  destruct (filter truthy parts); auto.
  now apply truthy_app_l.
Qed.

End TextosFacts.

(** X17. [_select_latest_by_category] returns a document of the
    category with the greatest version of the category, and nothing
    only when the category is absent or has no document. *)
Theorem X17_select_latest_has_greatest_version
    (versioning_results : dict (list versioned)) (category : string) :
  let docs := get_default versioning_results category [] in
  match Textos._select_latest_by_category versioning_results category with
  | None => docs = []
  | Some d => In d docs /\ forall x, In x docs -> version x <= version d
  end.
Proof.
  simpl. unfold Textos._select_latest_by_category.
  destruct (get_default versioning_results category []) as [|d docs];
    [reflexivity|].
  apply TextosFacts.max_by_spec.
Qed.

(** X18. On the chains of [assign_versions_from_ocr] the document that
    [_select_latest_by_category] returns is the last of the chain; when
    the category has a document marked [NO_FECHA], it is one of those,
    not the document with the newest date. *)
Theorem X18_latest_of_a_chain_from_ocr
    (cc dc : string -> option string) (ocr : list ocr_item)
    (category : string) (chain : list versioned) :
  get (assign_versions_from_ocr cc dc ocr) category = Some chain ->
  Textos._select_latest_by_category (assign_versions_from_ocr cc dc ocr)
    category
  = Textos.ultimo chain
  /\ forall d x,
       Textos.ultimo chain = Some d ->
       In x chain -> v_fecha x = NO_FECHA ->
       v_fecha d = NO_FECHA.
Proof.
  intros H.
  pose proof (TextosFacts.get_Some_In _ _ H) as Hin.
  apply VersioningFacts.assign_versions_from_ocr_chain in Hin.
  destruct Hin as (docs & _ & ->).
  split.
  - unfold Textos._select_latest_by_category, get_default. rewrite H.
    pose proof (VersioningFacts.numerar_contiguous p_filename p_fecha
                  (ordenar_ocr docs)) as Hc.
    unfold Orden.contiguous in Hc. fold (versionar_ocr docs) in Hc.
    destruct (versionar_ocr docs) as [|d ds]; [reflexivity|].
    simpl. f_equal. now apply TextosFacts.max_by_seq with (k := 1).
  - intros d x Hd Hx Hf.
    pose proof (VersioningFacts.versionar_ocr_view docs) as Hview.
    destruct (versionar_ocr docs) as [|d0 ds] eqn:Ev; [discriminate|].
    injection Hd as <-.
    rewrite <- (TextosFacts.last_cons ds d0 d0), <- Ev in *.
    change (v_fecha (last (versionar_ocr docs) d0))
      with (snd (de_versioned (last (versionar_ocr docs) d0))).
    rewrite <- TextosFacts.last_map, Hview.
    assert (exists p, In p docs /\ String.eqb (p_fecha p) NO_FECHA = true)
      as (p & Hp & Hm).
    { apply (in_map de_versioned) in Hx. rewrite Hview in Hx.
      apply in_map_iff in Hx. destruct Hx as (p & Hpx & Hp).
      exists p. split.
      - eapply Permutation_in; [apply AssignerFacts.ordenar_ocr_perm|].
        exact Hp.
      - unfold de_processed, de_versioned in Hpx.
        injection Hpx as _ Hpf. rewrite Hpf, Hf. apply String.eqb_refl. }
    unfold ordenar_ocr. rewrite map_app.
    match goal with
    | |- snd (last (?A ++ map de_processed ?B) ?d) = _ =>
        assert (In p B) as HpB;
        [ eapply Permutation_in;
          [apply Permutation_sym, VersioningFacts.sorted_by_perm|];
          apply filter_In; auto
        | assert (map de_processed B <> []) as Hne
            by (destruct B; [destruct HpB|discriminate]);
          pose proof (TextosFacts.last_app_In A d Hne) as Hl ]
    end.
    apply in_map_iff in Hl. destruct Hl as (q & Hq & HqB).
    rewrite <- Hq. simpl.
    eapply Permutation_in in HqB; [|apply VersioningFacts.sorted_by_perm].
    apply filter_In in HqB. destruct HqB as [_ Hqm].
    now apply String.eqb_eq in Hqm.
Qed.

Lemma X18_latest_of_a_chain_from_ocr_witness :
  Textos._select_latest_by_category
    (assign_versions_from_ocr Ejemplos.cc_escritura Ejemplos.dc_imposible
       Ejemplos.ocr_z_a)
    "escritura"
  = Textos.ultimo Ejemplos.cadena_z_a.
Proof.
  apply (@X18_latest_of_a_chain_from_ocr Ejemplos.cc_escritura
           Ejemplos.dc_imposible Ejemplos.ocr_z_a "escritura"
           Ejemplos.cadena_z_a).
  reflexivity.
Defined.

(** X19. The texts [_compose_text_for_sections] chooses, in both modes:
    administration always reads the text of the capital section; when
    the constitution text is not empty neither is the legalization
    text, and when the legalization text is not empty neither is the
    text of the capital section. *)
Theorem X19_section_texts_fall_back_together
    (should_extract_from_ocr : bool)
    (versioning_results : dict (list versioned))
    (ocr_results : list ocr_item) :
  let texts :=
    Textos._compose_text_for_sections should_extract_from_ocr
      versioning_results ocr_results in
  Textos.administracion texts = Textos.capital_social texts
  /\ (truthy (Textos.constitucion texts) = true ->
      truthy (Textos.legalizacion texts) = true)
  /\ (truthy (Textos.legalizacion texts) = true ->
      truthy (Textos.capital_social texts) = true).
Proof.
  simpl. unfold Textos._compose_text_for_sections.
  destruct should_extract_from_ocr; cbn [Textos.constitucion
    Textos.capital_social Textos.administracion Textos.legalizacion].
  - split; [reflexivity|]. split.
    + rewrite !TextosFacts.unir_truthy, !existsb_app.
      intros H. apply orb_true_iff in H.
      destruct H as [-> | ->]; rewrite ?orb_true_r; reflexivity.
    + intros H.
      destruct (truthy (Textos.unir
                  ((if truthy _ then _ else _) ++ _))) eqn:E; auto.
  - split; [reflexivity|]. split.
    + rewrite TextosFacts.unir_truthy, !existsb_app.
      destruct (Textos._select_latest_by_category versioning_results
                  "constitucion"); simpl; [|discriminate].
      now intros ->.
    + intros H.
      destruct (truthy match Textos._select_latest_by_category
                               versioning_results "constitucion" with
                       | Some d => _
                       | None => _
                       end) eqn:E; auto.
Qed.

(** ** The chunks of a document *)

Module ChunkFacts.

Import Legalization.

Lemma append_nil_r s : (s ++ "")%string = s.
Proof. induction s as [|c s IH]; simpl; congruence. Qed.

Lemma append_assoc a b c : ((a ++ b) ++ c)%string = (a ++ (b ++ c))%string.
Proof. induction a as [|x a IH]; simpl; congruence. Qed.

Lemma concat_cons x l :
  String.concat "" (x :: l) = (x ++ String.concat "" l)%string.
Proof. destruct l; simpl; auto. now rewrite append_nil_r. Qed.

Lemma substring_length_le n m s : String.length (substring n m s) <= m.
Proof.
  revert m s. induction n as [|n IH]; intros m s.
  - revert s. induction m as [|m IHm]; intros s; destruct s; simpl;
      try lia. specialize (IHm s). lia.
  - destruct s; simpl; [lia|apply IH].
Qed.

Lemma substring_app i : forall k m s,
  substring i (k + m) s
  = (substring i k s ++ substring (i + k) m s)%string.
Proof.
  induction i as [|i IH]; intros k m s.
  - revert s. induction k as [|k IHk]; intros s.
    + destruct s; reflexivity.
    + destruct s as [|c s]; simpl; [now destruct m|].
      now rewrite IHk.
  - destruct s as [|c s]; simpl; [now destruct m, k|apply IH].
Qed.

Lemma substring_min i : forall m s,
  substring i m s = substring i (Nat.min m (String.length s - i)) s.
Proof.
  induction i as [|i IH]; intros m s.
  - rewrite Nat.sub_0_r. revert s.
    induction m as [|m IHm]; intros s; destruct s as [|c s]; simpl; auto.
    now rewrite <- IHm.
  - destruct s as [|c s]; simpl; [now destruct m|apply IH].
Qed.

Lemma substring_all s : substring 0 (String.length s) s = s.
Proof. induction s as [|c s IH]; simpl; congruence. Qed.

Lemma substring_take i : forall a b s,
  a <= b -> substring 0 a (substring i b s) = substring i a s.
Proof.
  induction i as [|i IH]; intros a b s Hab.
  - now apply Paso4More.substring_substring.
  - destruct s as [|c s]; simpl; [now destruct a|now apply IH].
Qed.

Section Loop.
Variable text : string.
Variables max_len overlap : Z.
Hypothesis Hoverlap : (0 <= overlap < max_len)%Z.

Local Notation "'len'" := (Z.of_nat (String.length text)).

Lemma slice_chunk i :
  (0 <= i < len)%Z ->
  slice text i (i + max_len)
  = substring (Z.to_nat i) (Z.to_nat max_len) text.
Proof.
  intros Hi. unfold slice, ajustar.
  assert ((i <? 0)%Z = false) as -> by lia.
  assert ((i + max_len <? 0)%Z = false) as -> by lia.
  rewrite (substring_min (Z.to_nat i) (Z.to_nat max_len)).
  f_equal; lia.
Qed.

Lemma slice_prefix c :
  slice c 0 (max_len - overlap)
  = substring 0 (Z.to_nat (max_len - overlap)) c.
Proof.
  unfold slice, ajustar.
  assert ((0 <? 0)%Z = false) as -> by lia.
  assert ((max_len - overlap <? 0)%Z = false) as -> by lia.
  rewrite (substring_min 0 (Z.to_nat (max_len - overlap))).
  f_equal; lia.
Qed.

Lemma cubierto_uno c : cubierto max_len overlap [c] = c.
Proof. reflexivity. Qed.

Lemma cubierto_cons c r rs :
  cubierto max_len overlap (c :: r :: rs)
  = (substring 0 (Z.to_nat (max_len - overlap)) c
     ++ cubierto max_len overlap (r :: rs))%string.
Proof.
  unfold cubierto.
  change (removelast (c :: r :: rs)) with (c :: removelast (r :: rs)).
  change (last (c :: r :: rs) "") with (last (r :: rs) "").
  cbn [map]. rewrite concat_cons, append_assoc. now rewrite slice_prefix.
Qed.

(** The loop ends, and from [i] on it covers the rest of the text. *)
Lemma trocear_spec fuel : forall i,
  (0 <= i)%Z ->
  (Z.max 0 (len - i) < Z.of_nat fuel)%Z ->
  exists chunks,
    trocear fuel text max_len overlap i = Some chunks
    /\ Forall (fun c => (Z.of_nat (String.length c) <= max_len)%Z) chunks
    /\ ((len <= i)%Z -> chunks = [])
    /\ ((i < len)%Z ->
        chunks <> []
        /\ cubierto max_len overlap chunks
           = substring (Z.to_nat i) (Z.to_nat (len - i)) text).
Proof.
  induction fuel as [|fuel IH]; intros i Hi Hf; [lia|].
  cbn [trocear].
  destruct (i <? len)%Z eqn:E.
  - apply Z.ltb_lt in E.
    destruct (IH (i + (max_len - overlap))%Z)
      as (chunks & -> & Hb & Hn & Hc); [lia|lia|].
    eexists. split; [reflexivity|]. split; [|split; [lia|]].
    + constructor; auto. rewrite slice_chunk by lia.
      pose proof (substring_length_le (Z.to_nat i) (Z.to_nat max_len) text).
      lia.
    + intros _. split; [discriminate|].
      rewrite slice_chunk by lia.
      destruct (Z_lt_le_dec (i + (max_len - overlap)) len) as [Hlt|Hge].
      * destruct (Hc Hlt) as [Hne Hcub].
        destruct chunks as [|r rs]; [contradiction|].
        rewrite cubierto_cons, Hcub.
        rewrite substring_take by lia.
        replace (Z.to_nat (len - i))
          with (Z.to_nat (max_len - overlap)
                + Z.to_nat (len - (i + (max_len - overlap)))) by lia.
        rewrite substring_app. f_equal. f_equal. lia.
      * rewrite (Hn Hge), cubierto_uno.
        rewrite (substring_min (Z.to_nat i) (Z.to_nat max_len)).
        rewrite (substring_min (Z.to_nat i) (Z.to_nat (len - i))).
        f_equal. lia.
  - apply Z.ltb_ge in E. exists []. repeat split; auto; lia.
Qed.

End Loop.

(** With an overlap that is not smaller than the chunk, the loop does
    not advance. *)
Lemma trocear_diverges text max_len overlap fuel : forall i,
  (max_len <= overlap)%Z -> (i <= 0)%Z ->
  (0 < Z.of_nat (String.length text))%Z ->
  trocear fuel text max_len overlap i = None.
Proof.
  induction fuel as [|fuel IH]; intros i Ho Hi Hl; [reflexivity|].
  cbn [trocear].
  assert ((i <? Z.of_nat (String.length text))%Z = true) as ->
      by (apply Z.ltb_lt; lia).
  rewrite IH; auto. lia.
Qed.


End ChunkFacts.

(** X20. [split_chunks] with an overlap smaller than the chunk length
    ends (any number of turns above the length of the text is enough)
    and loses no text: no chunk is longer than [max_len], and each chunk
    but the last up to where the next one starts, followed by the last
    chunk, is the normalised text. *)
Theorem X20_split_chunks_covers_the_text
    (normalize_text : string -> string) (text : string)
    (max_len overlap : Z) (fuel : nat) :
  (0 <= overlap < max_len)%Z ->
  String.length (normalize_text text) < fuel ->
  exists chunks,
    Legalization.split_chunks normalize_text fuel text max_len overlap
    = Some chunks
    /\ Forall (fun c => (Z.of_nat (String.length c) <= max_len)%Z) chunks
    /\ Legalization.cubierto max_len overlap chunks = normalize_text text.
Proof.
  intros Ho Hf. unfold Legalization.split_chunks.
  destruct (Z.of_nat (String.length (normalize_text text)) <=? max_len)%Z
    eqn:E.
  - apply Z.leb_le in E. exists [normalize_text text].
    split; [reflexivity|]. split; [|reflexivity].
    constructor; auto.
  - apply Z.leb_gt in E.
    destruct (@ChunkFacts.trocear_spec (normalize_text text) max_len
                overlap Ho fuel 0%Z) as (chunks & Hc & Hb & _ & Hcub);
      [lia|lia|].
    exists chunks. split; [exact Hc|]. split; [exact Hb|].
    destruct Hcub as [_ ->]; [lia|].
    rewrite Z.sub_0_r, Nat2Z.id. apply ChunkFacts.substring_all.
Qed.

Lemma X20_split_chunks_covers_the_text_witness :
  exists chunks,
    Legalization.split_chunks (fun s => s) 14 "poder general" 5 2
    = Some chunks
    /\ Forall (fun c => (Z.of_nat (String.length c) <= 5)%Z) chunks
    /\ Legalization.cubierto 5 2 chunks = "poder general".
Proof.
  apply (@X20_split_chunks_covers_the_text (fun s => s) "poder general"
           5%Z 2%Z 14).
  - lia.
  - simpl. lia.
Defined.

(** X21. [split_chunks] with an overlap that is not smaller than the
    chunk length never returns on a text longer than a chunk: the loop
    does not advance, whatever the number of turns. *)
Theorem X21_split_chunks_does_not_end
    (normalize_text : string -> string) (text : string)
    (max_len overlap : Z) (fuel : nat) :
  (max_len <= overlap)%Z ->
  (max_len < Z.of_nat (String.length (normalize_text text)))%Z ->
  normalize_text text <> "" ->
  Legalization.split_chunks normalize_text fuel text max_len overlap
  = None.
Proof.
  intros Ho Hl Hne. unfold Legalization.split_chunks.
  assert ((Z.of_nat (String.length (normalize_text text)) <=? max_len)%Z
          = false) as -> by (apply Z.leb_gt; lia).
  apply ChunkFacts.trocear_diverges; auto; try lia.
  destruct (normalize_text text); [contradiction|].
  cbn [String.length]. lia.
Qed.

Lemma X21_split_chunks_does_not_end_witness :
  Legalization.split_chunks (fun s => s) 1000 "poder general" 5 5 = None.
Proof.
  apply X21_split_chunks_does_not_end.
  - lia.
  - simpl. lia.
  - discriminate.
Defined.

(** ** The powers of the newest deed *)

Module PoderFacts.

Import Legalization.

Section Agent.
Variable max_chars_doc : N.
Variable puntaje : Type.
Variable _candidate_chunks_for_code :
  LegalCode -> string -> string -> list (string * puntaje).
Variable _rule_filter : LegalCode -> string -> bool.
Variable _verify_with_llm : LegalCode -> string -> verificacion.

Local Notation "'elige'" :=
  (@elegir puntaje _rule_filter _verify_with_llm).
Local Notation "'dados'" :=
  (@otorgados puntaje _rule_filter _verify_with_llm).

Lemma elegir_spec code base_doc candidates : forall best,
  (forall b, best = Some b -> alta b = false) ->
  elige code base_doc candidates best
  = match find alta (dados code base_doc candidates) with
    | Some c => Some c
    | None =>
        match best with
        | Some b => Some b
        | None => hd_error (dados code base_doc candidates)
        end
    end.
Proof.
  induction candidates as [|[chunk score] candidates IH]; intros best Hb.
  - simpl. now destruct best.
  - cbn [elegir]. unfold otorgados. cbn [filter fst].
    destruct (_rule_filter code chunk); cbn [negb andb];
      [|now apply IH].
    destruct (ver_otorgado (_verify_with_llm code chunk)) eqn:Eo;
      [|now apply IH].
    cbn [map find hd_error fst].
    set (cand := candidato code base_doc (_verify_with_llm code chunk)).
    destruct best as [b|].
    + rewrite (Hb b eq_refl). cbn [negb andb].
      destruct (alta cand) eqn:Ea.
      * now rewrite Ea.
      * rewrite (Hb b eq_refl). rewrite IH; auto.
    + destruct (alta cand) eqn:Ea; auto.
      rewrite IH.
      * unfold otorgados. now destruct (find alta _).
      * intros b Hbb. now inversion Hbb; subst.
Qed.


End Agent.


End PoderFacts.

(** X22. For one code of the catalogue [extract_from_documents] keeps
    the first candidate of high confidence among those that pass the
    rule filter and that the verifier grants, or else the first
    candidate granted; without a granted candidate it keeps nothing. *)
Theorem X22_best_candidate_of_a_code
    (puntaje : Type)
    (_rule_filter : Legalization.LegalCode -> string -> bool)
    (_verify_with_llm :
       Legalization.LegalCode -> string -> Legalization.verificacion)
    (code : Legalization.LegalCode) (base_doc : versioned)
    (candidates : list (string * puntaje)) :
  let granted :=
    Legalization.otorgados _rule_filter _verify_with_llm code base_doc
      candidates in
  Legalization.elegir _rule_filter _verify_with_llm code base_doc
    candidates None
  = match find Legalization.alta granted with
    | Some c => Some c
    | None => hd_error granted
    end.
Proof.
  simpl. now rewrite PoderFacts.elegir_spec by discriminate.
Qed.


(** ** The newest deed of the reconciler *)

Module NewestFacts.

Section Head.
Context {A K : Type} (cmp : K -> K -> comparison) (O : Cmp.Order cmp).
Variable key : A -> K.

(** The head of a stable descending sort: the first item, in input
    order, of the greatest key. *)
Lemma sorted_by_rev_head l : forall h t,
  sorted_by_rev cmp key l = h :: t ->
  exists l1 l2,
    l = l1 ++ h :: l2
    /\ (forall x, In x l1 -> Cmp.leb_of cmp (key h) (key x) = false)
    /\ (forall x, In x l -> Cmp.leb_of cmp (key x) (key h) = true).
Proof.
  unfold sorted_by_rev.
  induction l as [|x l IH]; intros h t E; [discriminate|].
  cbn [sort] in E.
  destruct (sort (fun a b => Cmp.leb_of cmp (key b) (key a)) l)
    as [|h' t'] eqn:Es.
  - assert (l = []) as ->.
    { pose proof (SortFacts.sort_length
                    (fun a b => Cmp.leb_of cmp (key b) (key a)) l) as Hl.
      rewrite Es in Hl. now destruct l. }
    simpl in E. inversion E; subst.
    exists [], []. repeat split; [intros ? []|].
    intros y [<-|[]]. unfold Cmp.leb_of.
    now rewrite (CmpFacts.cmp_refl O).
  - destruct (IH h' t' eq_refl) as (l1 & l2 & -> & Hlt & Hmax).
    cbn [insert] in E.
    destruct (Cmp.leb_of cmp (key h') (key x)) eqn:Ex;
      inversion E; subst.
    + exists [], (l1 ++ h' :: l2). repeat split; [intros ? []|].
      intros y [<-|Hy].
      * unfold Cmp.leb_of. now rewrite (CmpFacts.cmp_refl O).
      * eapply (CmpFacts.leb_trans O); [apply (Hmax y Hy)|exact Ex].
    + exists (x :: l1), l2. repeat split.
      * intros y [<-|Hy]; auto.
      * intros y [<-|Hy]; [|now apply Hmax].
        now apply (CmpFacts.leb_false_flip O).
Qed.
End Head.

End NewestFacts.

(** X24. The deed the reconciler reads first is, in the order of the
    chain, the first deed of the latest date: no deed has a later date,
    the deeds before it in the chain have an earlier one, and a deed
    whose date cannot be read is sorted as [datetime.min]. *)
Theorem X24_reconciler_reads_latest_date_first
    (escritura_docs older : list versioned) (latest_doc : versioned) :
  Report.por_fecha_desc escritura_docs = latest_doc :: older ->
  exists antes despues,
    escritura_docs = antes ++ latest_doc :: despues
    /\ (forall x, In x antes ->
          Datetime.compare (Report._parse_fecha (v_fecha x))
            (Report._parse_fecha (v_fecha latest_doc)) = Lt)
    /\ (forall x, In x escritura_docs ->
          Datetime.compare (Report._parse_fecha (v_fecha x))
            (Report._parse_fecha (v_fecha latest_doc)) <> Gt)
    /\ (forall x, In x escritura_docs ->
          Datetime.strptime (v_fecha x) = None ->
          Report._parse_fecha (v_fecha x) = Datetime.min).
Proof.
  unfold Report.por_fecha_desc. intros H.
  apply (NewestFacts.sorted_by_rev_head CmpFacts.datetime_order) in H.
  destruct H as (l1 & l2 & -> & Hlt & Hmax).
  exists l1, l2. repeat split.
  - intros x Hx. specialize (Hlt x Hx). unfold Cmp.leb_of in Hlt.
    rewrite (Cmp.antisym CmpFacts.datetime_order).
    now destruct (Datetime.compare _ _).
  - intros x Hx. specialize (Hmax x Hx). unfold Cmp.leb_of in Hmax.
    now destruct (Datetime.compare _ _).
  - intros x _ Hx. unfold Report._parse_fecha. now rewrite Hx.
Qed.

Lemma X24_reconciler_reads_latest_date_first_witness :
  exists antes despues,
    Reconciliacion.cadena_vn
    = antes ++ mk_versioned "nueva.pdf" "01-01-2021" 2 :: despues
    /\ (forall x, In x antes ->
          Datetime.compare (Report._parse_fecha (v_fecha x))
            (Report._parse_fecha "01-01-2021") = Lt)
    /\ (forall x, In x Reconciliacion.cadena_vn ->
          Datetime.compare (Report._parse_fecha (v_fecha x))
            (Report._parse_fecha "01-01-2021") <> Gt)
    /\ (forall x, In x Reconciliacion.cadena_vn ->
          Datetime.strptime (v_fecha x) = None ->
          Report._parse_fecha (v_fecha x) = Datetime.min).
Proof.
  apply (@X24_reconciler_reads_latest_date_first Reconciliacion.cadena_vn
           [mk_versioned "vieja.pdf" "01-01-2020" 1]
           (mk_versioned "nueva.pdf" "01-01-2021" 2)).
  reflexivity.
Defined.

(** ** The categories of the classifier *)

Module ClassifierFacts.

Import Classifier.

Lemma In_keys_get {V} (d : dict V) k :
  In k (keys d) -> exists v, get d k = Some v.
Proof.
  unfold keys. induction d as [|[k0 v0] d IH]; simpl; [tauto|].
  intros [H|H].
  - subst. rewrite String.eqb_refl. eauto.
  - destruct (String.eqb k k0); eauto.
Qed.

Lemma _llm_fallback_CATS llm strip_lower text :
  In (_llm_fallback llm strip_lower text) CATS.
Proof.
  unfold _llm_fallback.
  destruct (existsb _ CATS) eqn:E.
  - apply existsb_exists in E. destruct E as (c & Hc & E).
    apply String.eqb_eq in E. now rewrite E.
  - simpl. tauto.
Qed.

End ClassifierFacts.

(** X25. Whatever the model replies, [classify_documents] puts every
    document in one of the five categories of [CATS].  The chains that
    [assign_versions] builds from its result therefore have no category
    [escritura], the one the report reads: reconciling a section over
    them gives the record without fields. *)
Theorem X25_classifier_categories_are_closed
    (llm strip_lower : string -> string)
    (_detect_modificacion : string -> bool)
    (llm_secciones : string -> string -> Report.reply Report.FieldRecord)
    (documents_with_dates : list Classifier.documento)
    (date_results : list dates) (ocr_results : list ocr_item)
    (seccion : string) :
  let classification_results :=
    map Classifier.item
      (Classifier.classify_documents llm strip_lower _detect_modificacion
         documents_with_dates) in
  let versioning_results :=
    assign_versions classification_results date_results in
  map c_filename classification_results
  = map Classifier.doc_filename documents_with_dates
  /\ (forall category, In category (keys versioning_results) ->
        In category Classifier.CATS)
  /\ get versioning_results "escritura" = None
  /\ Report._extract_section_with_date_priority llm_secciones seccion
       versioning_results ocr_results = [].
Proof.
  simpl.
  assert (forall category,
            In category
              (keys (assign_versions
                       (map Classifier.item
                          (Classifier.classify_documents llm strip_lower
                             _detect_modificacion documents_with_dates))
                       date_results)) ->
            In category Classifier.CATS) as Hcats.
  { intros category Hk. apply ClassifierFacts.In_keys_get in Hk.
    destruct Hk as (chain & Hg).
    rewrite AssignerFacts.get_assign_versions in Hg.
    destruct (Orden.de_categoria categoria_de category _) as [|x xs] eqn:E;
      [discriminate|].
    assert (In x (x :: xs)) as Hx by now left.
    rewrite <- E in Hx. apply filter_In in Hx. destruct Hx as [Hx Hc].
    apply String.eqb_eq in Hc. subst category.
    apply in_map_iff in Hx. destruct Hx as (c & <- & Hc).
    unfold Classifier.classify_documents in Hc.
    apply in_map_iff in Hc. destruct Hc as (d & <- & _).
    apply ClassifierFacts._llm_fallback_CATS. }
  assert (get (assign_versions
                 (map Classifier.item
                    (Classifier.classify_documents llm strip_lower
                       _detect_modificacion documents_with_dates))
                 date_results) "escritura" = None) as Hnone.
  { destruct (get _ "escritura") as [chain|] eqn:Hg; auto.
    apply TextosFacts.get_Some_In in Hg.
    apply (in_map fst) in Hg. apply Hcats in Hg. simpl in Hg.
    repeat (destruct Hg as [Hg|Hg]; [discriminate|]). destruct Hg. }
  repeat split; auto.
  - unfold Classifier.classify_documents. rewrite !map_map. reflexivity.
  - unfold Report._extract_section_with_date_priority, get_default.
    now rewrite Hnone.
Qed.

(** ** Two OCR results of one file name *)

Module IndexFacts.

Lemma find_app {A} (p : A -> bool) l1 l2 :
  find p (l1 ++ l2)
  = match find p l1 with Some x => Some x | None => find p l2 end.
Proof.
  induction l1 as [|x l1 IH]; simpl; auto. now destruct (p x).
Qed.

(** A dict comprehension keeps, for a key, the value of the last item
    with that key. *)
Lemma get_comprehension {A V} (key : A -> string) (val : A -> V) l k :
  get (comprehension key val l) k
  = option_map val (find (fun x => String.eqb k (key x)) (rev l)).
Proof.
  unfold comprehension.
  assert (forall init,
            get (fold_left (fun d x => set d (key x) (val x)) l init) k
            = match find (fun x => String.eqb k (key x)) (rev l) with
              | Some x => Some (val x)
              | None => get init k
              end) as H.
  { induction l as [|x l IH]; intros init; [reflexivity|].
    cbn [fold_left rev]. rewrite IH, find_app.
    destruct (find _ (rev l)); auto.
    rewrite ComparerFacts.get_set. simpl.
    now destruct (String.eqb k (key x)). }
  rewrite H. now destruct (find _ (rev l)).
Qed.

End IndexFacts.

(** X26. When OCR results share a file name, the report reads the text
    of the last of them: [_ocr_text_by_filename] is the text of the last
    item of [ocr_results] with the file name, and the empty string when
    there is none. *)
Theorem X26_ocr_text_of_the_last_item
    (ocr_results : list ocr_item) (filename : string) :
  Report._ocr_text_by_filename ocr_results filename
  = match find (fun d => String.eqb filename (o_filename d))
            (rev ocr_results) with
    | Some d => o_text d
    | None => ""
    end.
Proof.
  unfold Report._ocr_text_by_filename, get_default.
  rewrite IndexFacts.get_comprehension.
  now destruct (find _ (rev ocr_results)).
Qed.
